(** * Tool-call intent validation and idempotent execution

    A shallow embedding of the pipeline formed by
    [backend/app/services/intent_service.py] (parsing and validation of
    tool-call arguments, derivation of the intent identity),
    [backend/app/services/execution_service.py] (the execution ledger and
    the webhook executor) and
    [backend/app/services/realtime_handler.py] (the tool-call
    orchestrator), followed by the properties of the pipeline. Around the
    pipeline, [backend/app/api/execute.py] (the endpoints that call it),
    the address check of [backend/app/services/validation_service.py] and
    the in-memory call states of [backend/app/services/state_service.py]
    are embedded too.

    Conventions of the embedding:
    - a Python [str] is a [string] of 8-bit characters; case mapping and
      whitespace are those of ASCII, the alphabet of every literal and
      character class in the code;
    - a tool-call argument is a [PyVal], the JSON data model with integral
      numbers (floating-point numbers are left out);
    - a Python exception is a value of [Exn]; code that can raise returns
      [Exn + A], and code that also touches the ledger threads a [World];
    - the body that [execute_calendar_intent] runs under the per-identity
      lock is a function of the world it finds, in two steps (the record
      is marked, the outcome of the webhook is stored) between which other
      calls may run ([reachable]); the locks, with the calls that hold
      them and the calls that wait for them, are those of a [Process];
    - what lies outside the process (configuration, clock, webhook
      endpoint, appointment store) is an [Env];
    - the standard library functions [json.loads] and
      [datetime.fromisoformat], whose behaviour depends on the interpreter,
      are the fields of [PyRuntime]. *)

From Stdlib Require Import ZArith NArith List Ascii String Bool Lia.
From Stdlib Require Import DecimalString.
From stdpp Require Import base option gmap strings.

Import ListNotations.
Local Open Scope Z_scope.

(** ** Python strings *)

Module PyStr.

Definition chars (s : string) : list ascii := list_ascii_of_string s.
Definition of_chars (l : list ascii) : string := string_of_list_ascii l.

Definition code (c : ascii) : N := N_of_ascii c.

Definition in_range (lo hi : N) (c : ascii) : bool :=
  (N.leb lo (code c) && N.leb (code c) hi)%bool.

Definition is_upper (c : ascii) : bool := in_range 65 90 c.
Definition is_lower (c : ascii) : bool := in_range 97 122 c.
Definition is_digit (c : ascii) : bool := in_range 48 57 c.
Definition is_alpha (c : ascii) : bool := (is_upper c || is_lower c)%bool.

(** [str.isspace] on one character: TAB, LF, VT, FF, CR, FS, GS, RS, US
    and the space. *)
Definition is_space (c : ascii) : bool :=
  (in_range 9 13 c || in_range 28 32 c)%bool.

Definition lower_char (c : ascii) : ascii :=
  if is_upper c then ascii_of_N (code c + 32) else c.

(** [s.lower()] *)
Definition lower (s : string) : string := of_chars (map lower_char (chars s)).

Fixpoint lstrip_chars (l : list ascii) : list ascii :=
  match l with
  | c :: l' => if is_space c then lstrip_chars l' else l
  | [] => []
  end.

(** [s.strip()] *)
Definition strip (s : string) : string :=
  of_chars (rev (lstrip_chars (rev (lstrip_chars (chars s))))).

(** [s.replace(c, t)] for a one-character pattern [c]. *)
Fixpoint replace_char (c : ascii) (t : string) (s : string) : string :=
  match s with
  | EmptyString => EmptyString
  | String a s' =>
      if Ascii.eqb a c then t +:+ replace_char c t s'
      else String a (replace_char c t s')
  end.

(** [sep.join(l)] *)
Fixpoint join (sep : string) (l : list string) : string :=
  match l with
  | [] => EmptyString
  | [x] => x
  | x :: l' => x +:+ sep +:+ join sep l'
  end.

(** [s.split(c)[0]]: the text before the first [c], all of [s] when it
    has none. *)
Fixpoint split_head (c : ascii) (s : string) : string :=
  match s with
  | EmptyString => EmptyString
  | String a s' => if Ascii.eqb a c then EmptyString else String a (split_head c s')
  end.

(** [s[:n]] *)
Fixpoint take (n : nat) (s : string) : string :=
  match n, s with
  | S n', String a s' => String a (take n' s')
  | _, _ => EmptyString
  end.

(** [not s] *)
Definition is_empty (s : string) : bool :=
  match s with EmptyString => true | _ => false end.

(** [str(n)] for an integer. *)
Definition of_Z (z : Z) : string := NilZero.string_of_int (Z.to_int z).
Definition of_nat (n : nat) : string := NilZero.string_of_uint (Nat.to_uint n).

Definition hex_digit (n : N) : ascii :=
  if N.ltb n 10 then ascii_of_N (48 + n) else ascii_of_N (87 + n).

(** Two lower-case hexadecimal digits of a byte. *)
Definition hex_byte (n : N) : string :=
  String (hex_digit (N.div n 16)) (String (hex_digit (N.modulo n 16)) EmptyString).

End PyStr.

(** ** SHA-256 ([hashlib.sha256]), FIPS 180-4, on 32-bit words held in [Z] *)

Module Sha256.

Definition mask32 : Z := 4294967295.
Definition w32 (x : Z) : Z := Z.land x mask32.
Definition add32 (x y : Z) : Z := w32 (x + y).
Definition rotr (n x : Z) : Z := Z.lor (Z.shiftr x n) (w32 (Z.shiftl x (32 - n))).
Definition not32 (x : Z) : Z := Z.lxor x mask32.

Definition ch (x y z : Z) : Z := Z.lxor (Z.land x y) (Z.land (not32 x) z).
Definition maj (x y z : Z) : Z :=
  Z.lxor (Z.lxor (Z.land x y) (Z.land x z)) (Z.land y z).
Definition bsig0 (x : Z) : Z := Z.lxor (Z.lxor (rotr 2 x) (rotr 13 x)) (rotr 22 x).
Definition bsig1 (x : Z) : Z := Z.lxor (Z.lxor (rotr 6 x) (rotr 11 x)) (rotr 25 x).
Definition ssig0 (x : Z) : Z := Z.lxor (Z.lxor (rotr 7 x) (rotr 18 x)) (Z.shiftr x 3).
Definition ssig1 (x : Z) : Z := Z.lxor (Z.lxor (rotr 17 x) (rotr 19 x)) (Z.shiftr x 10).

Definition K : list Z :=
  [ 1116352408; 1899447441; 3049323471; 3921009573; 961987163; 1508970993;
    2453635748; 2870763221; 3624381080; 310598401; 607225278; 1426881987;
    1925078388; 2162078206; 2614888103; 3248222580; 3835390401; 4022224774;
    264347078; 604807628; 770255983; 1249150122; 1555081692; 1996064986;
    2554220882; 2821834349; 2952996808; 3210313671; 3336571891; 3584528711;
    113926993; 338241895; 666307205; 773529912; 1294757372; 1396182291;
    1695183700; 1986661051; 2177026350; 2456956037; 2730485921; 2820302411;
    3259730800; 3345764771; 3516065817; 3600352804; 4094571909; 275423344;
    430227734; 506948616; 659060556; 883997877; 958139571; 1322822218;
    1537002063; 1747873779; 1955562222; 2024104815; 2227730452; 2361852424;
    2428436474; 2756734187; 3204031479; 3329325298 ].

Definition H0 : list Z :=
  [ 1779033703; 3144134277; 1013904242; 2773480762;
    1359893119; 2600822924; 528734635; 1541459225 ].

(** Big-endian bytes of [x], [n] of them. *)
Fixpoint be_bytes (n : nat) (x : Z) : list Z :=
  match n with
  | O => []
  | S n' => be_bytes n' (Z.shiftr x 8) ++ [Z.land x 255]
  end.

(** The message followed by the bit 1, zeros up to 56 modulo 64, and the
    bit length on 64 bits. *)
Definition pad (msg : list Z) : list Z :=
  let len := Z.of_nat (length msg) in
  let zeros := Z.to_nat ((55 - len) mod 64) in
  msg ++ [128] ++ repeat 0 zeros ++ be_bytes 8 (8 * len).

Fixpoint be_words (n : nat) (bytes : list Z) : list Z :=
  match n, bytes with
  | S n', b0 :: b1 :: b2 :: b3 :: rest =>
      (Z.shiftl b0 24 + Z.shiftl b1 16 + Z.shiftl b2 8 + b3) :: be_words n' rest
  | _, _ => []
  end.

Definition word (w : list Z) (t : nat) : Z := nth t w 0.

(** The message schedule: [n] more words after those of [w]. *)
Fixpoint schedule (n : nat) (w : list Z) : list Z :=
  match n with
  | O => w
  | S n' =>
      let t := length w in
      let x := add32 (add32 (ssig1 (word w (t - 2))) (word w (t - 7)))
                     (add32 (ssig0 (word w (t - 15))) (word w (t - 16))) in
      schedule n' (w ++ [x])
  end.

Record regs := Regs { ra : Z; rb : Z; rc : Z; rd : Z; re : Z; rf : Z; rg : Z; rh : Z }.

Definition round (r : regs) (kw : Z * Z) : regs :=
  let t1 := add32 (add32 (add32 (rh r) (bsig1 (re r))) (ch (re r) (rf r) (rg r)))
                  (add32 (fst kw) (snd kw)) in
  let t2 := add32 (bsig0 (ra r)) (maj (ra r) (rb r) (rc r)) in
  Regs (add32 t1 t2) (ra r) (rb r) (rc r) (add32 (rd r) t1) (re r) (rf r) (rg r).

Definition regs_of (h : list Z) : regs :=
  Regs (word h 0) (word h 1) (word h 2) (word h 3)
       (word h 4) (word h 5) (word h 6) (word h 7).

Definition compress (h : list Z) (block : list Z) : list Z :=
  let w := schedule 48 (be_words 16 block) in
  let r := fold_left round (combine K w) (regs_of h) in
  [ add32 (word h 0) (ra r); add32 (word h 1) (rb r);
    add32 (word h 2) (rc r); add32 (word h 3) (rd r);
    add32 (word h 4) (re r); add32 (word h 5) (rf r);
    add32 (word h 6) (rg r); add32 (word h 7) (rh r) ].

Fixpoint blocks (n : nat) (h : list Z) (bytes : list Z) : list Z :=
  match n with
  | O => h
  | S n' => blocks n' (compress h (firstn 64 bytes)) (skipn 64 bytes)
  end.

Definition digest (msg : list Z) : list Z :=
  let p := pad msg in
  flat_map (be_bytes 4) (blocks (Nat.div (length p) 64) H0 p).

(** [s.encode()]: the bytes of the text. *)
Definition encode (s : string) : list Z :=
  map (fun c => Z.of_N (PyStr.code c)) (PyStr.chars s).

(** [hashlib.sha256(s.encode()).hexdigest()] *)
Definition hexdigest (s : string) : string :=
  fold_right (fun b acc => PyStr.hex_byte (Z.to_N b) +:+ acc) EmptyString (digest (encode s)).

End Sha256.

(** ** Regular expressions ([re]), matched by derivatives *)

Module Re.

Inductive re : Type :=
| Void                         (* matches nothing *)
| Eps                          (* the empty string *)
| Class (p : ascii -> bool)    (* one character of a class *)
| Cat (r1 r2 : re)
| Alt (r1 r2 : re)
| Star (r : re).

(** [r+] and [r{2,}] *)
Definition Plus (r : re) : re := Cat r (Star r).
Definition AtLeast2 (r : re) : re := Cat r (Cat r (Star r)).
Definition Chr (c : ascii) : re := Class (Ascii.eqb c).

Fixpoint nullable (r : re) : bool :=
  match r with
  | Void => false
  | Eps => true
  | Class _ => false
  | Cat r1 r2 => nullable r1 && nullable r2
  | Alt r1 r2 => nullable r1 || nullable r2
  | Star _ => true
  end.

Definition cat (r1 r2 : re) : re :=
  match r1 with Void => Void | Eps => r2 | _ => Cat r1 r2 end.

Definition alt (r1 r2 : re) : re :=
  match r1, r2 with
  | Void, _ => r2
  | _, Void => r1
  | _, _ => Alt r1 r2
  end.

Fixpoint deriv (c : ascii) (r : re) : re :=
  match r with
  | Void => Void
  | Eps => Void
  | Class p => if p c then Eps else Void
  | Cat r1 r2 =>
      if nullable r1 then alt (cat (deriv c r1) r2) (deriv c r2)
      else cat (deriv c r1) r2
  | Alt r1 r2 => alt (deriv c r1) (deriv c r2)
  | Star r1 => cat (deriv c r1) (Star r1)
  end.

Fixpoint fullmatch (r : re) (s : list ascii) : bool :=
  match s with
  | [] => nullable r
  | c :: s' => fullmatch (deriv c r) s'
  end.

(** [re.match("^" r "$", s)] is not None: [$] stands at the end of the
    text and also before a line feed that ends it. *)
Definition match_anchored (r : re) (s : string) : bool :=
  let l := PyStr.chars s in
  fullmatch r l ||
  match rev l with
  | c :: l' => Ascii.eqb c "010" && fullmatch r (rev l')
  | [] => false
  end.

End Re.

(** ** Python values *)

(** A value of the JSON data model: what a tool-call argument, a decoded
    JSON text or a webhook response can be. A [dict] keeps its items in
    insertion order. *)
#[warnings="-register-all"] Inductive PyVal : Type :=
| PNone
| PBool (b : bool)
| PInt (n : Z)
| PStr (s : string)
| PList (l : list PyVal)
| PDict (d : list (string * PyVal)).

Abbreviation PyDict := (list (string * PyVal)).

(** [bool(v)] *)
Definition truthy (v : PyVal) : bool :=
  match v with
  | PNone => false
  | PBool b => b
  | PInt n => negb (Z.eqb n 0)
  | PStr s => negb (PyStr.is_empty s)
  | PList l => match l with [] => false | _ => true end
  | PDict d => match d with [] => false | _ => true end
  end.

(** [type(v).__name__] *)
Definition type_name (v : PyVal) : string :=
  match v with
  | PNone => "NoneType"
  | PBool _ => "bool"
  | PInt _ => "int"
  | PStr _ => "str"
  | PList _ => "list"
  | PDict _ => "dict"
  end.

(** [d.get(k)] as an option, [k in d], [d.get(k, default)] *)
Fixpoint dict_lookup (k : string) (d : PyDict) : option PyVal :=
  match d with
  | [] => None
  | (k', v) :: d' => if String.eqb k k' then Some v else dict_lookup k d'
  end.

Definition dict_has (k : string) (d : PyDict) : bool :=
  match dict_lookup k d with Some _ => true | None => false end.

Definition dict_get (d : PyDict) (k : string) (default : PyVal) : PyVal :=
  match dict_lookup k d with Some v => v | None => default end.

(** [repr(s)] of a string: single quotes unless the text holds a single
    quote and no double quote; a backslash before the quote in use and
    before a backslash; the escapes of LF, CR and TAB, and two hexadecimal
    digits for the other characters that do not print. *)
Definition repr_char (quote : ascii) (c : ascii) : string :=
  let n := PyStr.code c in
  if Ascii.eqb c quote then String "\" (String c EmptyString)
  else if N.eqb n 92 then "\\"
  else if N.eqb n 10 then "\n"
  else if N.eqb n 13 then "\r"
  else if N.eqb n 9 then "\t"
  else if (N.ltb n 32 || (N.leb 127 n && N.leb n 160) || N.eqb n 173)%bool
       then "\x" +:+ PyStr.hex_byte n
  else String c EmptyString.

Definition has_char (c : ascii) (s : string) : bool :=
  existsb (Ascii.eqb c) (PyStr.chars s).

Definition single_quote : ascii := "'"%char.
Definition double_quote : ascii := "034"%char.

Definition repr_str (s : string) : string :=
  let quote : ascii :=
    if (has_char single_quote s && negb (has_char double_quote s))%bool
    then double_quote else single_quote in
  String quote (PyStr.join EmptyString (map (repr_char quote) (PyStr.chars s)))
  +:+ String quote EmptyString.

(** [repr(v)] *)
Fixpoint py_repr (v : PyVal) : string :=
  match v with
  | PNone => "None"
  | PBool b => if b then "True" else "False"
  | PInt n => PyStr.of_Z n
  | PStr s => repr_str s
  | PList l => "[" +:+ PyStr.join ", " (map py_repr l) +:+ "]"
  | PDict d =>
      "{" +:+ PyStr.join ", "
                (map (fun kv => repr_str (fst kv) +:+ ": " +:+ py_repr (snd kv)) d)
          +:+ "}"
  end.

(** [str(v)], which is also how an f-string renders [{v}] *)
Definition py_str (v : PyVal) : string :=
  match v with
  | PStr s => s
  | _ => py_repr v
  end.

(** ** Exceptions *)

Inductive ExnClass : Type :=
| Exception            (* raised as [Exception(...)] itself *)
| ValueError
| TypeError
| KeyError
| IndexError
| AttributeError
| JSONDecodeError      (* a subclass of ValueError *)
| UnicodeDecodeError   (* a subclass of ValueError *)
| RecursionError
| TransportError.      (* what the HTTP client raises: timeouts, refused connections *)

(** An exception: its class and [str(e)]. *)
Record Exn : Type := mkExn { exn_class : ExnClass; exn_str : string }.

Definition Result (A : Type) : Type := (Exn + A)%type.

Definition raise {A : Type} (c : ExnClass) (msg : string) : Result A :=
  inl (mkExn c msg).

Definition bind {A B : Type} (m : Result A) (k : A -> Result B) : Result B :=
  match m with
  | inl e => inl e
  | inr a => k a
  end.

Notation "'let*' x ':=' m 'in' k" := (bind m (fun x => k))
  (at level 10, x name, m at level 100, k at level 200).

(** [v[0]] *)
Definition index0 (v : PyVal) : Result PyVal :=
  match v with
  | PList (x :: _) => inr x
  | PList [] => raise IndexError "list index out of range"
  | PStr (String c _) => inr (PStr (String c EmptyString))
  | PStr EmptyString => raise IndexError "string index out of range"
  | PDict _ => raise KeyError "0"
  | _ => raise TypeError ("'" +:+ type_name v +:+ "' object is not subscriptable")
  end.

(** [v.get(k, default)] on a value that need not be a dict *)
Definition py_get (v : PyVal) (k : string) (default : PyVal) : Result PyVal :=
  match v with
  | PDict d => inr (dict_get d k default)
  | _ => raise AttributeError
           ("'" +:+ type_name v +:+ "' object has no attribute 'get'")
  end.

(** ** The interpreter's library *)

(** What [datetime.fromisoformat] returns: the fields of the datetime and
    its offset from UTC in microseconds, [None] for a naive datetime. *)
Record DateTime : Type := mkDateTime {
  dt_year : Z; dt_month : Z; dt_day : Z;
  dt_hour : Z; dt_minute : Z; dt_second : Z; dt_microsecond : Z;
  dt_utcoffset : option Z
}.

Class PyRuntime : Type := {
  (** [json.loads(s)], and [response.json()] on a body of text [s]: the
      decoded value, or the exception raised. Malformed text raises
      [JSONDecodeError]; an integer literal longer than the interpreter's
      digit limit raises a plain [ValueError], nesting deeper than the
      interpreter's stack [RecursionError], and a body that is not valid
      UTF-8 [UnicodeDecodeError]: none of these three is a
      [JSONDecodeError]. *)
  json_decode : string -> Exn + PyVal;
  (** [datetime.fromisoformat(s)]: the datetime, or [None] when it raises
      [ValueError]. *)
  fromisoformat : string -> option DateTime
}.

Definition json_loads `{PyRuntime} (s : string) : Result PyVal :=
  json_decode s.

(** [isinstance(e, c)]: every class derives from [Exception], and
    [JSONDecodeError] and [UnicodeDecodeError] from [ValueError]. *)
Definition exn_isinstance (e : Exn) (c : ExnClass) : bool :=
  match c, exn_class e with
  | Exception, _ => true
  | ValueError, (ValueError | JSONDecodeError | UnicodeDecodeError) => true
  | TypeError, TypeError => true
  | KeyError, KeyError => true
  | IndexError, IndexError => true
  | AttributeError, AttributeError => true
  | JSONDecodeError, JSONDecodeError => true
  | UnicodeDecodeError, UnicodeDecodeError => true
  | RecursionError, RecursionError => true
  | TransportError, TransportError => true
  | _, _ => false
  end.

(** [try: m except c as e: h e] *)
Definition try_except {A : Type} (m : Result A) (c : ExnClass)
    (h : Exn -> Result A) : Result A :=
  match m with
  | inl e => if exn_isinstance e c then h e else inl e
  | inr a => inr a
  end.

(** ** intent_service.py: the canonical intent *)

(** [IntentAction.CREATE_CALENDAR_EVENT.value] *)
Definition CREATE_CALENDAR_EVENT : string := "create_calendar_event".

(** [CalendarEventIntent], once validated. *)
Record CalendarEventIntent : Type := mkIntent {
  action : string;
  title : string;
  description : option string;
  start_time : string;
  end_time : string;
  timezone : string;
  attendees : list string;
  send_email : bool;
  intent_id : option string;
  call_id : option string;
  org_id : option string
}.

(** One entry of pydantic's [ValidationError.errors()]. *)
Record FieldError : Type := mkFieldError { err_loc : list string; err_msg : string }.

Definition Checked (A : Type) : Type := (list FieldError + A)%type.

Definition field_error {A : Type} (loc : list string) (msg : string) : Checked A :=
  inl [mkFieldError loc msg].

Definition errors_of {A : Type} (c : Checked A) : list FieldError :=
  match c with inl e => e | inr _ => [] end.

(** A [ValueError] raised by a field validator becomes an error of the
    field, its message after the words "Value error, ". *)
Definition run_validator {A : Type} (loc : list string) (m : Result A) : Checked A :=
  match m with
  | inl e => field_error loc ("Value error, " +:+ exn_str e)
  | inr a => inr a
  end.

(** A field of type [str]: pydantic takes a string and nothing else. *)
Definition check_str (loc : list string) (v : PyVal) : Checked string :=
  match v with
  | PStr s => inr s
  | _ => field_error loc "Input should be a valid string"
  end.

(** A field of type [Optional[str]]. *)
Definition check_opt_str (loc : list string) (v : PyVal) : Checked (option string) :=
  match v with
  | PNone => inr None
  | PStr s => inr (Some s)
  | _ => field_error loc "Input should be a valid string"
  end.

Definition eq_ignore_case (s t : string) : bool :=
  String.eqb (PyStr.lower s) t.

(** A field of type [bool]: a bool, the integers 0 and 1, and the usual
    spellings of the two truth values are taken. *)
Definition check_bool (loc : list string) (v : PyVal) : Checked bool :=
  match v with
  | PBool b => inr b
  | PInt 0 => inr false
  | PInt 1 => inr true
  | PInt _ => field_error loc "Input should be a valid boolean, unable to interpret input"
  | PStr s =>
      if String.eqb s "0" || existsb (eq_ignore_case s) ["f"; "n"; "no"; "off"; "false"]
      then inr false
      else if String.eqb s "1" || existsb (eq_ignore_case s) ["t"; "y"; "on"; "yes"; "true"]
      then inr true
      else field_error loc "Input should be a valid boolean, unable to interpret input"
  | _ => field_error loc "Input should be a valid boolean"
  end.

(** [validate_action] *)
Definition validate_action (v : string) : Result string :=
  if negb (String.eqb v CREATE_CALENDAR_EVENT)
  then raise ValueError ("Action must be '" +:+ CREATE_CALENDAR_EVENT +:+ "'")
  else inr v.

(** [validate_iso8601] *)
Definition validate_iso8601 `{PyRuntime} (v : string) : Result string :=
  match fromisoformat (PyStr.replace_char "Z" "+00:00" v) with
  | Some _ => inr v
  | None =>
      raise ValueError
        ("Invalid ISO-8601 datetime: " +:+ v +:+
         ". Expected format: YYYY-MM-DDTHH:MM:SSZ")
  end.

(** The character classes of [email_regex]. *)
Definition local_class (c : ascii) : bool :=
  (PyStr.is_alpha c || PyStr.is_digit c || has_char c "._%+-")%bool.
Definition domain_class (c : ascii) : bool :=
  (PyStr.is_alpha c || PyStr.is_digit c || has_char c ".-")%bool.

(** [r'^[a-zA-Z0-9._%+-]+@[a-zA-Z0-9.-]+\.[a-zA-Z]{2,}$'] *)
Definition email_regex : Re.re :=
  Re.Cat (Re.Plus (Re.Class local_class))
    (Re.Cat (Re.Chr "@")
      (Re.Cat (Re.Plus (Re.Class domain_class))
        (Re.Cat (Re.Chr ".") (Re.AtLeast2 (Re.Class PyStr.is_alpha))))).

(** [email.strip().lower()] *)
Definition normalize_email (email : string) : string :=
  PyStr.lower (PyStr.strip email).

(** The loop of [validate_attendees]. *)
Fixpoint validate_each (v : list string) : Result (list string) :=
  match v with
  | [] => inr []
  | email :: rest =>
      let email := normalize_email email in
      if negb (Re.match_anchored email_regex email)
      then raise ValueError ("Invalid email format: " +:+ email)
      else let* validated := validate_each rest in inr (email :: validated)
  end.

(** [validate_attendees] *)
Definition validate_attendees (v : list string) : Result (list string) :=
  match v with
  | [] => raise ValueError "At least one attendee email is required"
  | _ => validate_each v
  end.

(** The keyword arguments [normalized_data] of the constructor. *)
Record NormalizedData : Type := mkNormalized {
  nd_action : PyVal;
  nd_title : PyVal;
  nd_description : PyVal;
  nd_start_time : PyVal;
  nd_end_time : PyVal;
  nd_timezone : PyVal;
  nd_attendees : PyVal;
  nd_send_email : PyVal;
  nd_intent_id : PyVal;
  nd_call_id : option string;
  nd_org_id : option string
}.

(** [action: str] with [validate_action] *)
Definition check_action (v : PyVal) : Checked string :=
  match check_str ["action"] v with
  | inr s => run_validator ["action"] (validate_action s)
  | inl e => inl e
  end.

(** [title: str = Field(..., min_length=1, max_length=255)] *)
Definition check_title (v : PyVal) : Checked string :=
  match check_str ["title"] v with
  | inr s =>
      if Nat.ltb (String.length s) 1
      then field_error ["title"] "String should have at least 1 character"
      else if Nat.ltb 255 (String.length s)
      then field_error ["title"] "String should have at most 255 characters"
      else inr s
  | inl e => inl e
  end.

(** [start_time: str] and [end_time: str] with [validate_iso8601] *)
Definition check_time `{PyRuntime} (field : string) (v : PyVal) : Checked string :=
  match check_str [field] v with
  | inr s => run_validator [field] (validate_iso8601 s)
  | inl e => inl e
  end.

(** The items of a [List[str]]: the strings, or an error for each item
    that is not one, at its index. *)
Fixpoint check_items (field : string) (i : nat) (l : list PyVal)
    : list FieldError * list string :=
  match l with
  | [] => ([], [])
  | v :: rest =>
      let '(errs, items) := check_items field (S i) rest in
      match v with
      | PStr s => (errs, s :: items)
      | _ => (mkFieldError [field; PyStr.of_nat i] "Input should be a valid string" :: errs,
              items)
      end
  end.

(** [attendees: List[str] = Field(..., min_length=1)] with
    [validate_attendees] *)
Definition check_attendees (v : PyVal) : Checked (list string) :=
  match v with
  | PList l =>
      match check_items "attendees" 0 l with
      | ([], items) =>
          if Nat.ltb (length items) 1
          then field_error ["attendees"]
                 "List should have at least 1 item after validation, not 0"
          else run_validator ["attendees"] (validate_attendees items)
      | (errs, _) => inl errs
      end
  | _ => field_error ["attendees"] "Input should be a valid list"
  end.

(** The constructor [CalendarEventIntent], applied to the keyword arguments
    [normalized_data]: the fields are validated in the order of their
    declaration and every error is reported. *)
Definition new_CalendarEventIntent `{PyRuntime} (d : NormalizedData)
    : Checked CalendarEventIntent :=
  let c_action := check_action (nd_action d) in
  let c_title := check_title (nd_title d) in
  let c_description := check_opt_str ["description"] (nd_description d) in
  let c_start := check_time "start_time" (nd_start_time d) in
  let c_end := check_time "end_time" (nd_end_time d) in
  let c_timezone := check_str ["timezone"] (nd_timezone d) in
  let c_attendees := check_attendees (nd_attendees d) in
  let c_send_email := check_bool ["send_email"] (nd_send_email d) in
  let c_intent_id := check_opt_str ["intent_id"] (nd_intent_id d) in
  match c_action, c_title, c_description, c_start, c_end,
        c_timezone, c_attendees, c_send_email, c_intent_id with
  | inr a, inr t, inr de, inr st, inr en, inr tz, inr at_, inr se, inr ii =>
      inr (mkIntent a t de st en tz at_ se ii (nd_call_id d) (nd_org_id d))
  | _, _, _, _, _, _, _, _, _ =>
      inl (errors_of c_action ++ errors_of c_title ++ errors_of c_description ++
           errors_of c_start ++ errors_of c_end ++ errors_of c_timezone ++
           errors_of c_attendees ++ errors_of c_send_email ++ errors_of c_intent_id)
  end.

(** [ValidationResult] *)
Record ValidationResult : Type := mkValidationResult {
  is_valid : bool;
  intent : option CalendarEventIntent;
  errors : list string;
  raw_input : option PyDict
}.

(** ** intent_service.py: [IntentService] *)

Definition required_fields : list string :=
  ["title"; "start_time"; "end_time"; "attendee_email"].

(** [field not in tool_args or not tool_args.get(field)] *)
Definition is_missing (tool_args : PyDict) (field : string) : bool :=
  negb (dict_has field tool_args) || negb (truthy (dict_get tool_args field PNone)).

(** The list [missing_fields] after the loop over [required_fields]. *)
Definition missing_fields (tool_args : PyDict) : list string :=
  List.filter (is_missing tool_args) required_fields.

(** [attendees] after STEP 2: the "attendees" entry, and when it is falsy
    the "attendee_email" entry wrapped into a list. *)
Definition attendees_of (tool_args : PyDict) : PyVal :=
  let attendees := dict_get tool_args "attendees" (PList []) in
  if negb (truthy attendees) && truthy (dict_get tool_args "attendee_email" PNone)
  then PList [dict_get tool_args "attendee_email" PNone]
  else attendees.

(** [idempotency_key]: the title, the two timestamps and the first
    attendee as the payload has them, separated by bars. [attendees[0]]
    is where the line can raise. *)
Definition idempotency_key (tool_args : PyDict) : Result string :=
  let attendees := attendees_of tool_args in
  let* first := (if truthy attendees then index0 attendees else inr (PStr EmptyString)) in
  inr (py_str (dict_get tool_args "title" PNone) +:+ "|" +:+
       py_str (dict_get tool_args "start_time" PNone) +:+ "|" +:+
       py_str (dict_get tool_args "end_time" PNone) +:+ "|" +:+
       py_str first).

(** [tool_args.get("intent_id") or hashlib.sha256(idempotency_key.encode()).hexdigest()[:16]].
    Every string of the embedding can be encoded; a Python [str] that
    holds a lone surrogate, which [encode] refuses with a
    [UnicodeEncodeError], is no such string. *)
Definition intent_id_of (tool_args : PyDict) (idempotency_key : string) : PyVal :=
  let given := dict_get tool_args "intent_id" PNone in
  if truthy given then given
  else PStr (PyStr.take 16 (Sha256.hexdigest idempotency_key)).

(** One string of [errors]: the location joined by dots, a colon, the
    message. *)
Definition format_error (e : FieldError) : string :=
  PyStr.join "." (err_loc e) +:+ ": " +:+ err_msg e.

(** The dict [normalized_data] of STEP 2. *)
Definition normalized_data (tool_args : PyDict) (intent_id : PyVal)
    (call_id org_id : option string) : NormalizedData :=
  {| nd_action := PStr CREATE_CALENDAR_EVENT;
     nd_title := dict_get tool_args "title" (PStr EmptyString);
     nd_description := dict_get tool_args "description" (PStr EmptyString);
     nd_start_time := dict_get tool_args "start_time" (PStr EmptyString);
     nd_end_time := dict_get tool_args "end_time" (PStr EmptyString);
     nd_timezone := dict_get tool_args "timezone" (PStr "UTC");
     nd_attendees := attendees_of tool_args;
     nd_send_email := dict_get tool_args "send_email" (PBool true);
     nd_intent_id := intent_id;
     nd_call_id := call_id;
     nd_org_id := org_id |}.

(** The message of STEP 1 for the fields that are missing. *)
Definition missing_message (missing : list string) : string :=
  "Missing required fields: " +:+ PyStr.join ", " missing.

(** [IntentService.validate_calendar_intent] *)
Definition validate_calendar_intent `{PyRuntime} (tool_args : PyDict)
    (call_id org_id : option string) : Result ValidationResult :=
  (* STEP 1: check required fields exist *)
  let missing := missing_fields tool_args in
  match missing with
  | _ :: _ =>
      let error_msg := missing_message missing in
      inr (mkValidationResult false None [error_msg] (Some tool_args))
  | [] =>
      (* STEP 2: transform to the strict schema *)
      let* key := idempotency_key tool_args in
      let intent_id := intent_id_of tool_args key in
      (* STEP 3: validate with the model *)
      match new_CalendarEventIntent (normalized_data tool_args intent_id call_id org_id) with
      | inr intent => inr (mkValidationResult true (Some intent) [] (Some tool_args))
      | inl errs =>
          inr (mkValidationResult false None (map format_error errs) (Some tool_args))
      end
  end.

(** [IntentService.parse_tool_call_safely] *)
Definition parse_tool_call_safely `{PyRuntime} (raw_data : PyVal)
    : Result (option PyDict * option string) :=
  match raw_data with
  | PNone => inr (None, Some "Tool call data is None")
  | PDict d => inr (Some d, None)
  | PStr s =>
      try_except
        (let cleaned := PyStr.strip s in
         if PyStr.is_empty cleaned then inr (None, Some "Empty tool call data")
         else
           let* parsed := json_loads cleaned in
           match parsed with
           | PDict d => inr (Some d, None)
           | _ => inr (None, Some ("Expected object, got " +:+ type_name parsed))
           end)
        JSONDecodeError
        (fun e => inr (None, Some ("Invalid JSON: " +:+ exn_str e)))
  | _ => inr (None, Some ("Unexpected data type: " +:+ type_name raw_data))
  end.

(** [IntentService.generate_clarification_message] *)
Definition generate_clarification_message (validation_result : ValidationResult)
    : string :=
  if is_valid validation_result then EmptyString
  else
    let error_summary := PyStr.join "; " (errors validation_result) in
    "VALIDATION_FAILED: Cannot create appointment. " +:+ error_summary +:+ ". " +:+
    "Please ask the user to provide the missing or correct information.".

(** ** execution_service.py *)

Inductive ExecutionStatus : Type :=
| PENDING
| EXECUTING
| EXECUTED
| FAILED
| DUPLICATE.

Definition status_eqb (s t : ExecutionStatus) : bool :=
  match s, t with
  | PENDING, PENDING | EXECUTING, EXECUTING | EXECUTED, EXECUTED
  | FAILED, FAILED | DUPLICATE, DUPLICATE => true
  | _, _ => false
  end.

(** [s in l] for a list of statuses *)
Definition status_in (s : ExecutionStatus) (l : list ExecutionStatus) : bool :=
  existsb (status_eqb s) l.

(** [ExecutionResult]; [er_zapier_response] is never [None], and
    [er_executed_at] is the time of construction of a successful result. *)
Record ExecutionResult : Type := mkExecutionResult {
  er_success : bool;
  er_status : ExecutionStatus;
  er_intent_id : string;
  er_zapier_response : PyVal;
  er_error : option string;
  er_is_duplicate : bool;
  er_executed_at : option string
}.

(** The body sent to the webhook, [to_zapier_payload]. *)
Record ZapierPayload : Type := mkZapierPayload {
  zp_appointment_id : option string;
  zp_title : string;
  zp_description : string;
  zp_start_time : string;
  zp_end_time : string;
  zp_timezone : string;
  zp_attendee_email : string;
  zp_attendee_name : string;
  zp_additional_attendees : list string;
  zp_send_email : bool;
  zp_created_at : string
}.

(** What an HTTP request comes to: a response, or an exception of the
    client (a timeout, a refused connection). *)
Inductive HttpOutcome : Type :=
| Responded (status_code : Z) (text : string)
| HttpRaised (e : Exn).

(** What lies outside the process: the configuration, the clock, the
    webhook endpoint (which may answer according to the requests it has
    had) and the appointment store (which may take or refuse a record
    according to the time). *)
Record Env : Type := mkEnv {
  ZAPIER_WEBHOOK_URL : string;
  utcnow_isoformat : nat -> string;
  http_post : list ZapierPayload -> ZapierPayload -> HttpOutcome;
  db_commit : nat -> CalendarEventIntent -> bool
}.

(** The state of the process: the ledger [_executions], the identities
    that have a lock in [_locks], the requests sent to the webhook, oldest
    first, and the number of times the clock has been read. *)
Record World : Type := mkWorld {
  executions : gmap string ExecutionResult;
  locks : gset string;
  calls : list ZapierPayload;
  ticks : nat
}.

Definition empty_world : World := mkWorld ∅ ∅ [] 0.

Definition set_executions (m : gmap string ExecutionResult) (w : World) : World :=
  mkWorld m (locks w) (calls w) (ticks w).

Definition set_locks (l : gset string) (w : World) : World :=
  mkWorld (executions w) l (calls w) (ticks w).

Definition log_call (p : ZapierPayload) (w : World) : World :=
  mkWorld (executions w) (locks w) (calls w ++ [p]) (ticks w).

(** [datetime.utcnow().isoformat()] *)
Definition read_clock (env : Env) (w : World) : string * World :=
  (utcnow_isoformat env (ticks w),
   mkWorld (executions w) (locks w) (calls w) (S (ticks w))).

(** [x or default] for an optional string *)
Definition opt_or (x : option string) (default : string) : string :=
  match x with
  | Some s => if PyStr.is_empty s then default else s
  | None => default
  end.

(** [ExecutionResult.__init__] *)
Definition new_ExecutionResult (env : Env) (success : bool)
    (status : ExecutionStatus) (intent_id : string)
    (zapier_response : option PyVal) (error : option string)
    (is_duplicate : bool) (w : World) : ExecutionResult * World :=
  let response :=
    match zapier_response with
    | Some v => if truthy v then v else PDict []
    | None => PDict []
    end in
  if success then
    let '(now, w') := read_clock env w in
    (mkExecutionResult success status intent_id response error is_duplicate (Some now), w')
  else
    (mkExecutionResult success status intent_id response error is_duplicate None, w).

(** [CalendarEventIntent.to_zapier_payload] *)
Definition to_zapier_payload (env : Env) (self : CalendarEventIntent) (w : World)
    : Result ZapierPayload * World :=
  match attendees self with
  | [] => (raise IndexError "list index out of range", w)
  | primary :: others =>
      let '(now, w') := read_clock env w in
      (inr {| zp_appointment_id := intent_id self;
              zp_title := title self;
              zp_description := opt_or (description self) EmptyString;
              zp_start_time := start_time self;
              zp_end_time := end_time self;
              zp_timezone := timezone self;
              zp_attendee_email := primary;
              zp_attendee_name := EmptyString;
              zp_additional_attendees := others;
              zp_send_email := send_email self;
              zp_created_at := now |}, w')
  end.

(** The identity under which the ledger files an intent:
    [intent.intent_id or "unknown"]. *)
Definition ledger_key (intent : CalendarEventIntent) : string :=
  opt_or (intent_id intent) "unknown".

(** [response.status_code not in [200, 201, 202]] *)
Definition is_failure_status (status_code : Z) : bool :=
  negb (existsb (Z.eqb status_code) [200; 201; 202]).

(** [ExecutionService._call_zapier_webhook]. [response.json()] is the
    decoder applied to the body: only its [JSONDecodeError] is handled
    here, and whatever else it raises leaves the function. *)
Definition _call_zapier_webhook `{PyRuntime} (env : Env)
    (intent : CalendarEventIntent) (w : World) : Result ExecutionResult * World :=
  if PyStr.is_empty (ZAPIER_WEBHOOK_URL env)
  then (raise ValueError "ZAPIER_WEBHOOK_URL not configured", w)
  else
    match to_zapier_payload env intent w with
    | (inl e, w1) => (inl e, w1)
    | (inr payload, w1) =>
        let outcome := http_post env (calls w1) payload in
        let w2 := log_call payload w1 in
        match outcome with
        | HttpRaised e => (inl e, w2)
        | Responded status_code text =>
            if is_failure_status status_code
            then (raise Exception
                    ("Zapier returned " +:+ PyStr.of_Z status_code +:+ ": " +:+ text), w2)
            else
              let response_json :=
                try_except (json_loads text) JSONDecodeError
                  (fun _ => inr (PDict [("status", PStr "accepted"); ("raw", PStr text)])) in
              match response_json with
              | inl e => (inl e, w2)
              | inr v =>
                  let '(result, w3) :=
                    new_ExecutionResult env true EXECUTED (ledger_key intent)
                      (Some v) None false w2 in
                  (inr result, w3)
              end
        end
    end.

(** [ExecutionService._get_lock], as far as the keys of [_locks] go: the
    lock of an identity is made the first time it is asked for. The lock
    itself, and the wait of [async with lock] on a lock that is held, are
    those of a [Process], below. *)
Definition _get_lock (intent_id : string) (w : World) : World :=
  set_locks ({[intent_id]} ∪ locks w) w.

(** How the body under the lock begins: with a duplicate, or with the
    record marked EXECUTING. *)
Inductive Begun : Type :=
| IsDuplicate (r : ExecutionResult)
| Started.

(** The body of [async with lock], STEP 1 and STEP 2: what a call does
    once it has taken its lock. No [await] stands between the lock and
    the end of STEP 2. *)
Definition under_lock (env : Env) (intent : CalendarEventIntent) (w : World)
    : Begun * World :=
  let intent_id := ledger_key intent in
  let duplicate :=
    match executions w !! intent_id with
    | Some existing => status_in (er_status existing) [EXECUTED; EXECUTING]
    | None => false
    end in
  if duplicate then
    (* STEP 1: check for duplicate *)
    let '(r, w') := new_ExecutionResult env true DUPLICATE intent_id None None true w in
    (IsDuplicate r, w')
  else
    (* STEP 2: mark as executing *)
    let '(r, w') := new_ExecutionResult env false EXECUTING intent_id None None false w in
    (Started, set_executions (<[intent_id := r]> (executions w')) w').

(** [execute_calendar_intent], from [_get_lock] to STEP 2, of a call that
    finds its lock free and so runs that far without a pause. A call
    that finds the lock held is suspended instead ([arrive], below). *)
Definition execute_begin (env : Env) (intent : CalendarEventIntent) (w : World)
    : Begun * World :=
  under_lock env intent (_get_lock (ledger_key intent) w).

(** [execute_calendar_intent], STEP 3 to STEP 5: the webhook is called and
    the record takes the result, or the failure. *)
Definition execute_finish `{PyRuntime} (env : Env) (intent : CalendarEventIntent)
    (w : World) : ExecutionResult * World :=
  let intent_id := ledger_key intent in
  match _call_zapier_webhook env intent w with
  | (inr result, w1) =>
      (result, set_executions (<[intent_id := result]> (executions w1)) w1)
  | (inl e, w1) =>
      let error_msg := exn_str e in
      let '(result, w2) :=
        new_ExecutionResult env false FAILED intent_id None (Some error_msg) false w1 in
      (result, set_executions (<[intent_id := result]> (executions w2)) w2)
  end.

(** [ExecutionService.execute_calendar_intent] *)
Definition execute_calendar_intent `{PyRuntime} (env : Env)
    (intent : CalendarEventIntent) (w : World) : ExecutionResult * World :=
  match execute_begin env intent w with
  | (IsDuplicate r, w1) => (r, w1)
  | (Started, w1) => execute_finish env intent w1
  end.

(** [ExecutionService.get_execution_status] *)
Definition get_execution_status (w : World) (intent_id : string)
    : option ExecutionResult :=
  executions w !! intent_id.

(** [ExecutionService.was_executed] *)
Definition was_executed (w : World) (intent_id : string) : bool :=
  match executions w !! intent_id with
  | None => false
  | Some result => status_in (er_status result) [EXECUTED; DUPLICATE]
  end.

(** [ExecutionService.reset_execution] *)
Definition reset_execution (intent_id : string) (w : World) : bool * World :=
  match executions w !! intent_id with
  | Some _ =>
      (true, set_locks (locks w ∖ {[intent_id]})
               (set_executions (delete intent_id (executions w)) w))
  | None => (false, w)
  end.

(** ** realtime_handler.py: [RealtimeHandler] *)

(** The dict a handler returns. *)
Abbreviation ToolResult := (list (string * PyVal)).

Definition opt_str_val (x : option string) : PyVal :=
  match x with Some s => PStr s | None => PNone end.

(** [bool(x)] for an optional string *)
Definition opt_truthy (x : option string) : bool :=
  match x with Some s => negb (PyStr.is_empty s) | None => false end.

(** [RealtimeHandler._handle_create_appointment] *)
Definition _handle_create_appointment `{PyRuntime} (env : Env) (tool_args : PyVal)
    (call_id org_id : option string) (w : World) : Result ToolResult * World :=
  (* STEP 1: parse arguments safely *)
  match parse_tool_call_safely tool_args with
  | inl e => (inl e, w)
  | inr (parsed_args, parse_error) =>
      if opt_truthy parse_error then
        (inr [("success", PBool false);
              ("error", PStr ("Invalid tool arguments: " +:+ opt_or parse_error EmptyString));
              ("should_retry", PBool true);
              ("clarification", PStr "Please provide valid appointment details.")], w)
      else
        match parsed_args with
        | None => (raise TypeError "argument of type 'NoneType' is not iterable", w)
        | Some parsed_args =>
            (* STEP 2: validate with strict schema *)
            match validate_calendar_intent parsed_args call_id org_id with
            | inl e => (inl e, w)
            | inr validation_result =>
                if negb (is_valid validation_result) then
                  let clarification := generate_clarification_message validation_result in
                  (inr [("success", PBool false);
                        ("error", PStr (PyStr.join "; " (errors validation_result)));
                        ("should_retry", PBool true);
                        ("clarification", PStr clarification);
                        ("missing_fields",
                         PList (map (fun e => PStr (PyStr.split_head ":" e))
                                    (errors validation_result)))], w)
                else
                  match intent validation_result with
                  | None =>
                      (raise AttributeError
                         "'NoneType' object has no attribute 'intent_id'", w)
                  | Some intent =>
                      (* STEP 3: check for duplicates *)
                      let executed :=
                        match intent_id intent with
                        | Some i => was_executed w i
                        | None => false
                        end in
                      if executed then
                        (inr [("success", PBool true);
                              ("is_duplicate", PBool true);
                              ("message", PStr "This appointment was already created.");
                              ("appointment_id", opt_str_val (intent_id intent))], w)
                      else
                        (* STEP 4: save to database, failures are logged *)
                        let db_appointment_id :=
                          if db_commit env (ticks w) intent then intent_id intent else None in
                        (* STEP 5: execute via Zapier *)
                        let '(execution_result, w1) :=
                          execute_calendar_intent env intent w in
                        if negb (er_success execution_result) then
                          (inr [("success", PBool false);
                                ("error", PStr (opt_or (er_error execution_result)
                                                  "Failed to create appointment"));
                                ("should_retry", PBool true);
                                ("clarification", PStr "I was unable to send the calendar invite. The appointment was saved but please try again.");
                                ("appointment_id", opt_str_val db_appointment_id)], w1)
                        else
                          (* STEP 6: return success *)
                          match attendees intent with
                          | [] => (raise IndexError "list index out of range", w1)
                          | primary :: _ =>
                              match py_get (er_zapier_response execution_result)
                                      "calendar_link" PNone with
                              | inl e => (inl e, w1)
                              | inr calendar_link =>
                                  (inr [("success", PBool true);
                                        ("message", PStr ("Appointment created and confirmation email sent to " +:+ primary));
                                        ("appointment_id",
                                         if opt_truthy db_appointment_id
                                         then opt_str_val db_appointment_id
                                         else opt_str_val (intent_id intent));
                                        ("calendar_link", calendar_link);
                                        ("email_sent", PBool true);
                                        ("attendee_email", PStr primary);
                                        ("title", PStr (title intent));
                                        ("start_time", PStr (start_time intent));
                                        ("end_time", PStr (end_time intent))], w1)
                              end
                          end
                  end
            end
        end
  end.

(** [RealtimeHandler._handle_escalate_call] *)
Definition _handle_escalate_call (tool_args : PyVal) : Result ToolResult :=
  let* _reason := py_get tool_args "reason" PNone in
  let* urgency := py_get tool_args "urgency" (PStr "medium") in
  inr [("success", PBool true);
       ("message", PStr "Call escalated to human agent");
       ("urgency", urgency)].

(** [RealtimeHandler._handle_complete_intake] *)
Definition _handle_complete_intake (tool_args : PyVal) : Result ToolResult :=
  inr [("success", PBool true);
       ("message", PStr "Intake completed successfully")].

(** [RealtimeHandler._handle_end_call] *)
Definition _handle_end_call (tool_args : PyVal) : Result ToolResult :=
  let* reason := py_get tool_args "reason" (PStr "completed") in
  inr [("success", PBool true);
       ("message", PStr "Call ended");
       ("reason", reason)].

(** The [try] block of [handle_tool_call]: the route taken on the tool
    name. *)
Definition route_tool_call `{PyRuntime} (env : Env) (tool_name : string)
    (tool_args : PyVal) (call_id org_id : option string) (w : World)
    : Result ToolResult * World :=
  if String.eqb tool_name "create_appointment" then
    _handle_create_appointment env tool_args call_id org_id w
  else if String.eqb tool_name "escalate_call" then
    (_handle_escalate_call tool_args, w)
  else if String.eqb tool_name "complete_intake" then
    (_handle_complete_intake tool_args, w)
  else if String.eqb tool_name "end_call" then
    (_handle_end_call tool_args, w)
  else
    (inr [("success", PBool false);
          ("error", PStr ("Unknown tool: " +:+ tool_name));
          ("should_retry", PBool false)], w).

(** [RealtimeHandler.handle_tool_call]: the route inside
    [try ... except Exception as e]. The clock is read before the route is
    taken and again in the [finally] clause. *)
Definition handle_tool_call `{PyRuntime} (env : Env) (tool_name : string)
    (tool_args : PyVal) (call_id org_id item_id : option string) (w : World)
    : Result ToolResult * World :=
  let '(_, w0) := read_clock env w in
  let '(r, w1) := route_tool_call env tool_name tool_args call_id org_id w0 in
  let r' :=
    try_except r Exception
      (fun e => inr [("success", PBool false);
                     ("error", PStr (exn_str e));
                     ("should_retry", PBool true)]) in
  let '(_, w2) := read_clock env w1 in
  (r', w2).

(** ** A reference interpreter library

    The two library functions, written out so that the pipeline can be run
    on concrete inputs. *)

(** [datetime.fromisoformat] on the format documented for it up to
    Python 3.10, YYYY-MM-DD[*HH[:MM[:SS[.fff[fff]]]][+HH:MM[:SS[.ffffff]]]],
    where * is any one character and the sign of the offset may be a
    minus. Later interpreters parse more of ISO 8601 than this; what is
    proved of the pipeline holds for any [fromisoformat]. *)
Module IsoFormat.

Definition digit (c : ascii) : option Z :=
  if PyStr.is_digit c then Some (Z.of_N (PyStr.code c) - 48) else None.

(** Exactly [n] digits at the head of [l]. *)
Fixpoint digits (n : nat) (acc : Z) (l : list ascii) : option (Z * list ascii) :=
  match n with
  | O => Some (acc, l)
  | S n' =>
      match l with
      | c :: l' =>
          match digit c with
          | Some d => digits n' (10 * acc + d) l'
          | None => None
          end
      | [] => None
      end
  end.

Definition expect (c : ascii) (l : list ascii) : option (list ascii) :=
  match l with
  | a :: l' => if Ascii.eqb a c then Some l' else None
  | [] => None
  end.

Definition is_leap (y : Z) : bool :=
  ((y mod 4 =? 0) && (negb (y mod 100 =? 0) || (y mod 400 =? 0)))%bool.

Definition days_in_month (y m : Z) : Z :=
  if m =? 2 then (if is_leap y then 29 else 28)
  else if existsb (Z.eqb m) [4; 6; 9; 11] then 30 else 31.

(** HH[:MM[:SS[.fff[fff]]]], all of [l]: hour, minute, second,
    microsecond. *)
Definition hh_mm_ss_ff (l : list ascii) : option (Z * Z * Z * Z) :=
  match digits 2 0 l with
  | None => None
  | Some (hh, []) => Some (hh, 0, 0, 0)
  | Some (hh, l1) =>
      match option_bind _ _ (digits 2 0) (expect ":" l1) with
      | None => None
      | Some (mm, []) => Some (hh, mm, 0, 0)
      | Some (mm, l2) =>
          match option_bind _ _ (digits 2 0) (expect ":" l2) with
          | None => None
          | Some (ss, []) => Some (hh, mm, ss, 0)
          | Some (ss, l3) =>
              match expect "." l3 with
              | None => None
              | Some frac =>
                  match length frac, digits (length frac) 0 frac with
                  | 3%nat, Some (f, _) => Some (hh, mm, ss, 1000 * f)
                  | 6%nat, Some (f, _) => Some (hh, mm, ss, f)
                  | _, _ => None
                  end
              end
          end
      end
  end.

(** The text before the first sign, the sign and the text after it. *)
Fixpoint split_sign (l : list ascii) : list ascii * option (bool * list ascii) :=
  match l with
  | [] => ([], None)
  | c :: l' =>
      if Ascii.eqb c "+" then ([], Some (false, l'))
      else if Ascii.eqb c "-" then ([], Some (true, l'))
      else let '(before, tz) := split_sign l' in (c :: before, tz)
  end.

(** The offset in microseconds: HH:MM, HH:MM:SS or HH:MM:SS.ffffff,
    less than a day. *)
Definition utcoffset (negative : bool) (l : list ascii) : option Z :=
  if existsb (Nat.eqb (length l)) [5%nat; 8%nat; 15%nat] then
    match hh_mm_ss_ff l with
    | Some (hh, mm, ss, ff) =>
        let us := ((hh * 60 + mm) * 60 + ss) * 1000000 + ff in
        if us <? 86400000000 then Some (if negative then - us else us) else None
    | None => None
    end
  else None.

Definition parse (s : string) : option DateTime :=
  match digits 4 0 (PyStr.chars s) with
  | None => None
  | Some (year, l1) =>
  match option_bind _ _ (digits 2 0) (expect "-" l1) with
  | None => None
  | Some (month, l2) =>
  match option_bind _ _ (digits 2 0) (expect "-" l2) with
  | None => None
  | Some (day, l3) =>
      if negb ((1 <=? year) && (1 <=? month) && (month <=? 12) &&
               (1 <=? day) && (day <=? days_in_month year month))%bool
      then None
      else
        match l3 with
        | [] => Some (mkDateTime year month day 0 0 0 0 None)
        | _separator :: tstr =>
            let '(timestr, tz) := split_sign tstr in
            match hh_mm_ss_ff timestr with
            | None => None
            | Some (hh, mm, ss, ff) =>
                if negb ((hh <? 24) && (mm <? 60) && (ss <? 60))%bool then None
                else
                  match tz with
                  | None => Some (mkDateTime year month day hh mm ss ff None)
                  | Some (negative, tzstr) =>
                      match utcoffset negative tzstr with
                      | Some off => Some (mkDateTime year month day hh mm ss ff (Some off))
                      | None => None
                      end
                  end
            end
        end
  end end end.

End IsoFormat.

(** [json.loads] on the texts made of objects, arrays, strings with the
    one-letter escapes, integers and the three literals. Numbers with a
    fraction or an exponent, the escape of a code point and the names of
    the special floats lie outside this fragment; the decoder reports
    them as it does a malformed text. *)
Module Json.

(** What the decoder raises, before the message is laid out: a
    [JSONDecodeError], with what is wrong and where, or the [ValueError]
    of the conversion of an integer literal of too many digits. *)
Inductive Err : Type :=
| Decode (msg : string) (pos : nat)
| TooManyDigits (digits : nat).

(** [sys.get_int_max_str_digits()], as the interpreter starts. *)
Definition int_max_str_digits : nat := 4300.

Definition Parsed (A : Type) : Type := (Err + (A * list ascii * nat))%type.

Definition is_ws (c : ascii) : bool := has_char c (String " " (String "009" (String "010" (String "013" EmptyString)))).

Fixpoint skip_ws (l : list ascii) (pos : nat) : list ascii * nat :=
  match l with
  | c :: l' => if is_ws c then skip_ws l' (S pos) else (l, pos)
  | [] => ([], pos)
  end.

(** The character an escape letter stands for. *)
Definition unescape (c : ascii) : option ascii :=
  if Ascii.eqb c double_quote then Some double_quote
  else if Ascii.eqb c "\" then Some "\"%char
  else if Ascii.eqb c "/" then Some "/"%char
  else if Ascii.eqb c "b" then Some "008"%char
  else if Ascii.eqb c "f" then Some "012"%char
  else if Ascii.eqb c "n" then Some "010"%char
  else if Ascii.eqb c "r" then Some "013"%char
  else if Ascii.eqb c "t" then Some "009"%char
  else None.

(** The string whose opening quote stood at [begin]; [acc] holds what
    has been read, last character first. *)
Fixpoint scanstring (begin : nat) (acc : list ascii) (l : list ascii) (pos : nat)
    : Parsed string :=
  match l with
  | [] => inl (Decode "Unterminated string starting at" begin)
  | c :: l' =>
      if Ascii.eqb c double_quote then inr (PyStr.of_chars (rev acc), l', S pos)
      else if Ascii.eqb c "\" then
        match l' with
        | [] => inl (Decode "Unterminated string starting at" begin)
        | e :: l'' =>
            match unescape e with
            | Some a => scanstring begin (a :: acc) l'' (S (S pos))
            | None =>
                if Ascii.eqb e "u" then inl (Decode "Invalid \uXXXX escape" pos)
                else inl (Decode "Invalid \escape" pos)
            end
        end
      else if N.ltb (PyStr.code c) 32 then inl (Decode "Invalid control character at" pos)
      else scanstring begin (c :: acc) l' (S pos)
  end.

Fixpoint take_digits (l : list ascii) (pos : nat) (acc : Z) : Z * list ascii * nat :=
  match l with
  | c :: l' =>
      match IsoFormat.digit c with
      | Some d => take_digits l' (S pos) (10 * acc + d)
      | None => (acc, l, pos)
      end
  | [] => (acc, [], pos)
  end.

(** An integer: an optional minus, then a zero or a digit other than
    zero followed by digits; not followed by a fraction or an exponent. *)
Definition scan_int (l : list ascii) (pos : nat) : Parsed PyVal :=
  let '(negative, l1, pos1) :=
    match l with
    | c :: l' => if Ascii.eqb c "-" then (true, l', S pos) else (false, l, pos)
    | [] => (false, l, pos)
    end in
  match l1 with
  | c :: l2 =>
      match IsoFormat.digit c with
      | Some d =>
          let '(n, l3, pos3) :=
            if d =? 0 then (0, l2, S pos1) else take_digits l2 (S pos1) d in
          let float :=
            match l3 with
            | c1 :: c2 :: _ =>
                (Ascii.eqb c1 "." && PyStr.is_digit c2) ||
                ((Ascii.eqb c1 "e" || Ascii.eqb c1 "E") &&
                 (PyStr.is_digit c2 || Ascii.eqb c2 "+" || Ascii.eqb c2 "-"))
            | _ => false
            end in
          if float then inl (Decode "Expecting value" pos)
          else if Nat.ltb int_max_str_digits (pos3 - pos1)
          then inl (TooManyDigits (pos3 - pos1))
          else inr (PInt (if negative then - n else n), l3, pos3)
      | None => inl (Decode "Expecting value" pos)
      end
  | [] => inl (Decode "Expecting value" pos)
  end.

(** [l] begins with the characters of [word]. *)
Fixpoint starts_with (word : list ascii) (l : list ascii) : option (list ascii) :=
  match word, l with
  | [], _ => Some l
  | a :: word', c :: l' => if Ascii.eqb a c then starts_with word' l' else None
  | _ :: _, [] => None
  end.

(** [dict(pairs)]: a key given twice keeps its place and takes the later
    value. *)
Fixpoint dict_set (k : string) (v : PyVal) (d : PyDict) : PyDict :=
  match d with
  | [] => [(k, v)]
  | (k', v') :: d' =>
      if String.eqb k k' then (k', v) :: d' else (k', v') :: dict_set k v d'
  end.

Definition literal (word : string) (v : PyVal) (l : list ascii) (pos : nat)
    : Parsed PyVal :=
  match starts_with (PyStr.chars word) l with
  | Some rest => inr (v, rest, (pos + String.length word)%nat)
  | None => inl (Decode "Expecting value" pos)
  end.

Definition head_is (c : ascii) (l : list ascii) : bool :=
  match l with a :: _ => Ascii.eqb a c | [] => false end.

(** [scan_once], [JSONObject] from the first key on and [JSONArray] from
    the first value on. [fuel] bounds the nesting and the number of
    items; the length of the text is enough. *)
Fixpoint scan_once (fuel : nat) (l : list ascii) (pos : nat) {struct fuel}
    : Parsed PyVal :=
  match fuel with
  | O => inl (Decode "Expecting value" pos)
  | S fuel' =>
      match l with
      | [] => inl (Decode "Expecting value" pos)
      | c :: l' =>
          if Ascii.eqb c double_quote then
            match scanstring pos [] l' (S pos) with
            | inr (str, rest, pos') => inr (PStr str, rest, pos')
            | inl e => inl e
            end
          else if Ascii.eqb c "{" then
            let '(l1, pos1) := if head_is double_quote l' then (l', S pos)
                               else skip_ws l' (S pos) in
            match l1 with
            | a :: l2 =>
                if Ascii.eqb a "}" then inr (PDict [], l2, S pos1)
                else if Ascii.eqb a double_quote then object_items fuel' [] l2 (S pos1)
                else inl (Decode "Expecting property name enclosed in double quotes" pos1)
            | [] => inl (Decode "Expecting property name enclosed in double quotes" pos1)
            end
          else if Ascii.eqb c "[" then
            let '(l1, pos1) := skip_ws l' (S pos) in
            if head_is "]" l1 then inr (PList [], tl l1, S pos1)
            else array_items fuel' [] l1 pos1
          else if Ascii.eqb c "n" then literal "null" PNone l pos
          else if Ascii.eqb c "t" then literal "true" (PBool true) l pos
          else if Ascii.eqb c "f" then literal "false" (PBool false) l pos
          else scan_int l pos
      end
  end
with object_items (fuel : nat) (pairs : PyDict) (l : list ascii) (pos : nat)
    {struct fuel} : Parsed PyVal :=
  match fuel with
  | O => inl (Decode "Expecting value" pos)
  | S fuel' =>
      match scanstring (pred pos) [] l pos with
      | inl e => inl e
      | inr (key, l1, pos1) =>
          let '(l2, pos2) := if head_is ":" l1 then (l1, pos1) else skip_ws l1 pos1 in
          if negb (head_is ":" l2) then inl (Decode "Expecting ':' delimiter" pos2)
          else
            let '(l3, pos3) := skip_ws (tl l2) (S pos2) in
            match scan_once fuel' l3 pos3 with
            | inl e => inl e
            | inr (value, l4, pos4) =>
                let pairs := dict_set key value pairs in
                let '(l5, pos5) := skip_ws l4 pos4 in
                if head_is "}" l5 then inr (PDict pairs, tl l5, S pos5)
                else if negb (head_is "," l5) then inl (Decode "Expecting ',' delimiter" pos5)
                else
                  let '(l6, pos6) := skip_ws (tl l5) (S pos5) in
                  if head_is double_quote l6
                  then object_items fuel' pairs (tl l6) (S pos6)
                  else inl (Decode "Expecting property name enclosed in double quotes" pos6)
            end
      end
  end
with array_items (fuel : nat) (values : list PyVal) (l : list ascii) (pos : nat)
    {struct fuel} : Parsed PyVal :=
  match fuel with
  | O => inl (Decode "Expecting value" pos)
  | S fuel' =>
      match scan_once fuel' l pos with
      | inl e => inl e
      | inr (value, l1, pos1) =>
          let values := values ++ [value] in
          let '(l2, pos2) := skip_ws l1 pos1 in
          if head_is "]" l2 then inr (PList values, tl l2, S pos2)
          else if negb (head_is "," l2) then inl (Decode "Expecting ',' delimiter" pos2)
          else
            let '(l3, pos3) := skip_ws (tl l2) (S pos2) in
            array_items fuel' values l3 pos3
      end
  end.

(** The line and the column of a position: lines are counted from one,
    and so are columns. *)
Fixpoint line_col (l : list ascii) (pos : nat) (line col : nat) : nat * nat :=
  match pos, l with
  | S pos', c :: l' =>
      if Ascii.eqb c "010" then line_col l' pos' (S line) 1%nat
      else line_col l' pos' line (S col)
  | _, _ => (line, col)
  end.

(** The exception raised, with its [str(e)]. *)
Definition exn_of (doc : string) (e : Err) : Exn :=
  match e with
  | Decode msg pos =>
      let '(line, col) := line_col (PyStr.chars doc) pos 1%nat 1%nat in
      mkExn JSONDecodeError
        (msg +:+ ": line " +:+ PyStr.of_nat line +:+ " column " +:+ PyStr.of_nat col +:+
         " (char " +:+ PyStr.of_nat pos +:+ ")")
  | TooManyDigits digits =>
      mkExn ValueError
        ("Exceeds the limit (" +:+ PyStr.of_nat int_max_str_digits +:+
         " digits) for integer string conversion: value has " +:+
         PyStr.of_nat digits +:+
         " digits; use sys.set_int_max_str_digits() to increase the limit")
  end.

(** [json.loads(s)] *)
Definition loads (s : string) : Exn + PyVal :=
  let '(l, pos) := skip_ws (PyStr.chars s) 0%nat in
  match scan_once (S (String.length s)) l pos with
  | inl e => inl (exn_of s e)
  | inr (v, rest, pos') =>
      let '(rest', pos'') := skip_ws rest pos' in
      match rest' with
      | [] => inr v
      | _ :: _ => inl (exn_of s (Decode "Extra data" pos''))
      end
  end.

End Json.

(** The reference library. *)
Definition reference_runtime : PyRuntime :=
  {| json_decode := Json.loads; fromisoformat := IsoFormat.parse |}.

(** ** Runs of the ledger *)

(** The intents are executed one after the other, each call finding the
    world the one before has left. *)
Fixpoint execute_all `{PyRuntime} (env : Env) (intents : list CalendarEventIntent)
    (w : World) : list ExecutionResult * World :=
  match intents with
  | [] => ([], w)
  | intent :: rest =>
      let '(r, w1) := execute_calendar_intent env intent w in
      let '(rs, w2) := execute_all env rest w1 in
      (r :: rs, w2)
  end.

(** The worlds the process can be in, and more. It starts with an empty
    ledger. Calls may overlap: between the moment a call has marked its
    record EXECUTING and the moment it stores the outcome of the webhook,
    other calls may begin or finish, an operator may reset an identity,
    and the clock may be read. A call is let begin here whether or not
    its lock is free, so the relation holds every world the locks allow
    and some they do not: what holds of all of these holds of the
    process. *)
Inductive reachable `{PyRuntime} (env : Env) : World -> Prop :=
| reach_start : reachable env empty_world
| reach_begin intent w :
    reachable env w -> reachable env (snd (execute_begin env intent w))
| reach_finish intent w :
    reachable env w -> reachable env (snd (execute_finish env intent w))
| reach_reset intent_id w :
    reachable env w -> reachable env (snd (reset_execution intent_id w))
| reach_clock w :
    reachable env w -> reachable env (snd (read_clock env w)).

(** The statuses a stored record can have. *)
Definition stored_status (s : ExecutionStatus) : Prop :=
  s = EXECUTING \/ s = EXECUTED \/ s = FAILED.

(** The invariant of the ledger: a stored record is EXECUTING, EXECUTED or
    FAILED, and there is an EXECUTED record only where a destination is
    configured. *)
Definition ledger_inv (env : Env) (w : World) : Prop :=
  forall id r, executions w !! id = Some r ->
    stored_status (er_status r) /\
    (er_status r = EXECUTED -> PyStr.is_empty (ZAPIER_WEBHOOK_URL env) = false).

(** A result that reports a duplicate. *)
Definition is_duplicate_result (r : ExecutionResult) : Prop :=
  er_status r = DUPLICATE /\ er_success r = true /\ er_is_duplicate r = true.

(** ** Sample data *)

Module Sample.

(** The payload of the example scenario, with the address as the caller
    typed it. *)
Definition consult (attendee_email : string) : PyDict :=
  [("title", PStr "Consult");
   ("start_time", PStr "2024-12-20T14:00:00Z");
   ("end_time", PStr "2024-12-20T15:00:00Z");
   ("attendee_email", PStr attendee_email)].

(** The same appointment with the address in a list and no
    "attendee_email". *)
Definition consult_list : PyDict :=
  [("title", PStr "Consult");
   ("start_time", PStr "2024-12-20T14:00:00Z");
   ("end_time", PStr "2024-12-20T15:00:00Z");
   ("attendees", PList [PStr "john@example.com"])].

(** Both forms at once, with different addresses. *)
Definition consult_both : PyDict :=
  consult "fallback@example.com" ++
  [("attendees", PList [PStr " Mary@Example.com"; PStr "john@example.com"])].


(** A start that is no timestamp. *)
Definition consult_tomorrow : PyDict :=
  [("title", PStr "Consult");
   ("start_time", PStr "tomorrow at two");
   ("end_time", PStr "2024-12-20T15:00:00Z");
   ("attendee_email", PStr "john@example.com")].

(** Neither a title nor a start. *)
Definition consult_partial : PyDict :=
  [("end_time", PStr "2024-12-20T15:00:00Z");
   ("attendee_email", PStr "john@example.com")].

(** A start that is no timestamp, and a dict under "attendees". *)
Definition consult_unindexable : PyDict :=
  consult_tomorrow ++ [("attendees", PDict [("primary", PStr "john@example.com")])].

(** The intent the first payload validates to. *)
Definition intent : CalendarEventIntent :=
  {| action := CREATE_CALENDAR_EVENT;
     title := "Consult";
     description := Some EmptyString;
     start_time := "2024-12-20T14:00:00Z";
     end_time := "2024-12-20T15:00:00Z";
     timezone := "UTC";
     attendees := ["john@example.com"];
     send_email := true;
     intent_id := Some "ec55823e2cb65a1d";
     call_id := None;
     org_id := None |}.

Definition clock (n : nat) : string := "2024-12-01T09:00:" +:+ PyStr.of_nat (10 + n).

(** A webhook that accepts every request. *)
Definition accepting : Env :=
  {| ZAPIER_WEBHOOK_URL := "https://hooks.zapier.com/hooks/catch/1/abc";
     utcnow_isoformat := clock;
     http_post := fun _ _ => Responded 200 "{}";
     db_commit := fun _ _ => true |}.

(** A webhook that answers 500 to every request. *)
Definition failing : Env :=
  {| ZAPIER_WEBHOOK_URL := "https://hooks.zapier.com/hooks/catch/1/abc";
     utcnow_isoformat := clock;
     http_post := fun _ _ => Responded 500 "Internal Server Error";
     db_commit := fun _ _ => true |}.

(** A webhook that answers 500 to the first request it gets and accepts
    the later ones. *)
Definition flaky : Env :=
  {| ZAPIER_WEBHOOK_URL := "https://hooks.zapier.com/hooks/catch/1/abc";
     utcnow_isoformat := clock;
     http_post := fun earlier _ =>
                    match earlier with
                    | [] => Responded 500 "Internal Server Error"
                    | _ :: _ => Responded 200 "{}"
                    end;
     db_commit := fun _ _ => true |}.

(** A webhook that answers with a JSON array. *)
Definition answering_list : Env :=
  {| ZAPIER_WEBHOOK_URL := "https://hooks.zapier.com/hooks/catch/1/abc";
     utcnow_isoformat := clock;
     http_post := fun _ _ => Responded 200 "[1]";
     db_commit := fun _ _ => false |}.

(** An integer literal of 4301 digits, one more than the interpreter
    converts: ["1" * 4301]. *)
Definition long_integer : string := PyStr.of_chars (repeat "1"%char 4301).

End Sample.

(** The world after the sample intent has been executed once: the record
    is marked, then the webhook answers. *)
Definition executed_once (env : Env) : World :=
  snd (@execute_finish reference_runtime env Sample.intent
         (snd (execute_begin env Sample.intent empty_world))).

(** The valid result that carries an intent. *)
Definition valid_result (args : PyDict) (i : CalendarEventIntent) : ValidationResult :=
  mkValidationResult true (Some i) [] (Some args).

(** The sample intent under another identity. *)
Definition with_identity (id : string) (i : CalendarEventIntent) : CalendarEventIntent :=
  mkIntent (action i) (title i) (description i) (start_time i) (end_time i)
    (timezone i) (attendees i) (send_email i) (Some id) (call_id i) (org_id i).

(** ** More of the ledger *)

(** The record of a call that failed with the message [msg]. *)
Definition failed_result (id msg : string) : ExecutionResult :=
  mkExecutionResult false FAILED id (PDict []) (Some msg) false None.

(** What a stored record looks like, by its status: the response of the
    webhook is kept with an EXECUTED record only, the error text with a
    FAILED record only, and the time of completion with a success only. *)
Definition record_consistent (id : string) (r : ExecutionResult) : Prop :=
  er_intent_id r = id /\ er_is_duplicate r = false /\
  match er_status r with
  | EXECUTING =>
      er_success r = false /\ er_error r = None /\ er_executed_at r = None /\
      er_zapier_response r = PDict []
  | EXECUTED =>
      er_success r = true /\ er_error r = None /\ is_Some (er_executed_at r)
  | FAILED =>
      er_success r = false /\ is_Some (er_error r) /\ er_executed_at r = None /\
      er_zapier_response r = PDict []
  | PENDING | DUPLICATE => False
  end.

(** No record of the ledger stops a call: none is EXECUTED or EXECUTING. *)
Definition nothing_executed (w : World) : Prop :=
  forall id r, executions w !! id = Some r ->
               er_status r <> EXECUTED /\ er_status r <> EXECUTING.

(** An installation with no webhook URL, as [Settings] has it by default. *)
Definition unconfigured : Env :=
  {| ZAPIER_WEBHOOK_URL := EmptyString;
     utcnow_isoformat := Sample.clock;
     http_post := fun _ _ => Responded 200 "{}";
     db_commit := fun _ _ => true |}.

(** A webhook that gives every request the same answer. *)
Definition answering (status_code : Z) (text : string) : Env :=
  {| ZAPIER_WEBHOOK_URL := "https://hooks.zapier.com/hooks/catch/1/abc";
     utcnow_isoformat := Sample.clock;
     http_post := fun _ _ => Responded status_code text;
     db_commit := fun _ _ => true |}.

(** ** More of the validation *)

(** A lower-case hexadecimal digit. *)
Definition is_hex_char (c : ascii) : bool := has_char c "0123456789abcdef".

(** A truthy value that [v[0]] cannot index: a dict (its keys are
    strings), an integer, a bool. *)
Definition unindexable (v : PyVal) : bool :=
  truthy v && match v with PDict _ | PInt _ | PBool _ => true | _ => false end.

(** What [v[0]] raises on such a value. *)
Definition index0_error (v : PyVal) : Exn :=
  match v with
  | PDict _ => mkExn KeyError "0"
  | _ => mkExn TypeError ("'" +:+ type_name v +:+ "' object is not subscriptable")
  end.

(** ** More of the orchestrator *)

(** The request body that [to_zapier_payload] builds from an intent, but
    for its time stamp. *)
Definition payload_of (i : CalendarEventIntent) (p : ZapierPayload) : Prop :=
  zp_appointment_id p = intent_id i /\ zp_title p = title i /\
  zp_description p = opt_or (description i) EmptyString /\
  zp_start_time p = start_time i /\ zp_end_time p = end_time i /\
  zp_timezone p = timezone i /\
  zp_attendee_email p :: zp_additional_attendees p = attendees i /\
  zp_attendee_name p = EmptyString /\ zp_send_email p = send_email i.

(** The answer of STEP 6 for an intent. *)
Definition created_answer (i : CalendarEventIntent) (primary id : string)
    (calendar_link : PyVal) : ToolResult :=
  [("success", PBool true);
   ("message", PStr ("Appointment created and confirmation email sent to " +:+ primary));
   ("appointment_id", PStr id);
   ("calendar_link", calendar_link);
   ("email_sent", PBool true);
   ("attendee_email", PStr primary);
   ("title", PStr (title i));
   ("start_time", PStr (start_time i));
   ("end_time", PStr (end_time i))].

(** The answer of the [except] clause of [handle_tool_call]. *)
Definition caught_answer (msg : string) : ToolResult :=
  [("success", PBool false); ("error", PStr msg); ("should_retry", PBool true)].

(** ** execution_service.py: what is told of a result *)

(** [ExecutionResult.to_tool_result] *)
Definition to_tool_result (self : ExecutionResult) : Result ToolResult :=
  if er_success self then
    let* calendar_link := py_get (er_zapier_response self) "calendar_link" PNone in
    inr [("success", PBool true);
         ("message", PStr "Appointment created and confirmation email sent successfully.");
         ("appointment_id", PStr (er_intent_id self));
         ("calendar_link", calendar_link);
         ("email_sent", PBool true)]
  else if er_is_duplicate self then
    inr [("success", PBool true);
         ("message", PStr "This appointment was already created.");
         ("appointment_id", PStr (er_intent_id self));
         ("is_duplicate", PBool true)]
  else
    inr [("success", PBool false);
         ("error", PStr (opt_or (er_error self) "Failed to create appointment"));
         ("retry_allowed", PBool true)].

(** ** api/execute.py *)

(** [ExecuteIntentRequest], as FastAPI hands it to the endpoint:
    [tool_args] is a dict. *)
Record ExecuteIntentRequest : Type := mkRequest {
  rq_tool_name : string;
  rq_tool_args : PyDict;
  rq_call_id : option string;
  rq_org_id : option string;
  rq_item_id : option string
}.

(** [ExecuteIntentResponse] *)
Record ExecuteIntentResponse : Type := mkResponse {
  rs_success : bool;
  rs_message : option string;
  rs_error : option string;
  rs_should_retry : bool;
  rs_is_duplicate : bool;
  rs_appointment_id : option string;
  rs_calendar_link : option string;
  rs_email_sent : bool;
  rs_clarification : option string;
  rs_missing_fields : option (list PyVal);
  rs_result_data : option PyDict
}.

(** [HTTPException(status_code, detail)] *)
Record HTTPException : Type := mkHTTPException {
  http_status_code : Z;
  http_detail : string
}.

(** A field of type [Optional[list]]. *)
Definition check_opt_list (loc : list string) (v : PyVal) : Checked (option (list PyVal)) :=
  match v with
  | PNone => inr None
  | PList l => inr (Some l)
  | _ => field_error loc "Input should be a valid list"
  end.

(** The constructor [ExecuteIntentResponse], applied to the fields the
    endpoint reads off the dict of the orchestrator; [result_data] is
    that dict. *)
Definition new_ExecuteIntentResponse (result : ToolResult)
    : Checked ExecuteIntentResponse :=
  let c_success := check_bool ["success"] (dict_get result "success" (PBool false)) in
  let c_message := check_opt_str ["message"] (dict_get result "message" PNone) in
  let c_error := check_opt_str ["error"] (dict_get result "error" PNone) in
  let c_should_retry :=
    check_bool ["should_retry"] (dict_get result "should_retry" (PBool false)) in
  let c_is_duplicate :=
    check_bool ["is_duplicate"] (dict_get result "is_duplicate" (PBool false)) in
  let c_appointment_id :=
    check_opt_str ["appointment_id"] (dict_get result "appointment_id" PNone) in
  let c_calendar_link :=
    check_opt_str ["calendar_link"] (dict_get result "calendar_link" PNone) in
  let c_email_sent :=
    check_bool ["email_sent"] (dict_get result "email_sent" (PBool false)) in
  let c_clarification :=
    check_opt_str ["clarification"] (dict_get result "clarification" PNone) in
  let c_missing_fields :=
    check_opt_list ["missing_fields"] (dict_get result "missing_fields" PNone) in
  match c_success, c_message, c_error, c_should_retry, c_is_duplicate,
        c_appointment_id, c_calendar_link, c_email_sent, c_clarification,
        c_missing_fields with
  | inr su, inr me, inr er, inr sr, inr du, inr ap, inr cl, inr em, inr cr, inr mi =>
      inr (mkResponse su me er sr du ap cl em cr mi (Some result))
  | _, _, _, _, _, _, _, _, _, _ =>
      inl (errors_of c_success ++ errors_of c_message ++ errors_of c_error ++
           errors_of c_should_retry ++ errors_of c_is_duplicate ++
           errors_of c_appointment_id ++ errors_of c_calendar_link ++
           errors_of c_email_sent ++ errors_of c_clarification ++
           errors_of c_missing_fields)
  end.

(** The endpoint [execute_intent]. Whatever is raised inside its [try]
    becomes an [HTTPException] with status 500; [validation_error_str] is
    [str(e)] for the [ValidationError] of the response model, the
    rendering that pydantic gives of its errors. *)
Definition execute_intent `{PyRuntime} (env : Env)
    (validation_error_str : list FieldError -> string)
    (request : ExecuteIntentRequest) (w : World)
    : (HTTPException + ExecuteIntentResponse) * World :=
  let '(result, w') :=
    handle_tool_call env (rq_tool_name request) (PDict (rq_tool_args request))
      (rq_call_id request) (rq_org_id request) (rq_item_id request) w in
  match result with
  | inl e =>
      (inl (mkHTTPException 500 ("Failed to execute intent: " +:+ exn_str e)), w')
  | inr result =>
      match new_ExecuteIntentResponse result with
      | inr response => (inr response, w')
      | inl errs =>
          (inl (mkHTTPException 500
                  ("Failed to execute intent: " +:+ validation_error_str errs)), w')
      end
  end.

(** The endpoint [reset_execution]. *)
Definition api_reset_execution (intent_id : string) (w : World) : ToolResult * World :=
  let '(success, w') := reset_execution intent_id w in
  if success then
    ([("success", PBool true);
      ("message", PStr ("Execution reset for " +:+ intent_id))], w')
  else
    ([("success", PBool false);
      ("message", PStr ("No execution found for " +:+ intent_id))], w').

(** A rendering of the errors of a response, for the examples: the
    messages, one per line. *)
Definition sample_error_str (errs : list FieldError) : string :=
  PyStr.join (String "010" EmptyString) (map format_error errs).

(** A webhook that answers with a numeric calendar link. *)
Definition answering_number : Env :=
  answering 200
    ("{" +:+ String double_quote ("calendar_link" +:+ String double_quote ": 5}")).

(** ** The texts a pattern matches *)

(** The language of a pattern: what [re.fullmatch] accepts. *)
Inductive re_matches : Re.re -> list ascii -> Prop :=
| m_eps : re_matches Re.Eps []
| m_class p c : p c = true -> re_matches (Re.Class p) [c]
| m_cat r1 r2 s1 s2 :
    re_matches r1 s1 -> re_matches r2 s2 -> re_matches (Re.Cat r1 r2) (s1 ++ s2)
| m_alt_l r1 r2 s : re_matches r1 s -> re_matches (Re.Alt r1 r2) s
| m_alt_r r1 r2 s : re_matches r2 s -> re_matches (Re.Alt r1 r2) s
| m_star_nil r : re_matches (Re.Star r) []
| m_star_app r s1 s2 :
    re_matches r s1 -> re_matches (Re.Star r) s2 -> re_matches (Re.Star r) (s1 ++ s2).

(** An address as the pattern of [validate_attendees] reads it: a local
    part, an at sign, a domain, a dot and a last label of two letters or
    more. *)
Definition email_shape (l : list ascii) : Prop :=
  exists local domain tld,
    l = local ++ "@"%char :: domain ++ "."%char :: tld /\
    local <> [] /\ forallb local_class local = true /\
    domain <> [] /\ forallb domain_class domain = true /\
    (2 <= length tld)%nat /\ forallb PyStr.is_alpha tld = true.

(** ** validation_service.py *)

(** [s.startswith(prefix)] *)
Fixpoint startswith (prefix s : string) : bool :=
  match prefix, s with
  | EmptyString, _ => true
  | String a prefix', String b s' => Ascii.eqb a b && startswith prefix' s'
  | String _ _, EmptyString => false
  end.

(** [sub in s] *)
Fixpoint contains (sub s : string) : bool :=
  startswith sub s ||
  match s with
  | EmptyString => false
  | String _ s' => contains sub s'
  end.

(** [ValidationService.validate_email] *)
Definition validate_email (email : string) : bool * option string :=
  if PyStr.is_empty email then (false, Some "Email address is required")
  else
    let email := PyStr.lower (PyStr.strip email) in
    if Nat.ltb 254 (String.length email)
    then (false, Some "Email address is too long")
    else if negb (Re.match_anchored email_regex email)
    then (false, Some "Invalid email address format. Please provide a valid email like example@email.com")
    else if startswith "." email || startswith "@" email
    then (false, Some "Email address cannot start with . or @")
    else if contains ".." email
    then (false, Some "Email address cannot contain consecutive dots")
    else (true, None).

(** ** state_service.py: the in-memory [CallState]

    [_states] maps a call to its state, a dict. The methods take the
    reading of the clock, [datetime.utcnow().isoformat()], as [now]. The
    dicts are held by value: a caller that keeps the dict it has passed to
    [set_state], or got from [get_state], and changes it later is outside
    the model. *)

(** [ConversationPhase] *)
Inductive ConversationPhase : Type :=
| GREETING
| INTAKE
| CLARIFICATION
| ESCALATION
| COMPLETED.

(** [phase.value] *)
Definition phase_value (phase : ConversationPhase) : string :=
  match phase with
  | GREETING => "greeting"
  | INTAKE => "intake"
  | CLARIFICATION => "clarification"
  | ESCALATION => "escalation"
  | COMPLETED => "completed"
  end.

Module CallState.

(** [self._states] *)
Abbreviation States := (gmap string PyDict).

(** [d[k] = v] *)
Definition setitem (k : string) (v : PyVal) (d : PyDict) : PyDict := Json.dict_set k v d.

(** The dict of a call once [if call_id not in self._states:
    self._states[call_id] = {}] has run. *)
Definition entry (call_id : string) (st : States) : PyDict :=
  match st !! call_id with Some d => d | None => [] end.


(** [CallState.get_state] *)
Definition get_state (call_id : string) (st : States) : option PyDict :=
  st !! call_id.

(** [CallState.update_phase] *)
Definition update_phase (now : string) (call_id : string) (phase : ConversationPhase)
    (st : States) : States :=
  <[call_id := setitem "updated_at" (PStr now)
                 (setitem "phase" (PStr (phase_value phase)) (entry call_id st))]> st.

(** [state.get(k) if state else None] *)
Definition get_key (k : string) (state : option PyDict) : PyVal :=
  match state with
  | Some ((_ :: _) as d) => dict_get d k PNone
  | _ => PNone
  end.

(** [CallState.get_phase] *)
Definition get_phase (call_id : string) (st : States) : PyVal :=
  get_key "phase" (get_state call_id st).



(** [CallState.set_appointment_state] *)
Definition set_appointment_state (now : string) (call_id : string) (state : PyDict)
    (st : States) : States :=
  <[call_id := setitem "updated_at" (PStr now)
                 (setitem "appointment" (PDict state) (entry call_id st))]> st.



(** [CallState.mark_escalated] *)
Definition mark_escalated (now : string) (call_id reason urgency : string) (st : States)
    : States :=
  <[call_id := setitem "updated_at" (PStr now)
                 (setitem "phase" (PStr (phase_value ESCALATION))
                    (setitem "escalation_urgency" (PStr urgency)
                       (setitem "escalation_reason" (PStr reason)
                          (setitem "escalated" (PBool true) (entry call_id st)))))]> st.


End CallState.

(** Another appointment, sent under the identity of the sample one. *)
Definition follow_up : PyDict :=
  [("title", PStr "Follow-up");
   ("start_time", PStr "2025-01-10T09:30:00Z");
   ("end_time", PStr "2025-01-10T10:00:00Z");
   ("attendee_email", PStr "mary@example.com");
   ("intent_id", PStr "ec55823e2cb65a1d")].

Definition follow_up_intent : CalendarEventIntent :=
  {| action := CREATE_CALENDAR_EVENT;
     title := "Follow-up";
     description := Some EmptyString;
     start_time := "2025-01-10T09:30:00Z";
     end_time := "2025-01-10T10:00:00Z";
     timezone := "UTC";
     attendees := ["mary@example.com"];
     send_email := true;
     intent_id := Some "ec55823e2cb65a1d";
     call_id := None;
     org_id := None |}.

(** A text without a colon. *)
Definition no_colon (s : string) : bool :=
  forallb (fun c => negb (Ascii.eqb c ":")) (PyStr.chars s).

(** Errors whose locations, joined by dots, have no colon. *)
Definition located (errs : list FieldError) : Prop :=
  Forall (fun e => no_colon (PyStr.join "." (err_loc e)) = true) errs.

(** ** The locks

    [async with lock] lets one call at a time run the body for a lock. A
    call that finds its lock taken is suspended until its turn comes; the
    functions of a [World] above are what a call does while it is not
    suspended. *)

(** The process with its locks. An [asyncio.Lock] is known by its rank
    among the locks made: [lock_objects] is [_locks] with its values,
    [holders] gives the call that holds each locked lock, and [waiting]
    the calls suspended in [async with lock], oldest first, each with the
    lock it waits for. *)
Record Process : Type := mkProcess {
  world : World;
  lock_objects : gmap string nat;
  locks_made : nat;
  holders : gmap nat CalendarEventIntent;
  waiting : list (nat * CalendarEventIntent)
}.

Definition empty_process : Process := mkProcess empty_world ∅ 0 ∅ [].

(** The keys of [_locks] are those the world has. *)
Definition locks_agree (p : Process) : Prop :=
  locks (world p) = dom (lock_objects p).

(** [ExecutionService._get_lock], with the lock it returns. *)
Definition get_lock (intent_id : string) (p : Process) : nat * Process :=
  match lock_objects p !! intent_id with
  | Some lock => (lock, p)
  | None =>
      let lock := locks_made p in
      (lock, mkProcess (_get_lock intent_id (world p))
                       (<[intent_id := lock]> (lock_objects p)) (S lock)
                       (holders p) (waiting p))
  end.

Definition has_waiter (lock : nat) (l : list (nat * CalendarEventIntent)) : bool :=
  existsb (fun x => Nat.eqb (fst x) lock) l.

(** [asyncio.Lock.acquire] suspends the caller when the lock is locked,
    and also when it is not but calls are waiting for it: they go
    first. *)
Definition lock_busy (p : Process) (lock : nat) : bool :=
  bool_decide (is_Some (holders p !! lock)) || has_waiter lock (waiting p).

(** The call has the lock and runs STEP 1 and STEP 2 at once. A
    duplicate returns, which releases the lock; any other call is left
    holding the lock while it awaits the webhook. *)
Definition take (env : Env) (intent : CalendarEventIntent) (lock : nat)
    (p : Process) : Begun * Process :=
  let '(b, w) := under_lock env intent (world p) in
  (b, mkProcess w (lock_objects p) (locks_made p)
        (match b with
         | Started => <[lock := intent]> (holders p)
         | IsDuplicate _ => holders p
         end)
        (waiting p)).

(** How a call of [execute_calendar_intent] begins. *)
Inductive Arrival : Type :=
| Waits (lock : nat)
| Entered (lock : nat) (b : Begun).

(** [execute_calendar_intent] from its first line to its first pause:
    [_get_lock], then [async with lock]. *)
Definition arrive (env : Env) (intent : CalendarEventIntent) (p : Process)
    : Arrival * Process :=
  let '(lock, p1) := get_lock (ledger_key intent) p in
  if lock_busy p1 lock
  then (Waits lock,
        mkProcess (world p1) (lock_objects p1) (locks_made p1) (holders p1)
                  (waiting p1 ++ [(lock, intent)]))
  else
    let '(b, p2) := take env intent lock p1 in
    (Entered lock b, p2).

(** The oldest call that waits for [lock], and the calls left waiting. *)
Fixpoint next_waiter (lock : nat) (l : list (nat * CalendarEventIntent))
    : option (CalendarEventIntent * list (nat * CalendarEventIntent)) :=
  match l with
  | [] => None
  | (lock', intent) :: rest =>
      if Nat.eqb lock' lock then Some (intent, rest)
      else
        match next_waiter lock rest with
        | Some (found, rest') => Some (found, (lock', intent) :: rest')
        | None => None
        end
  end.

(** A lock that has been released goes to the oldest call that waits for
    it, which runs as a call that arrives at a free lock does. *)
Definition resume (env : Env) (lock : nat) (p : Process)
    : option (CalendarEventIntent * Begun * Process) :=
  if bool_decide (is_Some (holders p !! lock)) then None
  else
    match next_waiter lock (waiting p) with
    | None => None
    | Some (intent, rest) =>
        let '(b, p1) :=
          take env intent lock
            (mkProcess (world p) (lock_objects p) (locks_made p) (holders p) rest) in
        Some (intent, b, p1)
    end.

(** STEP 3 to STEP 5 of the call that holds [lock], from the answer of
    the webhook on, and the release of the lock as the call returns. *)
Definition complete `{PyRuntime} (env : Env) (lock : nat) (p : Process)
    : option (ExecutionResult * Process) :=
  match holders p !! lock with
  | None => None
  | Some intent =>
      let '(r, w) := execute_finish env intent (world p) in
      Some (r, mkProcess w (lock_objects p) (locks_made p)
                 (delete lock (holders p)) (waiting p))
  end.

(** The call that holds [lock] is cancelled while it awaits the webhook.
    [asyncio.CancelledError] is no [Exception], so STEP 5 is passed over:
    the record stays as STEP 2 has marked it, and [async with] releases
    the lock. The payload had been built, and [sent] tells whether the
    request had left. A call that does not get as far as the request
    (no URL, no attendee) has no pause to be cancelled at. *)
Definition cancel (env : Env) (lock : nat) (sent : bool) (p : Process)
    : option Process :=
  match holders p !! lock with
  | None => None
  | Some intent =>
      if PyStr.is_empty (ZAPIER_WEBHOOK_URL env) then None
      else
        match to_zapier_payload env intent (world p) with
        | (inl _, _) => None
        | (inr payload, w) =>
            Some (mkProcess (if sent then log_call payload w else w)
                            (lock_objects p) (locks_made p)
                            (delete lock (holders p)) (waiting p))
        end
  end.

(** [ExecutionService.reset_execution], with the lock it forgets. *)
Definition reset (intent_id : string) (p : Process) : bool * Process :=
  let '(found, w) := reset_execution intent_id (world p) in
  (found,
   mkProcess w (if found then delete intent_id (lock_objects p) else lock_objects p)
             (locks_made p) (holders p) (waiting p)).

(** The lock that [_get_lock] gives for an identity: the one [_locks]
    has, or the next one made. *)
Definition lock_of (p : Process) (intent_id : string) : nat :=
  match lock_objects p !! intent_id with
  | Some lock => lock
  | None => locks_made p
  end.

(** A call for the identity would not wait. *)
Definition lock_free (p : Process) (intent_id : string) : bool :=
  negb (lock_busy p (lock_of p intent_id)).

(** Calls arrive one after the other. *)
Fixpoint arrive_each (env : Env) (intents : list CalendarEventIntent) (p : Process)
    : list Arrival * Process :=
  match intents with
  | [] => ([], p)
  | intent :: rest =>
      let '(a, p1) := arrive env intent p in
      let '(arrivals, p2) := arrive_each env rest p1 in
      (a :: arrivals, p2)
  end.

(** The next [n] calls that wait for [lock] run one after the other,
    each to its end: the results they return. *)
Fixpoint serve `{PyRuntime} (env : Env) (n : nat) (lock : nat) (p : Process)
    : list ExecutionResult * Process :=
  match n with
  | O => ([], p)
  | S n' =>
      match resume env lock p with
      | None => ([], p)
      | Some (_, IsDuplicate r, p1) =>
          let '(rs, p2) := serve env n' lock p1 in
          (r :: rs, p2)
      | Some (_, Started, p1) =>
          match complete env lock p1 with
          | None => ([], p1)
          | Some (r, p2) =>
              let '(rs, p3) := serve env n' lock p2 in
              (r :: rs, p3)
          end
      end
  end.

(** The process once the sample intent has been submitted and awaits the
    webhook. *)
Definition in_flight (env : Env) : Process :=
  snd (arrive env Sample.intent empty_process).

(** The same process once that call has been cancelled, its request not
    yet sent. *)
Definition abandoned (env : Env) : option Process :=
  cancel env 0%nat false (in_flight env).

(** * Properties *)

(** ** The ledger and the executor *)

Section Ledger.

Context `{rt : PyRuntime}.
Variable env : Env.

Lemma status_in_spec (s : ExecutionStatus) (l : list ExecutionStatus) :
  status_in s l = true <-> In s l.
Proof.
  unfold status_in. rewrite existsb_exists. split.
  - intros (t & Hin & Heq). destruct s, t; simpl in Heq; congruence.
  - intros Hin. exists s. split; [assumption | destruct s; reflexivity].
Qed.

(** Building a result touches nothing but the clock, and the result has
    the status and the flags it was given. *)
Lemma new_ExecutionResult_spec success status id response error dup w :
  let r := fst (new_ExecutionResult env success status id response error dup w) in
  let w' := snd (new_ExecutionResult env success status id response error dup w) in
  er_status r = status /\ er_success r = success /\ er_is_duplicate r = dup /\
  er_intent_id r = id /\ er_error r = error /\
  executions w' = executions w /\ calls w' = calls w /\ locks w' = locks w.
Proof.
  unfold new_ExecutionResult. destruct success; simpl; repeat split; reflexivity.
Qed.

(** A webhook call that returns has sent one request, and its result is
    a success with status EXECUTED. *)
Lemma call_zapier_returns intent w r w' :
  _call_zapier_webhook env intent w = (inr r, w') ->
  er_status r = EXECUTED /\ er_success r = true /\ er_is_duplicate r = false /\
  PyStr.is_empty (ZAPIER_WEBHOOK_URL env) = false /\ attendees intent <> [] /\
  executions w' = executions w /\ locks w' = locks w /\
  exists payload, calls w' = calls w ++ [payload].
Proof.
  unfold _call_zapier_webhook, to_zapier_payload.
  destruct (PyStr.is_empty (ZAPIER_WEBHOOK_URL env)); [discriminate |].
  destruct (attendees intent) as [| primary others]; [discriminate |].
  simpl. set (payload := mkZapierPayload _ _ _ _ _ _ _ _ _ _ _).
  destruct (http_post env (calls w) payload) as [code text | e]; [| discriminate].
  destruct (is_failure_status code); [discriminate |].
  destruct (try_except (json_loads text) JSONDecodeError _) as [e | v]; [discriminate |].
  simpl. intros H. injection H as <- <-. simpl.
  repeat split; try reflexivity; try discriminate. eauto.
Qed.

(** A webhook call that raises leaves the ledger alone. *)
Lemma call_zapier_raises intent w e w' :
  _call_zapier_webhook env intent w = (inl e, w') ->
  executions w' = executions w /\ locks w' = locks w.
Proof.
  unfold _call_zapier_webhook, to_zapier_payload.
  destruct (PyStr.is_empty (ZAPIER_WEBHOOK_URL env)).
  { intros H. injection H as <- <-. split; reflexivity. }
  destruct (attendees intent) as [| primary others].
  { intros H. injection H as <- <-. split; reflexivity. }
  simpl. set (payload := mkZapierPayload _ _ _ _ _ _ _ _ _ _ _).
  destruct (http_post env (calls w) payload) as [code text | e'].
  - destruct (is_failure_status code).
    + intros H. injection H as <- <-. split; reflexivity.
    + destruct (try_except (json_loads text) JSONDecodeError _) as [e' | v].
      * intros H. injection H as <- <-. split; reflexivity.
      * discriminate.
  - intros H. injection H as <- <-. split; reflexivity.
Qed.

(** With a destination configured and an attendee to write to, the
    webhook receives a request, whatever it answers. *)
Lemma call_zapier_sends intent w :
  PyStr.is_empty (ZAPIER_WEBHOOK_URL env) = false ->
  attendees intent <> [] ->
  exists payload,
    calls (snd (_call_zapier_webhook env intent w)) = calls w ++ [payload].
Proof.
  intros Hurl Hatt. unfold _call_zapier_webhook, to_zapier_payload. rewrite Hurl.
  destruct (attendees intent) as [| primary others]; [congruence |].
  simpl. set (payload := mkZapierPayload _ _ _ _ _ _ _ _ _ _ _).
  exists payload.
  destruct (http_post env (calls w) payload) as [code text | e]; [| reflexivity].
  destruct (is_failure_status code); [reflexivity |].
  destruct (try_except (json_loads text) JSONDecodeError _) as [e | v]; reflexivity.
Qed.

(** How the body under the lock begins, by the record it finds. *)
Lemma execute_begin_duplicate intent w existing :
  executions w !! ledger_key intent = Some existing ->
  er_status existing = EXECUTED \/ er_status existing = EXECUTING ->
  exists r w',
    execute_begin env intent w = (IsDuplicate r, w') /\ is_duplicate_result r /\
    executions w' = executions w /\ calls w' = calls w.
Proof.
  intros Hlook Hst.
  assert (status_in (er_status existing) [EXECUTED; EXECUTING] = true) as Hin.
  { apply status_in_spec. simpl. destruct Hst; auto. }
  unfold execute_begin, under_lock, _get_lock, set_locks. cbn [executions]. rewrite Hlook, Hin.
  simpl. do 2 eexists. split; [reflexivity |].
  unfold is_duplicate_result. simpl. auto.
Qed.

Lemma execute_begin_started intent w :
  match executions w !! ledger_key intent with
  | Some existing => er_status existing <> EXECUTED /\ er_status existing <> EXECUTING
  | None => True
  end ->
  exists r w',
    execute_begin env intent w = (Started, w') /\
    er_status r = EXECUTING /\
    executions w' = <[ledger_key intent := r]> (executions w) /\
    calls w' = calls w.
Proof.
  intros Hlook.
  assert (match executions w !! ledger_key intent with
          | Some existing => status_in (er_status existing) [EXECUTED; EXECUTING]
          | None => false
          end = false) as Hin.
  { destruct (executions w !! ledger_key intent) as [existing |]; [| reflexivity].
    destruct Hlook as [H1 H2].
    destruct (er_status existing); simpl; congruence. }
  unfold execute_begin, under_lock, _get_lock, set_locks. cbn [executions]. rewrite Hin.
  simpl.
  exists (mkExecutionResult false EXECUTING (ledger_key intent) (PDict []) None false None).
  eexists. split; [reflexivity |]. simpl. auto.
Qed.

(** What the body under the lock leaves when it ends: the record of the
    identity is the result returned, EXECUTED after a request the
    webhook accepted, FAILED otherwise. *)
Lemma execute_finish_spec intent w :
  let r := fst (execute_finish env intent w) in
  let w' := snd (execute_finish env intent w) in
  executions w' = <[ledger_key intent := r]> (executions w) /\
  er_is_duplicate r = false /\
  ((er_status r = EXECUTED /\ er_success r = true /\
    PyStr.is_empty (ZAPIER_WEBHOOK_URL env) = false /\ attendees intent <> [] /\
    exists payload, calls w' = calls w ++ [payload])
   \/ (er_status r = FAILED /\ er_success r = false)).
Proof.
  unfold execute_finish.
  destruct (_call_zapier_webhook env intent w) as [[e | r] w1] eqn:Hcall.
  - apply call_zapier_raises in Hcall as [Hex _]. simpl.
    rewrite Hex. auto.
  - apply call_zapier_returns in Hcall
      as (Hst & Hsucc & Hdup & Hurl & Hatt & Hex & _ & Hcalls).
    simpl. rewrite Hex. split; [reflexivity |]. split; [assumption |]. left. auto.
Qed.

Lemma execute_finish_sends intent w :
  PyStr.is_empty (ZAPIER_WEBHOOK_URL env) = false ->
  attendees intent <> [] ->
  exists payload, calls (snd (execute_finish env intent w)) = calls w ++ [payload].
Proof.
  intros Hurl Hatt. destruct (call_zapier_sends intent w Hurl Hatt) as [payload Hp].
  exists payload. unfold execute_finish.
  destruct (_call_zapier_webhook env intent w) as [[e | r] w1]; simpl in *; assumption.
Qed.

(** A call that finds an EXECUTED or EXECUTING record. *)
Lemma execute_duplicate intent w existing :
  executions w !! ledger_key intent = Some existing ->
  er_status existing = EXECUTED \/ er_status existing = EXECUTING ->
  is_duplicate_result (fst (execute_calendar_intent env intent w)) /\
  executions (snd (execute_calendar_intent env intent w)) = executions w /\
  calls (snd (execute_calendar_intent env intent w)) = calls w.
Proof.
  intros Hlook Hst.
  destruct (execute_begin_duplicate intent w existing Hlook Hst)
    as (r & w' & Hbegin & Hdup & Hex & Hcalls).
  unfold execute_calendar_intent. rewrite Hbegin. simpl. auto.
Qed.

(** A call that finds no record, or a record that is neither EXECUTED
    nor EXECUTING. *)
Lemma execute_fresh intent w :
  match executions w !! ledger_key intent with
  | Some existing => er_status existing <> EXECUTED /\ er_status existing <> EXECUTING
  | None => True
  end ->
  let r := fst (execute_calendar_intent env intent w) in
  let w' := snd (execute_calendar_intent env intent w) in
  executions w' !! ledger_key intent = Some r /\
  er_is_duplicate r = false /\
  ((er_status r = EXECUTED /\ er_success r = true /\
    exists payload, calls w' = calls w ++ [payload])
   \/ (er_status r = FAILED /\ er_success r = false)) /\
  (PyStr.is_empty (ZAPIER_WEBHOOK_URL env) = false -> attendees intent <> [] ->
   exists payload, calls w' = calls w ++ [payload]).
Proof.
  intros Hlook.
  destruct (execute_begin_started intent w Hlook) as (mark & w1 & Hbegin & _ & Hex & Hcalls).
  unfold execute_calendar_intent. rewrite Hbegin.
  destruct (execute_finish_spec intent w1) as (Hex' & Hdup & Hcases).
  split; [rewrite Hex'; apply lookup_insert_eq |].
  split; [assumption |]. split.
  - destruct Hcases as [(Hst & Hsucc & _ & _ & payload & Hp) | Hfail]; [left | right; assumption].
    repeat split; try assumption. exists payload. rewrite Hp, Hcalls. reflexivity.
  - intros Hurl Hatt. destruct (execute_finish_sends intent w1 Hurl Hatt) as [payload Hp].
    exists payload. rewrite Hp, Hcalls. reflexivity.
Qed.

(** Any number of calls for an identity that is EXECUTED or EXECUTING
    are duplicates, send nothing and write nothing. *)
Lemma execute_all_duplicates id intents : forall w existing,
  executions w !! id = Some existing ->
  er_status existing = EXECUTED \/ er_status existing = EXECUTING ->
  Forall (fun intent => ledger_key intent = id) intents ->
  Forall is_duplicate_result (fst (execute_all env intents w)) /\
  length (fst (execute_all env intents w)) = length intents /\
  calls (snd (execute_all env intents w)) = calls w /\
  executions (snd (execute_all env intents w)) = executions w.
Proof.
  induction intents as [| intent rest IH]; intros w existing Hlook Hst Hall.
  - simpl. auto.
  - inversion Hall as [| ? ? Hkey Hrest]; subst.
    destruct (execute_duplicate intent w existing Hlook Hst) as (Hdup & Hex & Hcalls).
    simpl. destruct (execute_calendar_intent env intent w) as [r w1]. simpl in *.
    assert (executions w1 !! ledger_key intent = Some existing) as Hlook1
      by (rewrite Hex; assumption).
    specialize (IH w1 existing Hlook1 Hst Hrest).
    destruct (execute_all env rest w1) as [rs w2]. simpl in *.
    destruct IH as (IH1 & IH2 & IH3 & IH4).
    repeat split; [constructor; assumption | congruence | congruence | congruence].
Qed.

(** When the first of a run of submissions is executed, the run sends
    one request in all and every later submission is a duplicate. *)
Lemma execute_all_once intent intents w :
  Forall (fun i => ledger_key i = ledger_key intent) intents ->
  er_status (fst (execute_calendar_intent env intent w)) = EXECUTED ->
  (exists payload,
      calls (snd (execute_all env (intent :: intents) w)) = calls w ++ [payload]) /\
  Forall is_duplicate_result (tl (fst (execute_all env (intent :: intents) w))) /\
  length (tl (fst (execute_all env (intent :: intents) w))) = length intents.
Proof.
  intros Hall Hfirst.
  assert (exists payload,
             calls (snd (execute_calendar_intent env intent w)) = calls w ++ [payload] /\
             executions (snd (execute_calendar_intent env intent w)) !! ledger_key intent
             = Some (fst (execute_calendar_intent env intent w))) as (payload & Hp & Hlook).
  { destruct (executions w !! ledger_key intent) as [existing |] eqn:Hex.
    - destruct (status_in (er_status existing) [EXECUTED; EXECUTING]) eqn:Hin.
      + apply status_in_spec in Hin. simpl in Hin.
        assert (er_status existing = EXECUTED \/ er_status existing = EXECUTING) as Hst
          by (destruct Hin as [H | [H | []]]; auto).
        destruct (execute_duplicate intent w existing Hex Hst) as ((Hdup & _) & _).
        congruence.
      + assert (er_status existing <> EXECUTED /\ er_status existing <> EXECUTING) as Hne.
        { split; intros Heq; rewrite Heq in Hin; discriminate. }
        pose proof (execute_fresh intent w) as Hfresh. rewrite Hex in Hfresh.
        destruct (Hfresh Hne) as (Hlook & _ & [(_ & _ & payload & Hp) | (Hf & _)] & _);
          [eauto | congruence].
    - pose proof (execute_fresh intent w) as Hfresh. rewrite Hex in Hfresh.
      destruct (Hfresh I) as (Hlook & _ & [(_ & _ & payload & Hp) | (Hf & _)] & _);
        [eauto | congruence]. }
  simpl. destruct (execute_calendar_intent env intent w) as [r w1]. simpl in *.
  destruct (execute_all_duplicates (ledger_key intent) intents w1 r Hlook (or_introl Hfirst) Hall)
    as (Hdups & Hlen & Hcalls & _).
  destruct (execute_all env intents w1) as [rs w2]. simpl in *.
  split; [exists payload; congruence | auto].
Qed.

(** ** What the ledger holds *)

Lemma ledger_inv_insert w w' id r :
  ledger_inv env w ->
  executions w' = <[id := r]> (executions w) ->
  stored_status (er_status r) ->
  (er_status r = EXECUTED -> PyStr.is_empty (ZAPIER_WEBHOOK_URL env) = false) ->
  ledger_inv env w'.
Proof.
  intros Hinv Hex Hst Hurl j r' Hlook. rewrite Hex in Hlook.
  destruct (decide (id = j)) as [-> | Hne].
  - rewrite lookup_insert_eq in Hlook. injection Hlook as <-. auto.
  - rewrite lookup_insert_ne in Hlook by assumption. eauto.
Qed.

Lemma reachable_ledger_inv w : reachable env w -> ledger_inv env w.
Proof.
  induction 1 as [| intent w Hreach IH | intent w Hreach IH | id w Hreach IH | w Hreach IH].
  - intros id r Hlook. simpl in Hlook. rewrite lookup_empty in Hlook. discriminate.
  - destruct (executions w !! ledger_key intent) as [existing |] eqn:Hex.
    + destruct (status_in (er_status existing) [EXECUTED; EXECUTING]) eqn:Hin.
      * apply status_in_spec in Hin. simpl in Hin.
        assert (er_status existing = EXECUTED \/ er_status existing = EXECUTING) as Hst
          by (destruct Hin as [H | [H | []]]; auto).
        destruct (execute_begin_duplicate intent w existing Hex Hst)
          as (r & w' & Hbegin & _ & Hex' & _).
        rewrite Hbegin. simpl. intros id r' Hlook. rewrite Hex' in Hlook. eauto.
      * assert (er_status existing <> EXECUTED /\ er_status existing <> EXECUTING) as Hne.
        { split; intros Heq; rewrite Heq in Hin; discriminate. }
        pose proof (execute_begin_started intent w) as Hstart. rewrite Hex in Hstart.
        destruct (Hstart Hne) as (r & w' & Hbegin & Hst & Hex' & _).
        rewrite Hbegin. simpl.
        apply (ledger_inv_insert w w' _ r IH Hex'); [left; auto | congruence].
    + pose proof (execute_begin_started intent w) as Hstart. rewrite Hex in Hstart.
      destruct (Hstart I) as (r & w' & Hbegin & Hst & Hex' & _).
      rewrite Hbegin. simpl.
      apply (ledger_inv_insert w w' _ r IH Hex'); [left; auto | congruence].
  - destruct (execute_finish_spec intent w) as (Hex & _ & Hcases).
    apply (ledger_inv_insert w _ _ _ IH Hex).
    + destruct Hcases as [(Hst & _) | (Hst & _)]; rewrite Hst; unfold stored_status; auto.
    + destruct Hcases as [(_ & _ & Hurl & _) | (Hst & _)]; [auto | congruence].
  - unfold reset_execution.
    destruct (executions w !! id) as [existing |] eqn:Hex; cbn [snd]; [| assumption].
    intros j r Hlook. unfold set_locks, set_executions in Hlook. cbn [executions] in Hlook.
    destruct (decide (id = j)) as [-> | Hne].
    + rewrite lookup_delete_eq in Hlook. discriminate.
    + rewrite lookup_delete_ne in Hlook by assumption. eauto.
  - intros id r Hlook. simpl in Hlook. eauto.
Qed.

(** The worlds that calls of the executor lead to are reachable. *)
Lemma execute_reachable intent w :
  reachable env w -> reachable env (snd (execute_calendar_intent env intent w)).
Proof.
  intros Hreach. unfold execute_calendar_intent.
  pose proof (reach_begin env intent w Hreach) as Hbegin.
  destruct (execute_begin env intent w) as [[r |] w1]; simpl in *.
  - assumption.
  - apply reach_finish. assumption.
Qed.

(** C3, as the code has it. A FAILED record does not stop the next
    call: a call for an identity whose record is FAILED is not a
    duplicate. It marks the record EXECUTING and goes to the webhook
    again, which receives a new request whenever a destination is
    configured and the intent has an attendee; the record ends up
    EXECUTED or FAILED with the new result. *)
Theorem failed_record_is_executed_again intent w existing :
  executions w !! ledger_key intent = Some existing ->
  er_status existing = FAILED ->
  let r := fst (execute_calendar_intent env intent w) in
  let w' := snd (execute_calendar_intent env intent w) in
  er_status r <> DUPLICATE /\ er_is_duplicate r = false /\
  (er_status r = EXECUTED \/ er_status r = FAILED) /\
  executions w' !! ledger_key intent = Some r /\
  (PyStr.is_empty (ZAPIER_WEBHOOK_URL env) = false -> attendees intent <> [] ->
   exists payload, calls w' = calls w ++ [payload]).
Proof.
  intros Hlook Hfailed.
  pose proof (execute_fresh intent w) as Hfresh. rewrite Hlook in Hfresh.
  destruct Hfresh as (Hstored & Hdup & Hcases & Hsends).
  { rewrite Hfailed. split; discriminate. }
  simpl. repeat split; try assumption.
  - destruct Hcases as [(Hst & _) | (Hst & _)]; rewrite Hst; discriminate.
  - destruct Hcases as [(Hst & _) | (Hst & _)]; auto.
Qed.

(** C9. [reset_execution] on an identity that has a record deletes the
    record and the lock of that identity, leaves every other record, and
    returns true; on an identity without a record it returns false and
    changes nothing. After the record of an EXECUTED identity has been
    reset, [was_executed] is false for it, and a call for an intent of
    that identity is not a duplicate: the webhook receives a new
    request. (The intent has an attendee, as the constructor of
    [CalendarEventIntent] requires of every intent.) *)
Theorem reset_execution_purges :
  (forall id w existing,
      executions w !! id = Some existing ->
      let w' := snd (reset_execution id w) in
      fst (reset_execution id w) = true /\
      executions w' !! id = None /\ (id ∉ locks w') /\
      (forall j, j <> id -> executions w' !! j = executions w !! j) /\
      calls w' = calls w) /\
  (forall id w,
      executions w !! id = None -> reset_execution id w = (false, w)) /\
  (forall intent w existing,
      reachable env w ->
      attendees intent <> [] ->
      executions w !! ledger_key intent = Some existing ->
      er_status existing = EXECUTED ->
      let w1 := snd (reset_execution (ledger_key intent) w) in
      let r := fst (execute_calendar_intent env intent w1) in
      let w2 := snd (execute_calendar_intent env intent w1) in
      was_executed w1 (ledger_key intent) = false /\
      er_status r <> DUPLICATE /\ er_is_duplicate r = false /\
      exists payload, calls w2 = calls w1 ++ [payload]).
Proof.
  assert (forall id w existing,
             executions w !! id = Some existing ->
             fst (reset_execution id w) = true /\
             executions (snd (reset_execution id w)) !! id = None /\
             (id ∉ locks (snd (reset_execution id w))) /\
             (forall j, j <> id ->
                        executions (snd (reset_execution id w)) !! j = executions w !! j) /\
             calls (snd (reset_execution id w)) = calls w) as Hreset.
  { intros id w existing Hlook. unfold reset_execution. rewrite Hlook.
    unfold set_locks, set_executions. cbn [fst snd executions locks calls].
    split; [reflexivity |]. split; [apply lookup_delete_eq |].
    split.
    { intros Hin. apply elem_of_difference in Hin as [_ Hn].
      apply Hn, elem_of_singleton. reflexivity. }
    split; [| reflexivity].
    intros j Hne. apply lookup_delete_ne. congruence. }
  split; [exact Hreset |]. split.
  - intros id w Hlook. unfold reset_execution. rewrite Hlook. reflexivity.
  - intros intent w existing Hreach Hatt Hlook Hst.
    destruct (Hreset _ w existing Hlook) as (_ & Hgone & _ & _ & _).
    destruct (reachable_ledger_inv w Hreach _ _ Hlook) as [_ Hurl].
    specialize (Hurl Hst).
    set (w1 := snd (reset_execution (ledger_key intent) w)) in *.
    pose proof (execute_fresh intent w1) as Hfresh. rewrite Hgone in Hfresh.
    destruct (Hfresh I) as (_ & Hdup & Hcases & Hsends).
    cbn zeta. split.
    + unfold was_executed. rewrite Hgone. reflexivity.
    + split; [| split; [assumption | auto]].
      destruct Hcases as [(H & _) | (H & _)]; rewrite H; discriminate.
Qed.

(** C10. In every world the process can reach, a stored record is
    EXECUTING, EXECUTED or FAILED, never PENDING or DUPLICATE: a call
    that meets a duplicate returns a DUPLICATE result and stores
    nothing. Hence [was_executed] is true of an identity exactly when
    its record is EXECUTED. *)
Theorem stored_records_status w :
  reachable env w ->
  (forall id r, executions w !! id = Some r ->
                er_status r = EXECUTING \/ er_status r = EXECUTED \/ er_status r = FAILED) /\
  (forall id r, executions w !! id = Some r ->
                er_status r <> PENDING /\ er_status r <> DUPLICATE) /\
  (forall intent r w',
      execute_begin env intent w = (IsDuplicate r, w') ->
      er_status r = DUPLICATE /\ executions w' = executions w) /\
  (forall id,
      was_executed w id = true <->
      exists r, executions w !! id = Some r /\ er_status r = EXECUTED).
Proof.
  intros Hreach. pose proof (reachable_ledger_inv w Hreach) as Hinv.
  split; [intros id r Hlook; apply (Hinv id r Hlook) |].
  split.
  { intros id r Hlook. destruct (Hinv id r Hlook) as [[H | [H | H]] _];
      rewrite H; split; discriminate. }
  split.
  { intros intent r w'. unfold execute_begin, under_lock, _get_lock, set_locks. cbn [executions].
    destruct (match executions w !! ledger_key intent with
              | Some existing => status_in (er_status existing) [EXECUTED; EXECUTING]
              | None => false
              end); simpl; [| discriminate].
    intros [= <- <-]. split; reflexivity. }
  intros id. unfold was_executed. split.
  - destruct (executions w !! id) as [r |] eqn:Hlook; [| discriminate].
    intros Hin. exists r. split; [reflexivity |].
    apply status_in_spec in Hin. simpl in Hin.
    destruct Hin as [H | [H | []]]; [auto |].
    destruct (Hinv id r Hlook) as [[H' | [H' | H']] _]; congruence.
  - intros (r & Hlook & Hst). rewrite Hlook, Hst. reflexivity.
Qed.

End Ledger.

(** ** Validation *)

Section Validation.

Context `{rt : PyRuntime}.

(** An intent is built only from fields that each passed its check. *)
Lemma new_intent_inr d i :
  new_CalendarEventIntent d = inr i ->
  check_action (nd_action d) = inr (action i) /\
  check_title (nd_title d) = inr (title i) /\
  check_opt_str ["description"] (nd_description d) = inr (description i) /\
  check_time "start_time" (nd_start_time d) = inr (start_time i) /\
  check_time "end_time" (nd_end_time d) = inr (end_time i) /\
  check_str ["timezone"] (nd_timezone d) = inr (timezone i) /\
  check_attendees (nd_attendees d) = inr (attendees i) /\
  check_bool ["send_email"] (nd_send_email d) = inr (send_email i) /\
  check_opt_str ["intent_id"] (nd_intent_id d) = inr (intent_id i) /\
  call_id i = nd_call_id d /\ org_id i = nd_org_id d.
Proof.
  unfold new_CalendarEventIntent.
  destruct (check_action (nd_action d)), (check_title (nd_title d)),
    (check_opt_str ["description"] (nd_description d)),
    (check_time "start_time" (nd_start_time d)),
    (check_time "end_time" (nd_end_time d)),
    (check_str ["timezone"] (nd_timezone d)),
    (check_attendees (nd_attendees d)),
    (check_bool ["send_email"] (nd_send_email d)),
    (check_opt_str ["intent_id"] (nd_intent_id d));
    try (intros H; discriminate H).
  intros [= <-]. simpl. repeat split; reflexivity.
Qed.

(** The errors of a rejected construction are those of the fields, in
    the order of the fields. *)
Lemma new_intent_inl d errs :
  new_CalendarEventIntent d = inl errs ->
  errs = errors_of (check_action (nd_action d)) ++
         errors_of (check_title (nd_title d)) ++
         errors_of (check_opt_str ["description"] (nd_description d)) ++
         errors_of (check_time "start_time" (nd_start_time d)) ++
         errors_of (check_time "end_time" (nd_end_time d)) ++
         errors_of (check_str ["timezone"] (nd_timezone d)) ++
         errors_of (check_attendees (nd_attendees d)) ++
         errors_of (check_bool ["send_email"] (nd_send_email d)) ++
         errors_of (check_opt_str ["intent_id"] (nd_intent_id d)).
Proof.
  unfold new_CalendarEventIntent.
  destruct (check_action (nd_action d)), (check_title (nd_title d)),
    (check_opt_str ["description"] (nd_description d)),
    (check_time "start_time" (nd_start_time d)),
    (check_time "end_time" (nd_end_time d)),
    (check_str ["timezone"] (nd_timezone d)),
    (check_attendees (nd_attendees d)),
    (check_bool ["send_email"] (nd_send_email d)),
    (check_opt_str ["intent_id"] (nd_intent_id d));
    intros H; try discriminate H; injection H as <-; reflexivity.
Qed.

Lemma check_str_inr loc v s : check_str loc v = inr s -> v = PStr s.
Proof. destruct v; simpl; intros H; try discriminate H. congruence. Qed.

Lemma check_title_inr v s : check_title v = inr s -> v = PStr s.
Proof.
  unfold check_title. destruct (check_str ["title"] v) as [e | t] eqn:Hstr; [discriminate |].
  apply check_str_inr in Hstr as ->.
  destruct (Nat.ltb (String.length t) 1); [discriminate |].
  destruct (Nat.ltb 255 (String.length t)); [discriminate |]. congruence.
Qed.

(** The check of a timestamp: a string passes exactly when the library
    parses it once each Z has become +00:00, and it passes unchanged;
    otherwise the error is at the field and tells the format. *)
Lemma check_time_str field v :
  check_time field (PStr v) =
  match fromisoformat (PyStr.replace_char "Z" "+00:00" v) with
  | Some _ => inr v
  | None =>
      inl [mkFieldError [field]
             ("Value error, Invalid ISO-8601 datetime: " +:+ v +:+
              ". Expected format: YYYY-MM-DDTHH:MM:SSZ")]
  end.
Proof.
  unfold check_time, validate_iso8601. simpl.
  destruct (fromisoformat (PyStr.replace_char "Z" "+00:00" v)); reflexivity.
Qed.

Lemma check_time_inr field v s :
  check_time field v = inr s ->
  v = PStr s /\ is_Some (fromisoformat (PyStr.replace_char "Z" "+00:00" s)).
Proof.
  destruct v; try (simpl; intros H; discriminate H).
  rewrite check_time_str.
  destruct (fromisoformat (PyStr.replace_char "Z" "+00:00" s0)) eqn:Hparse; [| discriminate].
  intros [= <-]. rewrite Hparse. eauto.
Qed.

Lemma check_items_inr field : forall l i items,
  check_items field i l = ([], items) -> l = map PStr items.
Proof.
  induction l as [| v rest IH]; intros i items; simpl.
  - intros [= <-]. reflexivity.
  - destruct (check_items field (S i) rest) as [errs items'] eqn:Hrest.
    destruct v; intros H; try discriminate H.
    injection H as -> <-. simpl. f_equal. eauto.
Qed.

Lemma validate_each_inr : forall v validated,
  validate_each v = inr validated ->
  validated = map normalize_email v /\
  Forall (fun email => Re.match_anchored email_regex (normalize_email email) = true) v.
Proof.
  induction v as [| email rest IH]; intros validated; simpl.
  - intros [= <-]. auto.
  - destruct (Re.match_anchored email_regex (normalize_email email)) eqn:Hm; simpl;
      [| discriminate].
    destruct (validate_each rest) as [e | validated'] eqn:Hrest; simpl; [discriminate |].
    intros [= <-]. destruct (IH validated' eq_refl) as [-> Hall]. auto.
Qed.

(** The check of the attendees: a non-empty list of strings passes when
    each address, trimmed and put in lower case, has the form of an
    address, and the list of these normalized addresses is kept. *)
Lemma check_attendees_inr v validated :
  check_attendees v = inr validated ->
  exists items,
    v = PList (map PStr items) /\ items <> [] /\
    validated = map normalize_email items /\
    Forall (fun email => Re.match_anchored email_regex (normalize_email email) = true) items.
Proof.
  unfold check_attendees. destruct v as [| | | | l |]; try discriminate.
  destruct (check_items "attendees" 0 l) as [errs items] eqn:Hitems.
  destruct errs; [| discriminate].
  apply check_items_inr in Hitems as ->.
  destruct items as [| email rest]; [discriminate |].
  cbn [length Nat.ltb Nat.leb]. unfold run_validator, validate_attendees.
  destruct (validate_each (email :: rest)) as [e | l'] eqn:Heach; [discriminate |].
  intros [= <-]. apply validate_each_inr in Heach as [-> Hall].
  exists (email :: rest). repeat split; [discriminate | assumption].
Qed.

Lemma check_opt_str_inr loc v o :
  check_opt_str loc v = inr o ->
  match o with Some s => v = PStr s | None => v = PNone end.
Proof. destruct v; simpl; intros H; try discriminate H; injection H as <-; reflexivity. Qed.

(** A field is missing when the payload has no such key or has a falsy
    value under it. *)
Lemma is_missing_spec args field :
  is_missing args field = true <->
  dict_lookup field args = None \/
  exists v, dict_lookup field args = Some v /\ truthy v = false.
Proof.
  unfold is_missing, dict_has, dict_get.
  destruct (dict_lookup field args) as [v |]; simpl.
  - split.
    + intros H. right. exists v. split; [reflexivity |]. destruct (truthy v); [discriminate | reflexivity].
    + intros [H | (v' & [= <-] & ->)]; [discriminate | reflexivity].
  - split; auto.
Qed.

Lemma missing_fields_spec args field :
  In field (missing_fields args) <->
  In field required_fields /\
  (dict_lookup field args = None \/
   exists v, dict_lookup field args = Some v /\ truthy v = false).
Proof.
  unfold missing_fields. rewrite List.filter_In, is_missing_spec. reflexivity.
Qed.

Lemma present_spec args field :
  In field required_fields ->
  missing_fields args = [] ->
  exists v, dict_lookup field args = Some v /\ truthy v = true.
Proof.
  intros Hreq Hnone.
  destruct (dict_lookup field args) as [v |] eqn:Hlook.
  - exists v. split; [reflexivity |].
    destruct (truthy v) eqn:Ht; [reflexivity |].
    assert (In field (missing_fields args)) as Hin
      by (apply missing_fields_spec; eauto).
    rewrite Hnone in Hin. destruct Hin.
  - assert (In field (missing_fields args)) as Hin
      by (apply missing_fields_spec; eauto).
    rewrite Hnone in Hin. destruct Hin.
Qed.

(** The three ways validation returns. *)
Lemma validate_cases args call org vr :
  validate_calendar_intent args call org = inr vr ->
  (missing_fields args <> [] /\
   vr = mkValidationResult false None [missing_message (missing_fields args)] (Some args))
  \/
  (missing_fields args = [] /\
   exists key, idempotency_key args = inr key /\
     ((exists i,
          new_CalendarEventIntent
            (normalized_data args (intent_id_of args key) call org) = inr i /\
          vr = mkValidationResult true (Some i) [] (Some args))
      \/
      (exists errs,
          new_CalendarEventIntent
            (normalized_data args (intent_id_of args key) call org) = inl errs /\
          vr = mkValidationResult false None (map format_error errs) (Some args)))).
Proof.
  unfold validate_calendar_intent.
  destruct (missing_fields args) as [| f fs] eqn:Hmiss.
  - destruct (idempotency_key args) as [e | key]; simpl; [discriminate |].
    destruct (new_CalendarEventIntent _) as [errs | i] eqn:Hnew; intros [= <-]; right;
      (split; [reflexivity |]); exists key; (split; [reflexivity |]); eauto.
  - intros [= <-]. left. split; [discriminate | reflexivity].
Qed.

(** Where validation raises: the required fields are there and the
    "attendees" entry is a truthy value that [attendees[0]] cannot index.
    Everywhere else it returns. *)
Lemma validate_raises_cases args call org :
  match validate_calendar_intent args call org with
  | inl e =>
      missing_fields args = [] /\
      unindexable (dict_get args "attendees" (PList [])) = true /\
      e = index0_error (dict_get args "attendees" (PList []))
  | inr _ =>
      missing_fields args <> [] \/
      unindexable (dict_get args "attendees" (PList [])) = false
  end.
Proof.
  assert (forall v, truthy v = true -> unindexable v = true ->
                    index0 v = inl (index0_error v)) as Hraise.
  { intros v Ht Hu. unfold unindexable in Hu. rewrite Ht in Hu.
    destruct v; try discriminate Hu; reflexivity. }
  assert (forall v, truthy v = true -> unindexable v = false ->
                    exists x, index0 v = inr x) as Hreturn.
  { intros v Ht Hu. unfold unindexable in Hu. rewrite Ht in Hu.
    destruct v as [| b | n | s | l | d]; try discriminate Hu; try discriminate Ht.
    - destruct s; [discriminate | eexists; reflexivity].
    - destruct l; [discriminate | eexists; reflexivity]. }
  assert (forall v, unindexable v = true -> truthy v = true) as Htruthy.
  { intros v Hu. unfold unindexable in Hu. apply andb_true_iff in Hu. tauto. }
  unfold validate_calendar_intent.
  destruct (missing_fields args) as [| m ms] eqn:Hmiss; [| left; discriminate].
  assert (exists v, dict_lookup "attendee_email" args = Some v /\ truthy v = true)
    as (mail & Hmail & Hmailt).
  { apply present_spec; [cbn; auto | assumption]. }
  unfold idempotency_key, attendees_of.
  set (given := dict_get args "attendees" (PList [])).
  assert (dict_get args "attendee_email" PNone = mail) as ->.
  { unfold dict_get. rewrite Hmail. reflexivity. }
  rewrite Hmailt, andb_true_r.
  destruct (truthy given) eqn:Hgiven; cbn [negb].
  - rewrite Hgiven. destruct (unindexable given) eqn:Hu.
    + rewrite (Hraise given Hgiven Hu). cbn [bind]. auto.
    + destruct (Hreturn given Hgiven Hu) as [x ->]. cbn [bind].
      destruct (new_CalendarEventIntent _); right; reflexivity.
  - assert (unindexable given = false) as Hu.
    { destruct (unindexable given) eqn:Hu; [| reflexivity].
      apply Htruthy in Hu. congruence. }
    cbn [truthy index0 bind].
    destruct (new_CalendarEventIntent _); right; exact Hu.
Qed.

Lemma valid_cases args call org i :
  validate_calendar_intent args call org
  = inr (mkValidationResult true (Some i) [] (Some args)) ->
  missing_fields args = [] /\
  exists key,
    idempotency_key args = inr key /\
    new_CalendarEventIntent (normalized_data args (intent_id_of args key) call org) = inr i.
Proof.
  intros Hv. apply validate_cases in Hv as [[_ Heq] | (Hmiss & key & Hkey & Hnew)].
  - discriminate Heq.
  - split; [assumption |]. exists key. split; [assumption |].
    destruct Hnew as [(i' & Hnew & [= <-]) | (errs & _ & Heq)]; [assumption | discriminate Heq].
Qed.

(** A required field that a check of the constructor took as a string. *)
Lemma required_str args field (check : PyVal -> Checked string) s :
  In field required_fields ->
  missing_fields args = [] ->
  (forall v, check v = inr s -> v = PStr s) ->
  check (dict_get args field (PStr EmptyString)) = inr s ->
  dict_lookup field args = Some (PStr s).
Proof.
  intros Hreq Hmiss Hcheck Hok.
  destruct (present_spec args field Hreq Hmiss) as (v & Hlook & _).
  unfold dict_get in Hok. rewrite Hlook in Hok. apply Hcheck in Hok. congruence.
Qed.

(** An intent that validation returns has an attendee. *)
Lemma valid_intent_has_attendee args call org i :
  validate_calendar_intent args call org
  = inr (mkValidationResult true (Some i) [] (Some args)) ->
  attendees i <> [].
Proof.
  intros Hv. apply valid_cases in Hv as (_ & key & _ & Hnew).
  apply new_intent_inr in Hnew as (_ & _ & _ & _ & _ & _ & Hatt & _).
  apply check_attendees_inr in Hatt as (items & _ & Hne & -> & _).
  destruct items; [congruence | discriminate].
Qed.

(** The identity of a valid intent whose payload brings none of its own:
    the first sixteen digits of the SHA-256 of the title, the start, the
    end and the first attendee, this last one as the payload spells it;
    the first attendee of the intent is that address normalized. *)
Lemma identity_formula args call org i :
  validate_calendar_intent args call org
  = inr (mkValidationResult true (Some i) [] (Some args)) ->
  truthy (dict_get args "intent_id" PNone) = false ->
  exists a,
    index0 (attendees_of args) = inr (PStr a) /\
    dict_lookup "title" args = Some (PStr (title i)) /\
    dict_lookup "start_time" args = Some (PStr (start_time i)) /\
    dict_lookup "end_time" args = Some (PStr (end_time i)) /\
    hd_error (attendees i) = Some (normalize_email a) /\
    intent_id i =
    Some (PyStr.take 16
            (Sha256.hexdigest
               (title i +:+ "|" +:+ start_time i +:+ "|" +:+ end_time i +:+ "|" +:+ a))).
Proof.
  intros Hv Hown. apply valid_cases in Hv as (Hmiss & key & Hkey & Hnew).
  apply new_intent_inr in Hnew
    as (_ & Htitle & _ & Hstart & Hend & _ & Hatt & _ & Hid & _).
  cbn [normalized_data nd_title nd_start_time nd_end_time nd_attendees nd_intent_id]
    in Htitle, Hstart, Hend, Hatt, Hid.
  apply (required_str args "title" check_title) in Htitle;
    [| simpl; auto | assumption | intros v; apply check_title_inr].
  apply (required_str args "start_time" (check_time "start_time")) in Hstart;
    [| simpl; auto | assumption | intros v Hc; apply (check_time_inr _ _ _ Hc)].
  apply (required_str args "end_time" (check_time "end_time")) in Hend;
    [| simpl; auto | assumption | intros v Hc; apply (check_time_inr _ _ _ Hc)].
  apply check_attendees_inr in Hatt as (items & Hitems & Hne & Hnorm & _).
  destruct items as [| a rest]; [congruence |]. exists a.
  unfold idempotency_key in Hkey. rewrite Hitems in Hkey. simpl in Hkey.
  unfold dict_get in Hkey. rewrite Htitle, Hstart, Hend in Hkey. simpl in Hkey.
  injection Hkey as <-.
  unfold intent_id_of in Hid. rewrite Hown in Hid. simpl in Hid. injection Hid as <-.
  rewrite Hitems, Hnorm. simpl. repeat split; assumption || reflexivity.
Qed.

(** C2, as the code has it. Two payloads that validation accepts, that
    bring no identity of their own, and that agree on the title, the
    start, the end and the first attendee as they spell it (the first
    element of a non-empty "attendees" list, else "attendee_email") get
    the same identity: the first sixteen hexadecimal digits of the
    SHA-256 of these four texts joined by bars. *)
Theorem identity_of_payload_fields args1 args2 call1 org1 call2 org2 i1 i2 :
  validate_calendar_intent args1 call1 org1
  = inr (mkValidationResult true (Some i1) [] (Some args1)) ->
  validate_calendar_intent args2 call2 org2
  = inr (mkValidationResult true (Some i2) [] (Some args2)) ->
  truthy (dict_get args1 "intent_id" PNone) = false ->
  truthy (dict_get args2 "intent_id" PNone) = false ->
  dict_lookup "title" args1 = dict_lookup "title" args2 ->
  dict_lookup "start_time" args1 = dict_lookup "start_time" args2 ->
  dict_lookup "end_time" args1 = dict_lookup "end_time" args2 ->
  index0 (attendees_of args1) = index0 (attendees_of args2) ->
  intent_id i1 = intent_id i2 /\
  exists a,
    index0 (attendees_of args1) = inr (PStr a) /\
    intent_id i1 =
    Some (PyStr.take 16
            (Sha256.hexdigest
               (title i1 +:+ "|" +:+ start_time i1 +:+ "|" +:+ end_time i1 +:+ "|" +:+ a))).
Proof.
  intros Hv1 Hv2 Hown1 Hown2 Htitle Hstart Hend Hfirst.
  destruct (identity_formula _ _ _ _ Hv1 Hown1) as (a1 & Ha1 & Ht1 & Hs1 & He1 & _ & Hid1).
  destruct (identity_formula _ _ _ _ Hv2 Hown2) as (a2 & Ha2 & Ht2 & Hs2 & He2 & _ & Hid2).
  split; [| exists a1; auto].
  rewrite Hid1, Hid2.
  assert (a1 = a2) as -> by congruence.
  assert (title i1 = title i2) as -> by congruence.
  assert (start_time i1 = start_time i2) as -> by congruence.
  assert (end_time i1 = end_time i2) as -> by congruence.
  reflexivity.
Qed.

(** Which attendee comes first: the head of a non-empty list under
    "attendees", and without a list the address under "attendee_email". *)
Lemma first_attendee_of_list args x rest :
  dict_lookup "attendees" args = Some (PList (x :: rest)) ->
  index0 (attendees_of args) = inr x.
Proof. intros H. unfold attendees_of, dict_get. rewrite H. reflexivity. Qed.

Lemma first_attendee_single args v :
  truthy (dict_get args "attendees" (PList [])) = false ->
  dict_lookup "attendee_email" args = Some v ->
  truthy v = true ->
  attendees_of args = PList [v] /\ index0 (attendees_of args) = inr v.
Proof.
  intros Hnone Hlook Ht. unfold attendees_of. rewrite Hnone.
  unfold dict_get. rewrite Hlook, Ht. simpl. auto.
Qed.


Lemma is_missing_present args field v :
  dict_lookup field args = Some v -> truthy v = true -> is_missing args field = false.
Proof.
  intros Hlook Ht. unfold is_missing, dict_has, dict_get. rewrite Hlook, Ht. reflexivity.
Qed.

Lemma is_missing_absent args field :
  dict_lookup field args = None -> is_missing args field = true.
Proof. intros Hlook. unfold is_missing, dict_has. rewrite Hlook. reflexivity. Qed.

Lemma validate_missing args call org :
  missing_fields args <> [] ->
  validate_calendar_intent args call org
  = inr (mkValidationResult false None [missing_message (missing_fields args)] (Some args)).
Proof.
  intros Hne. unfold validate_calendar_intent.
  destruct (missing_fields args); [congruence | reflexivity].
Qed.

(** C5, as the code has it. "attendee_email" is a required field. A
    payload without it is rejected by the check of the required fields,
    whatever it has under "attendees": when the title and the two
    timestamps are there, the one error is that "attendee_email" is
    missing. Of a payload that is accepted, the attendees are those of
    the "attendees" list when it is not empty, normalized, and only
    otherwise the address under "attendee_email", as a list of one. *)
Theorem attendee_email_is_required args call org :
  (dict_lookup "attendee_email" args = None ->
   In "attendee_email" (missing_fields args) /\
   validate_calendar_intent args call org
   = inr (mkValidationResult false None
            [missing_message (missing_fields args)] (Some args))) /\
  (dict_lookup "attendee_email" args = None ->
   (forall field, In field ["title"; "start_time"; "end_time"] ->
                  exists v, dict_lookup field args = Some v /\ truthy v = true) ->
   validate_calendar_intent args call org
   = inr (mkValidationResult false None
            ["Missing required fields: attendee_email"] (Some args))) /\
  (forall i,
      validate_calendar_intent args call org
      = inr (mkValidationResult true (Some i) [] (Some args)) ->
      (forall v, dict_lookup "attendees" args = Some v -> truthy v = true ->
                 exists items,
                   v = PList (map PStr items) /\
                   attendees i = map normalize_email items) /\
      (truthy (dict_get args "attendees" (PList [])) = false ->
       exists e,
         dict_lookup "attendee_email" args = Some (PStr e) /\
         attendees i = [normalize_email e])).
Proof.
  split; [| split].
  - intros Habsent.
    assert (In "attendee_email" (missing_fields args)) as Hin.
    { apply missing_fields_spec. split; [simpl; auto | auto]. }
    split; [assumption |]. apply validate_missing. intros Heq. rewrite Heq in Hin. destruct Hin.
  - intros Habsent Hpresent.
    assert (missing_fields args = ["attendee_email"]) as Hmiss.
    { destruct (Hpresent "title") as (v1 & H1 & T1); [simpl; auto |].
      destruct (Hpresent "start_time") as (v2 & H2 & T2); [simpl; auto |].
      destruct (Hpresent "end_time") as (v3 & H3 & T3); [simpl; auto |].
      unfold missing_fields, required_fields. cbn [List.filter].
      rewrite (is_missing_present _ _ _ H1 T1), (is_missing_present _ _ _ H2 T2),
        (is_missing_present _ _ _ H3 T3), (is_missing_absent _ _ Habsent).
      reflexivity. }
    rewrite validate_missing by (rewrite Hmiss; discriminate).
    rewrite Hmiss. reflexivity.
  - intros i Hv. apply valid_cases in Hv as (Hmiss & key & _ & Hnew).
    apply new_intent_inr in Hnew as (_ & _ & _ & _ & _ & _ & Hatt & _).
    cbn [normalized_data nd_attendees] in Hatt.
    apply check_attendees_inr in Hatt as (items & Hitems & _ & Hnorm & _).
    split.
    + intros v Hlook Ht. exists items. split; [| assumption].
      unfold attendees_of, dict_get in Hitems. rewrite Hlook, Ht in Hitems. assumption.
    + intros Hnone.
      destruct (present_spec args "attendee_email") as (v & Hlook & Ht);
        [simpl; auto | assumption |].
      destruct (first_attendee_single args v Hnone Hlook Ht) as [Hof _].
      rewrite Hof in Hitems.
      destruct items as [| e [| e' rest]]; try discriminate Hitems.
      injection Hitems as ->. exists e. rewrite Hnorm. auto.
Qed.

(** A text of nothing but whitespace strips to the empty text. *)
Lemma lstrip_all_space l :
  forallb PyStr.is_space l = true -> PyStr.lstrip_chars l = [].
Proof.
  induction l as [| c l IH]; simpl; [reflexivity |].
  destruct (PyStr.is_space c); simpl; [assumption | discriminate].
Qed.

Lemma strip_whitespace s :
  forallb PyStr.is_space (PyStr.chars s) = true -> PyStr.strip s = EmptyString.
Proof.
  intros Hall. unfold PyStr.strip. rewrite (lstrip_all_space _ Hall). reflexivity.
Qed.

(** C7. [parse_tool_call_safely] returns a pair, either a dict and no
    error or no dict and an error message, on every input but one kind: a
    text, not blank, on which the JSON decoder raises an exception that
    is not a [JSONDecodeError]. That exception leaves the function, for
    [except json.JSONDecodeError] is the only handler. None, a text that
    is empty or all whitespace, a text on which the decoder raises
    [JSONDecodeError] and a text that decodes to something other than an
    object each give no dict and their message; a dict is returned as it
    is, and so is the object a text decodes to. *)
Theorem parse_tool_call_safely_cases raw :
  (forall e,
      parse_tool_call_safely raw = inl e <->
      exists s, raw = PStr s /\ PyStr.strip s <> EmptyString /\
                json_decode (PyStr.strip s) = inl e /\
                exn_isinstance e JSONDecodeError = false) /\
  (forall parsed error,
      parse_tool_call_safely raw = inr (parsed, error) ->
      (exists d, parsed = Some d /\ error = None) \/
      (parsed = None /\ exists msg, error = Some msg /\ msg <> EmptyString)) /\
  (raw = PNone ->
   parse_tool_call_safely raw = inr (None, Some "Tool call data is None")) /\
  (forall d, raw = PDict d -> parse_tool_call_safely raw = inr (Some d, None)) /\
  (forall s, raw = PStr s -> forallb PyStr.is_space (PyStr.chars s) = true ->
             parse_tool_call_safely raw = inr (None, Some "Empty tool call data")) /\
  (forall s e, raw = PStr s -> PyStr.strip s <> EmptyString ->
               json_decode (PyStr.strip s) = inl e ->
               exn_isinstance e JSONDecodeError = true ->
               parse_tool_call_safely raw
               = inr (None, Some ("Invalid JSON: " +:+ exn_str e))) /\
  (forall s v, raw = PStr s -> PyStr.strip s <> EmptyString ->
               json_decode (PyStr.strip s) = inr v ->
               (forall d, v <> PDict d) ->
               parse_tool_call_safely raw
               = inr (None, Some ("Expected object, got " +:+ type_name v))) /\
  (forall s d, raw = PStr s -> PyStr.strip s <> EmptyString ->
               json_decode (PyStr.strip s) = inr (PDict d) ->
               parse_tool_call_safely raw = inr (Some d, None)).
Proof.
  assert (forall msg, (exists m, Some ("Invalid JSON: " +:+ msg) = Some m /\ m <> EmptyString))
    as Hinvalid by (intros msg; eexists; split; [reflexivity | discriminate]).
  destruct raw as [| b | n | s | l | d];
    try (split; [intros e; split; [discriminate | intros (s0 & Hs & _); discriminate Hs] |];
         split; [intros parsed error [= <- <-]; right; split;
                 [reflexivity | eexists; split; [reflexivity | discriminate]] |];
         repeat split; intros; try discriminate; reflexivity).
  - (* a text *)
    unfold parse_tool_call_safely, json_loads.
    destruct (PyStr.strip s) as [| c cleaned] eqn:Hstrip; cbn [PyStr.is_empty].
    + cbn [try_except].
      split; [intros e; split; [discriminate | intros (s0 & [= <-] & Hne & _); congruence] |].
      split; [intros parsed error [= <- <-]; right; split;
              [reflexivity | eexists; split; [reflexivity | discriminate]] |].
      split; [discriminate |]. split; [discriminate |]. split; [reflexivity |].
      split; [intros s0 e [= <-] Hne; congruence |].
      split; [intros s0 v [= <-] Hne; congruence | intros s0 d [= <-] Hne; congruence].
    + assert (forall s0, PStr s = PStr s0 ->
                         forallb PyStr.is_space (PyStr.chars s0) = true -> False) as Hws.
      { intros s0 [= <-] Hall. apply strip_whitespace in Hall. congruence. }
      destruct (json_decode (String c cleaned)) as [e0 | v] eqn:Hdec; cbn [bind try_except].
      * destruct (exn_isinstance e0 JSONDecodeError) eqn:Hcls.
        -- split; [intros e; split;
                   [discriminate
                   | intros (s0 & [= <-] & _ & Hd & Hc); rewrite Hstrip, Hdec in Hd;
                     injection Hd as <-; congruence] |].
           split; [intros parsed error [= <- <-]; right; split; [reflexivity | apply Hinvalid] |].
           split; [discriminate |]. split; [discriminate |].
           split; [intros s0 Heq Hall; destruct (Hws s0 Heq Hall) |].
           split; [intros s0 e [= <-] _ Hd _; rewrite Hstrip, Hdec in Hd;
                   injection Hd as <-; reflexivity |].
           split; [intros s0 v [= <-] _ Hd; rewrite Hstrip, Hdec in Hd; discriminate Hd |].
           intros s0 d [= <-] _ Hd; rewrite Hstrip, Hdec in Hd; discriminate Hd.
        -- split; [intros e; split;
                   [intros [= <-]; exists s; rewrite Hstrip, Hdec; repeat split;
                    [discriminate | assumption]
                   | intros (s0 & [= <-] & _ & Hd & _); rewrite Hstrip, Hdec in Hd;
                     injection Hd as <-; reflexivity] |].
           split; [discriminate |].
           split; [discriminate |]. split; [discriminate |].
           split; [intros s0 Heq Hall; destruct (Hws s0 Heq Hall) |].
           split; [intros s0 e [= <-] _ Hd Hc; rewrite Hstrip, Hdec in Hd;
                   injection Hd as <-; congruence |].
           split; [intros s0 v [= <-] _ Hd; rewrite Hstrip, Hdec in Hd; discriminate Hd |].
           intros s0 d [= <-] _ Hd; rewrite Hstrip, Hdec in Hd; discriminate Hd.
      * split; [intros e; split;
                [destruct v; discriminate
                | intros (s0 & [= <-] & _ & Hd & _); rewrite Hstrip, Hdec in Hd;
                  discriminate Hd] |].
        split; [destruct v; intros parsed error [= <- <-];
                try (right; split; [reflexivity | eexists; split; [reflexivity | discriminate]]);
                left; eauto |].
        split; [discriminate |]. split; [discriminate |].
        split; [intros s0 Hs Hall; destruct (Hws s0 Hs Hall) |].
        split; [intros s0 e [= <-] _ Hd; rewrite Hstrip, Hdec in Hd; discriminate Hd |].
        split.
        -- intros s0 v0 [= <-] _ Hd Hnot. rewrite Hstrip, Hdec in Hd. injection Hd as <-.
           destruct v; try reflexivity. destruct (Hnot d eq_refl).
        -- intros s0 d [= <-] _ Hd. rewrite Hstrip, Hdec in Hd. injection Hd as ->.
           reflexivity.
  - (* a dict *)
    split; [intros e; split; [discriminate | intros (s0 & Hs & _); discriminate Hs] |].
    split; [intros parsed error [= <- <-]; left; eauto |].
    repeat split; intros; try discriminate; cbn [parse_tool_call_safely]; congruence.
Qed.

End Validation.

(** ** The orchestrator *)

Section Handler.

Context `{rt : PyRuntime}.
Variable env : Env.

Lemma missing_fields_sublist args : missing_fields args `sublist_of` required_fields.
Proof.
  unfold missing_fields, required_fields. cbn [List.filter].
  destruct (is_missing args "title"), (is_missing args "start_time"),
    (is_missing args "end_time"), (is_missing args "attendee_email");
    repeat first [apply sublist_nil | apply sublist_skip | apply sublist_cons].
Qed.

(** The handler on a payload that lacks required fields: validation
    fails and nothing is executed. *)
Lemma handle_missing args call org item w :
  missing_fields args <> [] ->
  exists fields,
    fst (handle_tool_call env "create_appointment" (PDict args) call org item w)
    = inr [("success", PBool false);
           ("error", PStr (missing_message (missing_fields args)));
           ("should_retry", PBool true);
           ("clarification",
            PStr ("VALIDATION_FAILED: Cannot create appointment. " +:+
                  missing_message (missing_fields args) +:+ ". " +:+
                  "Please ask the user to provide the missing or correct information."));
           ("missing_fields", fields)] /\
    calls (snd (handle_tool_call env "create_appointment" (PDict args) call org item w))
    = calls w /\
    executions (snd (handle_tool_call env "create_appointment" (PDict args) call org item w))
    = executions w.
Proof.
  intros Hne. unfold handle_tool_call, route_tool_call, _handle_create_appointment.
  cbn [read_clock String.eqb Ascii.eqb Bool.eqb parse_tool_call_safely opt_truthy].
  rewrite (validate_missing args call org Hne).
  cbn. eexists. repeat split.
Qed.

(** C6, as the code has it. When a payload lacks required fields (a
    field is lacking when its key is absent or its value is falsy),
    validation returns an invalid result with one error entry for all of
    them: the words "Missing required fields: " and the names of the
    lacking fields in the order title, start_time, end_time,
    attendee_email, separated by commas. The orchestrator returns a
    failure to be retried, with that entry as its error and the
    clarification made from it, and executes nothing. *)
Theorem missing_fields_in_one_error args call org :
  (exists field,
      In field required_fields /\
      (dict_lookup field args = None \/
       exists v, dict_lookup field args = Some v /\ truthy v = false)) ->
  let msg := "Missing required fields: " +:+ PyStr.join ", " (missing_fields args) in
  missing_fields args <> [] /\
  missing_fields args `sublist_of` ["title"; "start_time"; "end_time"; "attendee_email"] /\
  (forall field,
      In field (missing_fields args) <->
      In field required_fields /\
      (dict_lookup field args = None \/
       exists v, dict_lookup field args = Some v /\ truthy v = false)) /\
  validate_calendar_intent args call org
  = inr (mkValidationResult false None [msg] (Some args)) /\
  forall item w,
  exists fields,
    fst (handle_tool_call env "create_appointment" (PDict args) call org item w)
    = inr [("success", PBool false);
           ("error", PStr msg);
           ("should_retry", PBool true);
           ("clarification",
            PStr ("VALIDATION_FAILED: Cannot create appointment. " +:+ msg +:+
                  ". Please ask the user to provide the missing or correct information."));
           ("missing_fields", fields)] /\
    calls (snd (handle_tool_call env "create_appointment" (PDict args) call org item w))
    = calls w /\
    executions (snd (handle_tool_call env "create_appointment" (PDict args) call org item w))
    = executions w.
Proof.
  intros (field & Hreq & Hlack). cbn zeta.
  assert (missing_fields args <> []) as Hne.
  { assert (In field (missing_fields args)) as Hin by (apply missing_fields_spec; auto).
    intros Heq. rewrite Heq in Hin. destruct Hin. }
  split; [assumption |].
  split; [apply missing_fields_sublist |].
  split; [intros f; apply missing_fields_spec |].
  split; [apply validate_missing; assumption |].
  intros item w. destruct (handle_missing args call org item w Hne) as (fields & H1 & H2 & H3).
  exists fields. split; [| split; assumption].
  rewrite H1. reflexivity.
Qed.

(** The handler on a payload whose identity is EXECUTED: STEP 3 answers
    and nothing is executed. *)
Lemma handle_duplicate args call org item w i id existing :
  validate_calendar_intent args call org
  = inr (mkValidationResult true (Some i) [] (Some args)) ->
  intent_id i = Some id ->
  executions w !! id = Some existing ->
  er_status existing = EXECUTED ->
  fst (handle_tool_call env "create_appointment" (PDict args) call org item w)
  = inr [("success", PBool true);
         ("is_duplicate", PBool true);
         ("message", PStr "This appointment was already created.");
         ("appointment_id", PStr id)] /\
  calls (snd (handle_tool_call env "create_appointment" (PDict args) call org item w))
  = calls w /\
  executions (snd (handle_tool_call env "create_appointment" (PDict args) call org item w))
  = executions w.
Proof.
  intros Hv Hid Hlook Hst.
  unfold handle_tool_call, route_tool_call, _handle_create_appointment.
  cbn [read_clock String.eqb Ascii.eqb Bool.eqb parse_tool_call_safely opt_truthy].
  rewrite Hv. cbn [is_valid negb intent]. rewrite Hid.
  unfold was_executed. cbn [executions]. rewrite Hlook, Hst.
  cbn. repeat split.
Qed.

(** The worlds that calls of the orchestrator lead to are reachable. *)
Lemma handle_tool_call_reachable tool_name tool_args call org item w :
  reachable env w ->
  reachable env (snd (handle_tool_call env tool_name tool_args call org item w)).
Proof.
  intros Hreach. unfold handle_tool_call.
  pose proof (reach_clock env w Hreach) as H0.
  destruct (read_clock env w) as [now w0]. cbn [snd] in H0.
  assert (reachable env (snd (route_tool_call env tool_name tool_args call org w0))) as H1.
  { unfold route_tool_call.
    destruct (String.eqb tool_name "create_appointment").
    - unfold _handle_create_appointment.
      destruct (parse_tool_call_safely tool_args) as [e | [parsed error]]; [assumption |].
      destruct (opt_truthy error); [assumption |].
      destruct parsed as [parsed |]; [| assumption].
      destruct (validate_calendar_intent parsed call org) as [e | vr]; [assumption |].
      destruct (negb (is_valid vr)); [assumption |].
      destruct (intent vr) as [i |]; [| assumption].
      destruct (match intent_id i with Some id => was_executed w0 id | None => false end);
        [assumption |].
      pose proof (execute_reachable env i w0 H0) as Hexec.
      destruct (execute_calendar_intent env i w0) as [r w1]. cbn [snd] in Hexec.
      destruct (negb (er_success r)); [assumption |].
      destruct (attendees i); [assumption |].
      destruct (py_get (er_zapier_response r) "calendar_link" PNone); assumption.
    - destruct (String.eqb tool_name "escalate_call"); [assumption |].
      destruct (String.eqb tool_name "complete_intake"); [assumption |].
      destruct (String.eqb tool_name "end_call"); assumption. }
  destruct (route_tool_call env tool_name tool_args call org w0) as [r w1]. cbn [snd] in H1.
  pose proof (reach_clock env w1 H1) as H2.
  destruct (read_clock env w1) as [now' w2]. assumption.
Qed.

(** Every exception is an instance of [Exception]. *)
Lemma exn_isinstance_Exception e : exn_isinstance e Exception = true.
Proof. reflexivity. Qed.

(** C8. [handle_tool_call] raises on no input: it returns a result.
    When the route it takes raises, the exception is caught and the
    result is a failure that carries the text of the exception and asks
    for a retry; when the route returns, the result is what the route
    returned; and for a tool name that is none of the four, the result
    is a failure that names the tool and asks for no retry. *)
Theorem handle_tool_call_never_raises tool_name tool_args call org item w :
  exists result w',
    handle_tool_call env tool_name tool_args call org item w = (inr result, w') /\
    (forall e w1,
        route_tool_call env tool_name tool_args call org (snd (read_clock env w))
        = (inl e, w1) ->
        result = [("success", PBool false);
                  ("error", PStr (exn_str e));
                  ("should_retry", PBool true)]) /\
    (forall r w1,
        route_tool_call env tool_name tool_args call org (snd (read_clock env w))
        = (inr r, w1) ->
        result = r) /\
    (~ In tool_name ["create_appointment"; "escalate_call"; "complete_intake"; "end_call"] ->
     result = [("success", PBool false);
               ("error", PStr ("Unknown tool: " +:+ tool_name));
               ("should_retry", PBool false)]).
Proof.
  unfold handle_tool_call. cbn [read_clock snd].
  set (w0 := mkWorld (executions w) (locks w) (calls w) (S (ticks w))).
  destruct (route_tool_call env tool_name tool_args call org w0) as [[e | r] w1] eqn:Hroute.
  - do 2 eexists. split; [reflexivity |]. split; [| split].
    + intros e' w1' [= <- <-]. reflexivity.
    + intros r w1' Heq. discriminate Heq.
    + intros Hunknown. exfalso. revert Hroute. unfold route_tool_call.
      destruct (String.eqb_spec tool_name "create_appointment") as [-> | _];
        [destruct Hunknown; simpl; auto |].
      destruct (String.eqb_spec tool_name "escalate_call") as [-> | _];
        [destruct Hunknown; simpl; auto |].
      destruct (String.eqb_spec tool_name "complete_intake") as [-> | _];
        [destruct Hunknown; simpl; auto |].
      destruct (String.eqb_spec tool_name "end_call") as [-> | _];
        [destruct Hunknown; simpl; auto |].
      discriminate.
  - do 2 eexists. split; [reflexivity |]. split; [| split].
    + intros e w1' Heq. discriminate Heq.
    + intros r' w1' [= <- <-]. reflexivity.
    + intros Hunknown. revert Hroute. unfold route_tool_call.
      destruct (String.eqb_spec tool_name "create_appointment") as [-> | _];
        [destruct Hunknown; simpl; auto |].
      destruct (String.eqb_spec tool_name "escalate_call") as [-> | _];
        [destruct Hunknown; simpl; auto |].
      destruct (String.eqb_spec tool_name "complete_intake") as [-> | _];
        [destruct Hunknown; simpl; auto |].
      destruct (String.eqb_spec tool_name "end_call") as [-> | _];
        [destruct Hunknown; simpl; auto |].
      intros [= <- <-]. reflexivity.
Qed.

End Handler.

(** ** The pipeline on the sample data *)

(** The example scenario: the address is normalized and the payload is
    accepted; the first execution calls the webhook once and succeeds; the
    same payload again is answered as a duplicate and the webhook has
    still been called once. *)
Example scenario :
  let '(r1, w1) :=
    @handle_tool_call reference_runtime Sample.accepting "create_appointment"
      (PDict (Sample.consult "john@example.com")) None None None empty_world in
  let '(r2, w2) :=
    @handle_tool_call reference_runtime Sample.accepting "create_appointment"
      (PDict (Sample.consult "john@example.com")) None None None w1 in
  (exists res, r1 = inr res /\ dict_lookup "success" res = Some (PBool true) /\
               dict_lookup "email_sent" res = Some (PBool true)) /\
  r2 = inr [("success", PBool true); ("is_duplicate", PBool true);
            ("message", PStr "This appointment was already created.");
            ("appointment_id", PStr "ec55823e2cb65a1d")] /\
  length (calls w1) = 1%nat /\ length (calls w2) = 1%nat.
Proof. vm_compute. split; [eexists; split; [reflexivity | split; reflexivity] | auto]. Qed.

(** Counterexample to C1. The webhook refuses the first request and
    accepts the second: of three submissions of the same intent the first
    fails, the second is executed and only the third is a duplicate; the
    webhook has been called twice. *)
Lemma repeated_submission_two_calls :
  let '(results, w) :=
    @execute_all reference_runtime Sample.flaky
      [Sample.intent; Sample.intent; Sample.intent] empty_world in
  map er_status results = [FAILED; EXECUTED; DUPLICATE] /\
  length (calls w) = 2%nat /\ length (calls w) <> 1%nat.
Proof. vm_compute. repeat split. discriminate. Qed.

(** Counterexample to C3: the webhook answers 500, so the first execution
    leaves a FAILED record; the second execution of the same intent is not
    a duplicate, and the webhook receives a second request. *)
Lemma failed_record_not_deduplicated :
  let '(r1, w1) :=
    @execute_calendar_intent reference_runtime Sample.failing Sample.intent empty_world in
  let '(r2, w2) :=
    @execute_calendar_intent reference_runtime Sample.failing Sample.intent w1 in
  er_status r1 = FAILED /\
  (er_status <$> executions w1 !! ledger_key Sample.intent) = Some FAILED /\
  er_status r2 = FAILED /\ er_is_duplicate r2 = false /\
  length (calls w1) = 1%nat /\ length (calls w2) = 2%nat /\
  ~ (is_duplicate_result r2 /\ calls w2 = calls w1).
Proof.
  vm_compute. repeat split. intros [[H _] _]. discriminate H.
Qed.

(** Witness of C3 as amended, on the same run. *)
Lemma failed_record_is_executed_again_witness :
  let w1 := executed_once Sample.failing in
  let r := fst (@execute_calendar_intent reference_runtime Sample.failing Sample.intent w1) in
  let w' := snd (@execute_calendar_intent reference_runtime Sample.failing Sample.intent w1) in
  er_status r <> DUPLICATE /\ er_is_duplicate r = false /\
  (er_status r = EXECUTED \/ er_status r = FAILED) /\
  executions w' !! ledger_key Sample.intent = Some r /\
  (PyStr.is_empty (ZAPIER_WEBHOOK_URL Sample.failing) = false ->
   attendees Sample.intent <> [] ->
   exists payload, calls w' = calls w1 ++ [payload]).
Proof.
  eapply (@failed_record_is_executed_again reference_runtime Sample.failing Sample.intent
            (executed_once Sample.failing)).
  - vm_compute. reflexivity.
  - vm_compute. reflexivity.
Defined.

(** Counterexample to C2. Two payloads that differ only in the case of the
    address validate to intents with the same normalized fields and
    different identities, the digest being taken of the address as it was
    typed; and a payload with the address in an "attendees" list and no
    "attendee_email" is rejected, so that it gets no identity at all. *)
Lemma identity_depends_on_spelling :
  @validate_calendar_intent reference_runtime (Sample.consult "JOHN@Example.com") None None
  = inr (valid_result (Sample.consult "JOHN@Example.com")
           (with_identity "c51a71ae7851e497" Sample.intent)) /\
  @validate_calendar_intent reference_runtime (Sample.consult "john@example.com") None None
  = inr (valid_result (Sample.consult "john@example.com") Sample.intent) /\
  attendees (with_identity "c51a71ae7851e497" Sample.intent) = attendees Sample.intent /\
  intent_id (with_identity "c51a71ae7851e497" Sample.intent) <> intent_id Sample.intent /\
  @validate_calendar_intent reference_runtime Sample.consult_list None None
  = inr (mkValidationResult false None ["Missing required fields: attendee_email"]
           (Some Sample.consult_list)).
Proof.
  split; [vm_compute; reflexivity |]. split; [vm_compute; reflexivity |].
  split; [reflexivity |]. split; [discriminate |]. vm_compute. reflexivity.
Qed.

(** Witness of C2 as amended: the address alone, and the address together
    with a list that begins with the same address. *)
Lemma identity_of_payload_fields_witness :
  intent_id Sample.intent
  = intent_id (mkIntent CREATE_CALENDAR_EVENT "Consult" (Some EmptyString)
                 "2024-12-20T14:00:00Z" "2024-12-20T15:00:00Z" "UTC"
                 ["john@example.com"; "mary@example.com"] true
                 (Some "ec55823e2cb65a1d") None None) /\
  exists a,
    index0 (attendees_of (Sample.consult "john@example.com")) = inr (PStr a) /\
    intent_id Sample.intent
    = Some (PyStr.take 16
              (Sha256.hexdigest
                 (title Sample.intent +:+ "|" +:+ start_time Sample.intent +:+ "|" +:+
                  end_time Sample.intent +:+ "|" +:+ a))).
Proof.
  eapply (@identity_of_payload_fields reference_runtime
            (Sample.consult "john@example.com")
            (Sample.consult "john@example.com" ++
             [("attendees", PList [PStr "john@example.com"; PStr "Mary@example.com"])])
            None None None None).
  - vm_compute. reflexivity.
  - vm_compute. reflexivity.
  - reflexivity.
  - reflexivity.
  - reflexivity.
  - reflexivity.
  - reflexivity.
  - reflexivity.
Defined.



(** Counterexample to C5. The payload has a title, valid timestamps and a
    non-empty "attendees" list, and no "attendee_email": it does not pass
    the check of the required fields. *)
Lemma attendees_list_alone_rejected :
  dict_lookup "attendees" Sample.consult_list = Some (PList [PStr "john@example.com"]) /\
  dict_lookup "attendee_email" Sample.consult_list = None /\
  missing_fields Sample.consult_list = ["attendee_email"] /\
  @validate_calendar_intent reference_runtime Sample.consult_list None None
  = inr (mkValidationResult false None ["Missing required fields: attendee_email"]
           (Some Sample.consult_list)).
Proof. repeat split. Qed.

(** Witness of C5 as amended: the payload above is rejected, and in the
    payload that has both forms the list wins. *)
Lemma attendee_email_is_required_witness :
  @validate_calendar_intent reference_runtime Sample.consult_list None None
  = inr (mkValidationResult false None ["Missing required fields: attendee_email"]
           (Some Sample.consult_list)) /\
  exists items,
    PList [PStr " Mary@Example.com"; PStr "john@example.com"] = PList (map PStr items) /\
    ["mary@example.com"; "john@example.com"] = map normalize_email items.
Proof.
  split.
  - refine (proj1 (proj2 (@attendee_email_is_required reference_runtime
                            Sample.consult_list None None)) _ _).
    + reflexivity.
    + intros field [<- | [<- | [<- | []]]]; eexists; split; reflexivity.
  - refine (proj1 (proj2 (proj2 (@attendee_email_is_required reference_runtime
                                   Sample.consult_both None None))
                     (mkIntent CREATE_CALENDAR_EVENT "Consult" (Some EmptyString)
                        "2024-12-20T14:00:00Z" "2024-12-20T15:00:00Z" "UTC"
                        ["mary@example.com"; "john@example.com"] true
                        (Some "5a61c21aa9c2c687") None None) _)
              (PList [PStr " Mary@Example.com"; PStr "john@example.com"]) _ _).
    + vm_compute. reflexivity.
    + reflexivity.
    + reflexivity.
Defined.

(** Counterexample to C6. The payload lacks the title and the start:
    validation gives one error entry for the two fields, and the
    "missing_fields" of the orchestrator's result is not the list of the
    two names. *)
Lemma missing_fields_one_entry :
  missing_fields Sample.consult_partial = ["title"; "start_time"] /\
  @validate_calendar_intent reference_runtime Sample.consult_partial None None
  = inr (mkValidationResult false None ["Missing required fields: title, start_time"]
           (Some Sample.consult_partial)) /\
  (exists result,
      fst (@handle_tool_call reference_runtime Sample.accepting "create_appointment"
             (PDict Sample.consult_partial) None None None empty_world) = inr result /\
      dict_lookup "missing_fields" result = Some (PList [PStr "Missing required fields"])) /\
  PList [PStr "Missing required fields"] <> PList [PStr "title"; PStr "start_time"].
Proof.
  split; [reflexivity |]. split; [reflexivity |].
  split; [eexists; split; reflexivity | discriminate].
Qed.

(** Witness of C6 as amended, on the same payload. *)
Lemma missing_fields_in_one_error_witness :
  @validate_calendar_intent reference_runtime Sample.consult_partial None None
  = inr (mkValidationResult false None
           ["Missing required fields: " +:+ PyStr.join ", " (missing_fields Sample.consult_partial)]
           (Some Sample.consult_partial)).
Proof.
  refine (proj1 (proj2 (proj2 (proj2
            (@missing_fields_in_one_error reference_runtime Sample.accepting
               Sample.consult_partial None None _))))).
  exists "title". split; [simpl; auto | left; reflexivity].
Defined.

(** C7 at an integer literal of 4301 digits: the decoder raises a
    [ValueError], which is not a [JSONDecodeError], and the exception
    leaves [parse_tool_call_safely]. Beside it a text that is not JSON, a
    JSON array, blanks, and an object, each answered with a pair. *)
Lemma parse_tool_call_safely_cases_witness :
  @parse_tool_call_safely reference_runtime (PStr Sample.long_integer)
  = inl (mkExn ValueError
           ("Exceeds the limit (4300 digits) for integer string conversion: " +:+
            "value has 4301 digits; use sys.set_int_max_str_digits() to increase the limit")) /\
  @parse_tool_call_safely reference_runtime (PStr "not json")
  = inr (None, Some "Invalid JSON: Expecting value: line 1 column 1 (char 0)") /\
  @parse_tool_call_safely reference_runtime (PStr " [1, 2] ")
  = inr (None, Some "Expected object, got list") /\
  @parse_tool_call_safely reference_runtime (PStr "   ")
  = inr (None, Some "Empty tool call data") /\
  @parse_tool_call_safely reference_runtime (PStr "{}") = inr (Some [], None).
Proof.
  split; [| split; [| split; [| split]]].
  - apply (proj1 (@parse_tool_call_safely_cases reference_runtime
                    (PStr Sample.long_integer))).
    exists Sample.long_integer.
    split; [reflexivity |]. split; [vm_compute; discriminate |].
    split; vm_compute; reflexivity.
  - destruct (@parse_tool_call_safely_cases reference_runtime (PStr "not json"))
      as (_ & _ & _ & _ & _ & Hbad & _).
    apply (Hbad "not json"
             (mkExn JSONDecodeError "Expecting value: line 1 column 1 (char 0)"));
      [reflexivity | discriminate | reflexivity | reflexivity].
  - destruct (@parse_tool_call_safely_cases reference_runtime (PStr " [1, 2] "))
      as (_ & _ & _ & _ & _ & _ & Hother & _).
    apply (Hother " [1, 2] " (PList [PInt 1; PInt 2]));
      [reflexivity | discriminate | reflexivity | discriminate].
  - destruct (@parse_tool_call_safely_cases reference_runtime (PStr "   "))
      as (_ & _ & _ & _ & Hblank & _).
    apply (Hblank "   "); reflexivity.
  - destruct (@parse_tool_call_safely_cases reference_runtime (PStr "{}"))
      as (_ & _ & _ & _ & _ & _ & _ & Hobj).
    apply (Hobj "{}" []); [reflexivity | discriminate | reflexivity].
Defined.

(** Witness of C8: a route that raises (the arguments of "escalate_call"
    are a list, which has no [get]), a payload whose "attendees" is a
    dict (indexing it raises a KeyError), and a tool that does not
    exist. *)
Lemma handle_tool_call_never_raises_witness :
  fst (@handle_tool_call reference_runtime Sample.accepting "escalate_call"
         (PList []) None None None empty_world)
  = inr [("success", PBool false);
         ("error", PStr "'list' object has no attribute 'get'");
         ("should_retry", PBool true)] /\
  fst (@handle_tool_call reference_runtime Sample.accepting "create_appointment"
         (PDict (Sample.consult "john@example.com" ++
                 [("attendees", PDict [("primary", PStr "john@example.com")])]))
         None None None empty_world)
  = inr [("success", PBool false); ("error", PStr "0"); ("should_retry", PBool true)] /\
  fst (@handle_tool_call reference_runtime Sample.accepting "book_flight"
         (PDict []) None None None empty_world)
  = inr [("success", PBool false);
         ("error", PStr "Unknown tool: book_flight");
         ("should_retry", PBool false)].
Proof.
  split; [| split].
  - destruct (@handle_tool_call_never_raises reference_runtime Sample.accepting
                "escalate_call" (PList []) None None None empty_world)
      as (result & w' & Heq & Hraises & _).
    rewrite Heq. cbn [fst]. f_equal.
    apply (Hraises (mkExn AttributeError "'list' object has no attribute 'get'")
                   (snd (read_clock Sample.accepting empty_world))).
    reflexivity.
  - destruct (@handle_tool_call_never_raises reference_runtime Sample.accepting
                "create_appointment"
                (PDict (Sample.consult "john@example.com" ++
                        [("attendees", PDict [("primary", PStr "john@example.com")])]))
                None None None empty_world)
      as (result & w' & Heq & Hraises & _).
    rewrite Heq. cbn [fst]. f_equal.
    apply (Hraises (mkExn KeyError "0") (snd (read_clock Sample.accepting empty_world))).
    vm_compute. reflexivity.
  - destruct (@handle_tool_call_never_raises reference_runtime Sample.accepting
                "book_flight" (PDict []) None None None empty_world)
      as (result & w' & Heq & _ & _ & Hunknown).
    rewrite Heq. cbn [fst]. f_equal. apply Hunknown.
    intros [H | [H | [H | [H | []]]]]; discriminate H.
Defined.

(** Witness of C9: the record of the executed sample intent is reset, and
    the intent is executed again. *)
Lemma reset_execution_purges_witness :
  let w := executed_once Sample.accepting in
  let w1 := snd (reset_execution "ec55823e2cb65a1d" w) in
  (fst (reset_execution "ec55823e2cb65a1d" w) = true /\
   executions w1 !! "ec55823e2cb65a1d" = None /\
   ("ec55823e2cb65a1d" ∉ locks w1)) /\
  reset_execution "ec55823e2cb65a1d" empty_world = (false, empty_world) /\
  was_executed w1 "ec55823e2cb65a1d" = false /\
  er_status (fst (@execute_calendar_intent reference_runtime Sample.accepting Sample.intent w1))
  <> DUPLICATE /\
  exists payload,
    calls (snd (@execute_calendar_intent reference_runtime Sample.accepting Sample.intent w1))
    = calls w1 ++ [payload].
Proof.
  destruct (@reset_execution_purges reference_runtime Sample.accepting) as (H1 & H2 & H3).
  cbn zeta. split; [| split].
  - edestruct (H1 "ec55823e2cb65a1d" (executed_once Sample.accepting))
      as (Htrue & Hgone & Hlock & _).
    + vm_compute. reflexivity.
    + auto.
  - apply H2. reflexivity.
  - edestruct (H3 Sample.intent (executed_once Sample.accepting))
      as (Hwas & Hnot & _ & Hcall).
    + apply reach_finish, reach_begin, reach_start.
    + discriminate.
    + vm_compute. reflexivity.
    + vm_compute. reflexivity.
    + auto.
Defined.

(** Witness of C10: the ledger after the sample intent has been executed. *)
Lemma stored_records_status_witness :
  let w := executed_once Sample.accepting in
  (forall id r, executions w !! id = Some r ->
                er_status r = EXECUTING \/ er_status r = EXECUTED \/ er_status r = FAILED) /\
  (was_executed w "ec55823e2cb65a1d" = true <->
   exists r, executions w !! "ec55823e2cb65a1d" = Some r /\ er_status r = EXECUTED).
Proof.
  destruct (@stored_records_status reference_runtime Sample.accepting
              (executed_once Sample.accepting)) as (H1 & _ & _ & H4).
  - apply reach_finish, reach_begin, reach_start.
  - split; [exact H1 | exact (H4 "ec55823e2cb65a1d")].
Defined.

(** * Further properties of the code *)

(** ** The executor, case by case *)

Section Executor.

Context `{rt : PyRuntime}.
Variable env : Env.

(** The world once the body under the lock has begun, when it has not
    met a duplicate. *)
Lemma execute_begin_world intent w :
  match executions w !! ledger_key intent with
  | Some existing => er_status existing <> EXECUTED /\ er_status existing <> EXECUTING
  | None => True
  end ->
  execute_begin env intent w
  = (Started,
     mkWorld (<[ledger_key intent :=
                  mkExecutionResult false EXECUTING (ledger_key intent) (PDict []) None false None]>
                (executions w))
             ({[ledger_key intent]} ∪ locks w) (calls w) (ticks w)).
Proof.
  intros Hlook.
  assert (match executions w !! ledger_key intent with
          | Some existing => status_in (er_status existing) [EXECUTED; EXECUTING]
          | None => false
          end = false) as Hin.
  { destruct (executions w !! ledger_key intent) as [existing |]; [| reflexivity].
    destruct Hlook as [H1 H2]. destruct (er_status existing); simpl; congruence. }
  unfold execute_begin, under_lock, _get_lock, set_locks. cbn [executions]. rewrite Hin. reflexivity.
Qed.

(** The locks after a call: the lock of the identity has been made and
    no lock has been taken away. *)
Lemma execute_begin_locks intent w :
  locks (snd (execute_begin env intent w)) = {[ledger_key intent]} ∪ locks w /\
  calls (snd (execute_begin env intent w)) = calls w /\
  (ticks w <= ticks (snd (execute_begin env intent w)))%nat /\
  forall j, j <> ledger_key intent ->
            executions (snd (execute_begin env intent w)) !! j = executions w !! j.
Proof.
  unfold execute_begin, under_lock, _get_lock, set_locks. cbn [executions].
  destruct (match executions w !! ledger_key intent with
            | Some existing => status_in (er_status existing) [EXECUTED; EXECUTING]
            | None => false
            end); cbn.
  - repeat split; try lia; auto.
  - repeat split; try lia. intros j Hne. apply lookup_insert_ne. congruence.
Qed.

Lemma call_zapier_frame intent w :
  locks (snd (_call_zapier_webhook env intent w)) = locks w /\
  executions (snd (_call_zapier_webhook env intent w)) = executions w /\
  (ticks w <= ticks (snd (_call_zapier_webhook env intent w)))%nat /\
  (calls (snd (_call_zapier_webhook env intent w)) = calls w \/
   exists payload, calls (snd (_call_zapier_webhook env intent w)) = calls w ++ [payload]).
Proof.
  unfold _call_zapier_webhook, to_zapier_payload.
  destruct (PyStr.is_empty (ZAPIER_WEBHOOK_URL env)); [simpl; auto |].
  destruct (attendees intent) as [| primary others]; [simpl; auto |].
  simpl. set (payload := mkZapierPayload _ _ _ _ _ _ _ _ _ _ _).
  destruct (http_post env (calls w) payload) as [code text | e];
    [| simpl; repeat split; try lia; eauto].
  destruct (is_failure_status code); [simpl; repeat split; try lia; eauto |].
  destruct (try_except (json_loads text) JSONDecodeError _) as [e | v];
    simpl; repeat split; try lia; eauto.
Qed.

Lemma execute_finish_frame intent w :
  locks (snd (execute_finish env intent w)) = locks w /\
  (ticks w <= ticks (snd (execute_finish env intent w)))%nat /\
  (calls (snd (execute_finish env intent w)) = calls w \/
   exists payload, calls (snd (execute_finish env intent w)) = calls w ++ [payload]) /\
  forall j, j <> ledger_key intent ->
            executions (snd (execute_finish env intent w)) !! j = executions w !! j.
Proof.
  destruct (call_zapier_frame intent w) as (Hlocks & Hex & Hticks & Hcalls).
  unfold execute_finish.
  destruct (_call_zapier_webhook env intent w) as [[e | r] w1]; cbn in *.
  - repeat split; try assumption.
    intros j Hne. rewrite lookup_insert_ne by congruence. rewrite Hex. reflexivity.
  - repeat split; try assumption.
    intros j Hne. rewrite lookup_insert_ne by congruence. rewrite Hex. reflexivity.
Qed.

(** What a call of the executor leaves alone. *)
Lemma execute_frame intent w :
  let w' := snd (execute_calendar_intent env intent w) in
  (forall j, j <> ledger_key intent -> executions w' !! j = executions w !! j) /\
  locks w' = {[ledger_key intent]} ∪ locks w /\
  is_Some (executions w' !! ledger_key intent) /\
  (calls w' = calls w \/ exists payload, calls w' = calls w ++ [payload]).
Proof.
  cbn zeta.
  destruct (execute_begin_locks intent w) as (Hlocks & Hcalls & _ & Hframe).
  destruct (executions w !! ledger_key intent) as [existing |] eqn:Hlook.
  - destruct (status_in (er_status existing) [EXECUTED; EXECUTING]) eqn:Hin.
    + apply status_in_spec in Hin. simpl in Hin.
      assert (er_status existing = EXECUTED \/ er_status existing = EXECUTING) as Hst
        by (destruct Hin as [H | [H | []]]; auto).
      destruct (execute_begin_duplicate env intent w existing Hlook Hst)
        as (r & w1 & Hbegin & _ & Hex & Hc).
      unfold execute_calendar_intent. rewrite Hbegin in *. cbn in *.
      repeat split; auto. rewrite Hex, Hlook. eauto.
    + assert (er_status existing <> EXECUTED /\ er_status existing <> EXECUTING) as Hne.
      { split; intros Heq; rewrite Heq in Hin; discriminate. }
      pose proof (execute_begin_started env intent w) as Hstart. rewrite Hlook in Hstart.
      destruct (Hstart Hne) as (mark & w1 & Hbegin & _ & _ & _).
      unfold execute_calendar_intent. rewrite Hbegin in *. cbn [snd] in *.
      destruct (execute_finish_frame intent w1) as (Hl & _ & Hc & Hf).
      destruct (execute_finish_spec env intent w1) as (Hex & _).
      repeat split.
      * intros j Hne'. rewrite Hf, Hframe by assumption. reflexivity.
      * congruence.
      * rewrite Hex, lookup_insert_eq. eauto.
      * rewrite <- Hcalls. exact Hc.
  - pose proof (execute_begin_started env intent w) as Hstart. rewrite Hlook in Hstart.
    destruct (Hstart I) as (mark & w1 & Hbegin & _ & _ & _).
    unfold execute_calendar_intent. rewrite Hbegin in *. cbn [snd] in *.
    destruct (execute_finish_frame intent w1) as (Hl & _ & Hc & Hf).
    destruct (execute_finish_spec env intent w1) as (Hex & _).
    repeat split.
    + intros j Hne'. rewrite Hf, Hframe by assumption. reflexivity.
    + congruence.
    + rewrite Hex, lookup_insert_eq. eauto.
    + rewrite <- Hcalls. exact Hc.
Qed.

(** X1. A call to execute an intent touches its own identity only: the
    record of every other identity is as it was, the lock of the identity
    exists afterwards and no other lock is made or removed, the identity
    has a record afterwards, and the webhook has received one request at
    most. *)
Theorem execute_touches_own_identity intent w :
  let w' := snd (execute_calendar_intent env intent w) in
  (forall j, j <> ledger_key intent -> executions w' !! j = executions w !! j) /\
  locks w' = {[ledger_key intent]} ∪ locks w /\
  is_Some (executions w' !! ledger_key intent) /\
  (calls w' = calls w \/ exists payload, calls w' = calls w ++ [payload]).
Proof.
  cbn zeta.
  destruct (execute_begin_locks intent w) as (Hlocks & Hcalls & _ & Hframe).
  destruct (executions w !! ledger_key intent) as [existing |] eqn:Hlook.
  - destruct (status_in (er_status existing) [EXECUTED; EXECUTING]) eqn:Hin.
    + apply status_in_spec in Hin. simpl in Hin.
      assert (er_status existing = EXECUTED \/ er_status existing = EXECUTING) as Hst
        by (destruct Hin as [H | [H | []]]; auto).
      destruct (execute_begin_duplicate env intent w existing Hlook Hst)
        as (r & w1 & Hbegin & _ & Hex & Hc).
      unfold execute_calendar_intent. rewrite Hbegin in *. cbn in *.
      repeat split; auto. rewrite Hex, Hlook. eauto.
    + assert (er_status existing <> EXECUTED /\ er_status existing <> EXECUTING) as Hne.
      { split; intros Heq; rewrite Heq in Hin; discriminate. }
      pose proof (execute_begin_started env intent w) as Hstart. rewrite Hlook in Hstart.
      destruct (Hstart Hne) as (mark & w1 & Hbegin & _ & _ & _).
      unfold execute_calendar_intent. rewrite Hbegin in *. cbn [snd] in *.
      destruct (execute_finish_frame intent w1) as (Hl & _ & Hc & Hf).
      destruct (execute_finish_spec env intent w1) as (Hex & _).
      repeat split.
      * intros j Hne'. rewrite Hf, Hframe by assumption. reflexivity.
      * congruence.
      * rewrite Hex, lookup_insert_eq. eauto.
      * rewrite <- Hcalls. exact Hc.
  - pose proof (execute_begin_started env intent w) as Hstart. rewrite Hlook in Hstart.
    destruct (Hstart I) as (mark & w1 & Hbegin & _ & _ & _).
    unfold execute_calendar_intent. rewrite Hbegin in *. cbn [snd] in *.
    destruct (execute_finish_frame intent w1) as (Hl & _ & Hc & Hf).
    destruct (execute_finish_spec env intent w1) as (Hex & _).
    repeat split.
    + intros j Hne'. rewrite Hf, Hframe by assumption. reflexivity.
    + congruence.
    + rewrite Hex, lookup_insert_eq. eauto.
    + rewrite <- Hcalls. exact Hc.
Qed.

End Executor.

(** ** The executor and the answers of the webhook *)

Section Answers.

Context `{rt : PyRuntime}.
Variable env : Env.

(** A call that is not stopped by the record it finds is the second half
    of the body run on the world where the record is marked. *)
Lemma execute_not_duplicate intent w :
  match executions w !! ledger_key intent with
  | Some existing => er_status existing <> EXECUTED /\ er_status existing <> EXECUTING
  | None => True
  end ->
  execute_calendar_intent env intent w
  = execute_finish env intent
      (mkWorld (<[ledger_key intent :=
                    mkExecutionResult false EXECUTING (ledger_key intent) (PDict []) None false None]>
                  (executions w))
               ({[ledger_key intent]} ∪ locks w) (calls w) (ticks w)).
Proof.
  intros Hlook. unfold execute_calendar_intent.
  rewrite (execute_begin_world env intent w Hlook). reflexivity.
Qed.

Lemma nothing_executed_lookup w id :
  nothing_executed w ->
  match executions w !! id with
  | Some existing => er_status existing <> EXECUTED /\ er_status existing <> EXECUTING
  | None => True
  end.
Proof.
  intros Hnone. destruct (executions w !! id) as [r |] eqn:Hlook; [eauto | exact I].
Qed.

Lemma nothing_executed_failed w id msg marked held sent now :
  nothing_executed w ->
  nothing_executed
    (mkWorld (<[id := failed_result id msg]> (<[id := marked]> (executions w)))
             held sent now).
Proof.
  intros Hnone j r. cbn [executions]. rewrite insert_insert_eq.
  destruct (decide (id = j)) as [<- | Hd].
  - rewrite lookup_insert_eq. intros [= <-]. cbn. split; discriminate.
  - rewrite lookup_insert_ne by assumption. apply Hnone.
Qed.

(** With no destination configured, the second half of the body fails
    before any request. *)
Lemma execute_finish_unconfigured intent w :
  PyStr.is_empty (ZAPIER_WEBHOOK_URL env) = true ->
  execute_finish env intent w
  = (failed_result (ledger_key intent) "ZAPIER_WEBHOOK_URL not configured",
     set_executions
       (<[ledger_key intent :=
            failed_result (ledger_key intent) "ZAPIER_WEBHOOK_URL not configured"]>
          (executions w)) w).
Proof.
  intros Hurl. unfold execute_finish, _call_zapier_webhook. rewrite Hurl. reflexivity.
Qed.

(** X2. With no webhook URL configured nothing is ever sent. Whatever the
    ledger holds, a run of calls leaves the call log of the webhook as it
    was, and each call either meets a duplicate or fails with the message
    that the URL is not configured. From a ledger where nothing is
    EXECUTED or EXECUTING every call of the run fails so, and still
    nothing is EXECUTED or EXECUTING afterwards. *)
Theorem unconfigured_webhook_sends_nothing :
  PyStr.is_empty (ZAPIER_WEBHOOK_URL env) = true ->
  forall intents w,
    calls (snd (execute_all env intents w)) = calls w /\
    Forall (fun r => is_duplicate_result r \/
                     (er_status r = FAILED /\
                      er_error r = Some "ZAPIER_WEBHOOK_URL not configured"))
           (fst (execute_all env intents w)) /\
    (nothing_executed w ->
     fst (execute_all env intents w)
     = map (fun i => failed_result (ledger_key i) "ZAPIER_WEBHOOK_URL not configured") intents /\
     nothing_executed (snd (execute_all env intents w))).
Proof.
  intros Hurl. induction intents as [| intent rest IH]; intros w.
  - cbn. split; [reflexivity |]. split; [constructor |]. auto.
  - cbn [execute_all].
    assert (calls (snd (execute_calendar_intent env intent w)) = calls w /\
            (is_duplicate_result (fst (execute_calendar_intent env intent w)) \/
             (er_status (fst (execute_calendar_intent env intent w)) = FAILED /\
              er_error (fst (execute_calendar_intent env intent w))
              = Some "ZAPIER_WEBHOOK_URL not configured")) /\
            (nothing_executed w ->
             fst (execute_calendar_intent env intent w)
             = failed_result (ledger_key intent) "ZAPIER_WEBHOOK_URL not configured" /\
             nothing_executed (snd (execute_calendar_intent env intent w)))) as (Hc & Hr & Hn).
    { assert (forall w0,
                 match executions w0 !! ledger_key intent with
                 | Some existing =>
                     er_status existing <> EXECUTED /\ er_status existing <> EXECUTING
                 | None => True
                 end ->
                 execute_calendar_intent env intent w0
                 = (failed_result (ledger_key intent) "ZAPIER_WEBHOOK_URL not configured",
                    mkWorld
                      (<[ledger_key intent :=
                           failed_result (ledger_key intent) "ZAPIER_WEBHOOK_URL not configured"]>
                         (<[ledger_key intent :=
                              mkExecutionResult false EXECUTING (ledger_key intent)
                                (PDict []) None false None]> (executions w0)))
                      ({[ledger_key intent]} ∪ locks w0) (calls w0) (ticks w0))) as Hfresh.
      { intros w0 Hlook. rewrite (execute_not_duplicate intent w0 Hlook).
        rewrite (execute_finish_unconfigured _ _ Hurl). reflexivity. }
      destruct (executions w !! ledger_key intent) as [existing |] eqn:Hlook.
      - destruct (status_in (er_status existing) [EXECUTED; EXECUTING]) eqn:Hin.
        + apply status_in_spec in Hin. simpl in Hin.
          assert (er_status existing = EXECUTED \/ er_status existing = EXECUTING) as Hst
            by (destruct Hin as [H | [H | []]]; auto).
          destruct (execute_duplicate env intent w existing Hlook Hst) as (Hdup & _ & Hcalls).
          split; [assumption |]. split; [left; assumption |].
          intros Hnone. destruct (Hnone _ _ Hlook) as [H1 H2]. destruct Hst; contradiction.
        + assert (er_status existing <> EXECUTED /\ er_status existing <> EXECUTING) as Hne.
          { split; intros Heq; rewrite Heq in Hin; discriminate. }
          specialize (Hfresh w). rewrite Hlook in Hfresh. rewrite (Hfresh Hne).
          cbn [fst snd calls failed_result er_status er_error].
          split; [reflexivity |]. split; [right; auto |].
          intros Hnone. split; [reflexivity |]. apply nothing_executed_failed, Hnone.
      - specialize (Hfresh w). rewrite Hlook in Hfresh. rewrite (Hfresh I).
        cbn [fst snd calls failed_result er_status er_error].
        split; [reflexivity |]. split; [right; auto |].
        intros Hnone. split; [reflexivity |]. apply nothing_executed_failed, Hnone. }
    destruct (execute_calendar_intent env intent w) as [r w1]. cbn [fst snd] in *.
    destruct (IH w1) as (IHc & IHr & IHn).
    destruct (execute_all env rest w1) as [rs w2]. cbn [fst snd] in *.
    split; [congruence |]. split; [constructor; assumption |].
    intros Hnone. destruct (Hn Hnone) as [-> Hnone1].
    destruct (IHn Hnone1) as [-> Hnone2]. auto.
Qed.

End Answers.


Section Outcomes.

Context `{rt : PyRuntime}.
Variable env : Env.

Lemma is_failure_status_spec code :
  is_failure_status code = false <-> code = 200 \/ code = 201 \/ code = 202.
Proof.
  unfold is_failure_status. cbn [existsb]. rewrite negb_false_iff, !orb_true_iff.
  rewrite !Z.eqb_eq. intuition discriminate.
Qed.

(** X3. A status code other than 200, 201 and 202 is a failure, 204 and
    the other 2xx codes included. When a webhook URL is configured and the
    record found does not stop the call, an answer with such a code ends
    the call with a FAILED result whose error is the code and the body
    after "Zapier returned"; the result is stored under the identity, one
    request has been sent, and the identity does not count as executed. *)
Theorem refused_status_is_failure intent primary others w code text :
  PyStr.is_empty (ZAPIER_WEBHOOK_URL env) = false ->
  attendees intent = primary :: others ->
  match executions w !! ledger_key intent with
  | Some existing => er_status existing <> EXECUTED /\ er_status existing <> EXECUTING
  | None => True
  end ->
  (forall payload, http_post env (calls w) payload = Responded code text) ->
  code <> 200 -> code <> 201 -> code <> 202 ->
  let r := fst (execute_calendar_intent env intent w) in
  let w' := snd (execute_calendar_intent env intent w) in
  r = failed_result (ledger_key intent)
        ("Zapier returned " +:+ PyStr.of_Z code +:+ ": " +:+ text) /\
  executions w' !! ledger_key intent = Some r /\
  (exists payload, calls w' = calls w ++ [payload]) /\
  was_executed w' (ledger_key intent) = false.
Proof.
  intros Hurl Hatt Hlook Hpost H200 H201 H202.
  assert (is_failure_status code = true) as Hfail.
  { destruct (is_failure_status code) eqn:Hf; [reflexivity |].
    apply is_failure_status_spec in Hf. lia. }
  cbv zeta. rewrite (execute_not_duplicate env intent w Hlook).
  unfold execute_finish, _call_zapier_webhook, to_zapier_payload.
  rewrite Hurl, Hatt. cbn [read_clock calls executions locks ticks].
  rewrite Hpost, Hfail.
  cbn [raise new_ExecutionResult exn_str fst snd log_call set_executions
       executions calls locks ticks].
  unfold failed_result, was_executed, set_executions.
  cbn [fst snd executions calls locks ticks].
  rewrite !lookup_insert_eq. cbn [er_status status_in].
  split; [reflexivity |]. split; [reflexivity |].
  split; [eexists; reflexivity | reflexivity].
Qed.

(** An accepted request, step by step. *)
Lemma execute_accepted intent primary others w code text :
  PyStr.is_empty (ZAPIER_WEBHOOK_URL env) = false ->
  attendees intent = primary :: others ->
  match executions w !! ledger_key intent with
  | Some existing => er_status existing <> EXECUTED /\ er_status existing <> EXECUTING
  | None => True
  end ->
  (forall payload, http_post env (calls w) payload = Responded code text) ->
  code = 200 \/ code = 201 \/ code = 202 ->
  let r := fst (execute_calendar_intent env intent w) in
  let w' := snd (execute_calendar_intent env intent w) in
  executions w' !! ledger_key intent = Some r /\
  (exists payload,
      fst (to_zapier_payload env intent w) = inr payload /\
      zp_created_at payload = utcnow_isoformat env (ticks w) /\
      calls w' = calls w ++ [payload]) /\
  match json_decode text with
  | inr v =>
      r = mkExecutionResult true EXECUTED (ledger_key intent)
            (if truthy v then v else PDict [])
            None false (Some (utcnow_isoformat env (S (ticks w)))) /\
      was_executed w' (ledger_key intent) = true
  | inl e =>
      if exn_isinstance e JSONDecodeError
      then r = mkExecutionResult true EXECUTED (ledger_key intent)
                 (PDict [("status", PStr "accepted"); ("raw", PStr text)])
                 None false (Some (utcnow_isoformat env (S (ticks w)))) /\
           was_executed w' (ledger_key intent) = true
      else r = failed_result (ledger_key intent) (exn_str e) /\
           was_executed w' (ledger_key intent) = false
  end.
Proof.
  intros Hurl Hatt Hlook Hpost Hcode.
  apply is_failure_status_spec in Hcode.
  cbv zeta. rewrite (execute_not_duplicate env intent w Hlook).
  unfold execute_finish, _call_zapier_webhook, to_zapier_payload.
  rewrite Hurl, Hatt. cbn [read_clock calls executions locks ticks].
  rewrite Hpost, Hcode.
  unfold json_loads, was_executed.
  destruct (json_decode text) as [e | v]; cbn [try_except];
    [destruct (exn_isinstance e JSONDecodeError) eqn:Hcls |].
  - cbn [new_ExecutionResult truthy read_clock fst snd log_call set_executions
         executions calls locks ticks app negb].
    rewrite lookup_insert_eq. cbn.
    split; [reflexivity |]. split; [| split; reflexivity].
    eexists. split; [reflexivity |]. split; reflexivity.
  - cbn [new_ExecutionResult read_clock fst snd log_call set_executions
         executions calls locks ticks].
    unfold failed_result. rewrite lookup_insert_eq. cbn.
    split; [reflexivity |]. split; [| split; reflexivity].
    eexists. split; [reflexivity |]. split; reflexivity.
  - cbn [new_ExecutionResult read_clock fst snd log_call set_executions
         executions calls locks ticks].
    rewrite lookup_insert_eq. cbn [er_status status_in].
    split; [reflexivity |]. split; [| split; reflexivity].
    eexists. split; [reflexivity |]. split; reflexivity.
Qed.

(** X4. A request answered 200, 201 or 202 is sent once and the result of
    the call is stored under the identity; what the result is depends on
    the body. A body that decodes gives an EXECUTED result that keeps the
    decoded JSON, an empty dict in place of a falsy value such as null or
    []. A body on which the decoder raises [JSONDecodeError] gives an
    EXECUTED result that keeps a dict with "status" accepted and the raw
    text. A body on which the decoder raises another exception (an
    integer of too many digits, bytes that are not UTF-8) gives a FAILED
    result with the text of the exception, although the webhook accepted
    the request: [except json.JSONDecodeError] lets the exception through
    to the handler of STEP 5. The request sent is the payload of the
    intent, stamped with the first reading of the clock; an EXECUTED
    result is stamped with the second. *)
Theorem accepted_answer_is_stored intent primary others w code text :
  PyStr.is_empty (ZAPIER_WEBHOOK_URL env) = false ->
  attendees intent = primary :: others ->
  match executions w !! ledger_key intent with
  | Some existing => er_status existing <> EXECUTED /\ er_status existing <> EXECUTING
  | None => True
  end ->
  (forall payload, http_post env (calls w) payload = Responded code text) ->
  code = 200 \/ code = 201 \/ code = 202 ->
  let r := fst (execute_calendar_intent env intent w) in
  let w' := snd (execute_calendar_intent env intent w) in
  executions w' !! ledger_key intent = Some r /\
  (exists payload,
      fst (to_zapier_payload env intent w) = inr payload /\
      zp_created_at payload = utcnow_isoformat env (ticks w) /\
      calls w' = calls w ++ [payload]) /\
  match json_decode text with
  | inr v =>
      r = mkExecutionResult true EXECUTED (ledger_key intent)
            (if truthy v then v else PDict [])
            None false (Some (utcnow_isoformat env (S (ticks w)))) /\
      was_executed w' (ledger_key intent) = true
  | inl e =>
      if exn_isinstance e JSONDecodeError
      then r = mkExecutionResult true EXECUTED (ledger_key intent)
                 (PDict [("status", PStr "accepted"); ("raw", PStr text)])
                 None false (Some (utcnow_isoformat env (S (ticks w)))) /\
           was_executed w' (ledger_key intent) = true
      else r = failed_result (ledger_key intent) (exn_str e) /\
           was_executed w' (ledger_key intent) = false
  end.
Proof.
  intros Hurl Hatt Hlook Hpost Hcode.
  apply is_failure_status_spec in Hcode.
  cbv zeta. rewrite (execute_not_duplicate env intent w Hlook).
  unfold execute_finish, _call_zapier_webhook, to_zapier_payload.
  rewrite Hurl, Hatt. cbn [read_clock calls executions locks ticks].
  rewrite Hpost, Hcode.
  unfold json_loads, was_executed.
  destruct (json_decode text) as [e | v]; cbn [try_except];
    [destruct (exn_isinstance e JSONDecodeError) eqn:Hcls |].
  - cbn [new_ExecutionResult truthy read_clock fst snd log_call set_executions
         executions calls locks ticks app negb].
    rewrite lookup_insert_eq. cbn.
    split; [reflexivity |]. split; [| split; reflexivity].
    eexists. split; [reflexivity |]. split; reflexivity.
  - cbn [new_ExecutionResult read_clock fst snd log_call set_executions
         executions calls locks ticks].
    unfold failed_result. rewrite lookup_insert_eq. cbn.
    split; [reflexivity |]. split; [| split; reflexivity].
    eexists. split; [reflexivity |]. split; reflexivity.
  - cbn [new_ExecutionResult read_clock fst snd log_call set_executions
         executions calls locks ticks].
    rewrite lookup_insert_eq. cbn [er_status status_in].
    split; [reflexivity |]. split; [| split; reflexivity].
    eexists. split; [reflexivity |]. split; reflexivity.
Qed.

End Outcomes.


Lemma unconfigured_webhook_sends_nothing_witness :
  let run := @execute_all reference_runtime unconfigured
               [Sample.intent; with_identity "other" Sample.intent; Sample.intent]
               empty_world in
  calls (snd run) = calls empty_world /\
  Forall (fun r => is_duplicate_result r \/
                   (er_status r = FAILED /\
                    er_error r = Some "ZAPIER_WEBHOOK_URL not configured"))
         (fst run) /\
  (nothing_executed empty_world ->
   fst run
   = map (fun i => failed_result (ledger_key i) "ZAPIER_WEBHOOK_URL not configured")
       [Sample.intent; with_identity "other" Sample.intent; Sample.intent] /\
   nothing_executed (snd run)).
Proof.
  apply (@unconfigured_webhook_sends_nothing reference_runtime unconfigured).
  reflexivity.
Defined.

Lemma refused_status_is_failure_witness :
  let env := answering 204 EmptyString in
  let r := fst (@execute_calendar_intent reference_runtime env Sample.intent empty_world) in
  let w' := snd (@execute_calendar_intent reference_runtime env Sample.intent empty_world) in
  r = failed_result (ledger_key Sample.intent)
        ("Zapier returned " +:+ PyStr.of_Z 204 +:+ ": " +:+ EmptyString) /\
  executions w' !! ledger_key Sample.intent = Some r /\
  (exists payload, calls w' = calls empty_world ++ [payload]) /\
  was_executed w' (ledger_key Sample.intent) = false.
Proof.
  apply (@refused_status_is_failure reference_runtime (answering 204 EmptyString)
           Sample.intent "john@example.com" [] empty_world 204 EmptyString).
  - reflexivity.
  - reflexivity.
  - vm_compute. exact I.
  - intros payload. reflexivity.
  - lia.
  - lia.
  - lia.
Defined.

(** X4 at three bodies: a text that is no JSON is kept raw, the JSON null
    is replaced by an empty dict, and an integer of 4301 digits, on which
    the decoder raises a [ValueError], makes the accepted request a
    FAILED record. *)
Lemma accepted_answer_is_stored_witness :
  (let env := answering 202 "queued" in
   let r := fst (@execute_calendar_intent reference_runtime env Sample.intent empty_world) in
   let w' := snd (@execute_calendar_intent reference_runtime env Sample.intent empty_world) in
   r = mkExecutionResult true EXECUTED (ledger_key Sample.intent)
         (PDict [("status", PStr "accepted"); ("raw", PStr "queued")])
         None false (Some (utcnow_isoformat env 1%nat)) /\
   was_executed w' (ledger_key Sample.intent) = true) /\
  (let env := answering 200 "null" in
   let r := fst (@execute_calendar_intent reference_runtime env Sample.intent empty_world) in
   let w' := snd (@execute_calendar_intent reference_runtime env Sample.intent empty_world) in
   r = mkExecutionResult true EXECUTED (ledger_key Sample.intent) (PDict [])
         None false (Some (utcnow_isoformat env 1%nat)) /\
   was_executed w' (ledger_key Sample.intent) = true) /\
  (let env := answering 200 Sample.long_integer in
   let r := fst (@execute_calendar_intent reference_runtime env Sample.intent empty_world) in
   let w' := snd (@execute_calendar_intent reference_runtime env Sample.intent empty_world) in
   r = failed_result (ledger_key Sample.intent)
         ("Exceeds the limit (4300 digits) for integer string conversion: " +:+
          "value has 4301 digits; use sys.set_int_max_str_digits() to increase the limit") /\
   was_executed w' (ledger_key Sample.intent) = false).
Proof.
  assert (forall code text,
             code = 200 \/ code = 201 \/ code = 202 ->
             let env := answering code text in
             let r := fst (@execute_calendar_intent reference_runtime env
                             Sample.intent empty_world) in
             let w' := snd (@execute_calendar_intent reference_runtime env
                              Sample.intent empty_world) in
             match @json_decode reference_runtime text with
             | inr v =>
                 r = mkExecutionResult true EXECUTED (ledger_key Sample.intent)
                       (if truthy v then v else PDict [])
                       None false (Some (utcnow_isoformat env 1%nat)) /\
                 was_executed w' (ledger_key Sample.intent) = true
             | inl e =>
                 if exn_isinstance e JSONDecodeError
                 then r = mkExecutionResult true EXECUTED (ledger_key Sample.intent)
                            (PDict [("status", PStr "accepted"); ("raw", PStr text)])
                            None false (Some (utcnow_isoformat env 1%nat)) /\
                      was_executed w' (ledger_key Sample.intent) = true
                 else r = failed_result (ledger_key Sample.intent) (exn_str e) /\
                      was_executed w' (ledger_key Sample.intent) = false
             end) as Hat.
  { intros code text Hcode.
    refine (proj2 (proj2 (@accepted_answer_is_stored reference_runtime (answering code text)
                            Sample.intent "john@example.com" [] empty_world code text
                            _ _ _ _ Hcode))).
    - reflexivity.
    - reflexivity.
    - vm_compute. exact I.
    - intros payload. reflexivity. }
  split; [| split].
  - exact (Hat 202 "queued" (or_intror (or_intror eq_refl))).
  - exact (Hat 200 "null" (or_introl eq_refl)).
  - exact (Hat 200 Sample.long_integer (or_introl eq_refl)).
Defined.

(** ** The shape of the stored records *)

Section Records.

Context `{rt : PyRuntime}.
Variable env : Env.

Lemma execute_begin_executions intent w :
  executions (snd (execute_begin env intent w)) = executions w \/
  executions (snd (execute_begin env intent w))
  = <[ledger_key intent :=
        mkExecutionResult false EXECUTING (ledger_key intent) (PDict []) None false None]>
      (executions w).
Proof.
  unfold execute_begin, under_lock, _get_lock, set_locks. cbn [executions].
  destruct (match executions w !! ledger_key intent with
            | Some existing => status_in (er_status existing) [EXECUTED; EXECUTING]
            | None => false
            end); [left | right]; reflexivity.
Qed.

Lemma execute_finish_record intent w :
  exists r,
    fst (execute_finish env intent w) = r /\
    executions (snd (execute_finish env intent w))
    = <[ledger_key intent := r]> (executions w) /\
    record_consistent (ledger_key intent) r /\
    (er_status r = EXECUTED \/ er_status r = FAILED).
Proof.
  unfold execute_finish, _call_zapier_webhook, to_zapier_payload, record_consistent.
  destruct (PyStr.is_empty (ZAPIER_WEBHOOK_URL env)).
  { eexists. split; [reflexivity |]. cbn. repeat split; eauto; try (eexists; reflexivity). }
  destruct (attendees intent) as [| primary others].
  { eexists. split; [reflexivity |]. cbn. repeat split; eauto; try (eexists; reflexivity). }
  simpl. set (payload := mkZapierPayload _ _ _ _ _ _ _ _ _ _ _).
  destruct (http_post env (calls w) payload) as [code text | e].
  - destruct (is_failure_status code).
    + eexists. split; [reflexivity |]. cbn. repeat split; eauto; try (eexists; reflexivity).
    + destruct (try_except (json_loads text) JSONDecodeError _) as [e | v].
      * eexists. split; [reflexivity |]. cbn. repeat split; eauto; try (eexists; reflexivity).
      * eexists. split; [reflexivity |]. cbn. repeat split; eauto; try (eexists; reflexivity).
  - eexists. split; [reflexivity |]. cbn. repeat split; eauto; try (eexists; reflexivity).
Qed.

(** X5. Every record of a reachable ledger is filed under its own
    identity, is never flagged as a duplicate, and has the fields its
    status calls for: an EXECUTING record is the bare mark (no success, no
    error, no time, an empty response); an EXECUTED record is a success
    with a completion time and no error; a FAILED record carries an error
    text, no completion time and an empty response. *)
Theorem reachable_records_consistent w :
  reachable env w ->
  forall id r, executions w !! id = Some r -> record_consistent id r.
Proof.
  induction 1 as [| intent w Hw IH | intent w Hw IH | key w Hw IH | w Hw IH]; intros id r.
  - cbn. rewrite lookup_empty. discriminate.
  - destruct (execute_begin_executions intent w) as [-> | ->]; [apply IH |].
    destruct (decide (ledger_key intent = id)) as [<- | Hd].
    + rewrite lookup_insert_eq. intros [= <-]. unfold record_consistent. cbn.
      repeat split; reflexivity.
    + rewrite lookup_insert_ne by assumption. apply IH.
  - destruct (execute_finish_record intent w) as (r' & _ & -> & Hrec & _).
    destruct (decide (ledger_key intent = id)) as [<- | Hd].
    + rewrite lookup_insert_eq. intros [= <-]. assumption.
    + rewrite lookup_insert_ne by assumption. apply IH.
  - unfold reset_execution. destruct (executions w !! key) eqn:Hk; [| apply IH].
    cbn [snd]. unfold set_locks, set_executions. cbn [executions].
    destruct (decide (key = id)) as [<- | Hd].
    + rewrite lookup_delete_eq. discriminate.
    + rewrite lookup_delete_ne by assumption. apply IH.
  - cbn. apply IH.
Qed.

(** X6. A reset that comes while a call is between its mark and the
    answer of the webhook is undone by that call: the reset finds the
    EXECUTING mark, removes it together with the lock and reports true,
    and when the call ends its result is stored all the same, EXECUTED or
    FAILED, under an identity that has no lock any more. *)
Theorem reset_during_execution_is_undone intent w :
  match executions w !! ledger_key intent with
  | Some existing => er_status existing <> EXECUTED /\ er_status existing <> EXECUTING
  | None => True
  end ->
  let w1 := snd (execute_begin env intent w) in
  let w2 := snd (reset_execution (ledger_key intent) w1) in
  let r := fst (execute_finish env intent w2) in
  let w3 := snd (execute_finish env intent w2) in
  fst (reset_execution (ledger_key intent) w1) = true /\
  executions w2 !! ledger_key intent = None /\
  executions w3 !! ledger_key intent = Some r /\
  (er_status r = EXECUTED \/ er_status r = FAILED) /\
  ledger_key intent ∉ locks w3.
Proof.
  intros Hlook. cbv zeta.
  rewrite (execute_begin_world env intent w Hlook). cbn [snd].
  unfold reset_execution. cbn [executions]. rewrite lookup_insert_eq. cbn [fst snd].
  unfold set_locks, set_executions. cbn [executions locks calls ticks].
  split; [reflexivity |]. split; [apply lookup_delete_eq |].
  match goal with
  | |- context [execute_finish env intent ?w0] =>
      destruct (execute_finish_record intent w0) as (r & Hr & Hex & _ & Hst);
      destruct (execute_finish_frame env intent w0) as (Hlocks & _)
  end.
  rewrite Hr, Hex, Hlocks. cbn [executions locks].
  split; [apply lookup_insert_eq |]. split; [assumption |].
  rewrite elem_of_difference, elem_of_singleton. tauto.
Qed.

End Records.

Lemma reachable_records_consistent_witness :
  record_consistent "ec55823e2cb65a1d"
    (failed_result "ec55823e2cb65a1d" "Zapier returned 500: Internal Server Error").
Proof.
  apply (@reachable_records_consistent reference_runtime Sample.flaky
           (executed_once Sample.flaky)).
  - apply reach_finish, reach_begin, reach_start.
  - vm_compute. reflexivity.
Defined.

Lemma reset_during_execution_is_undone_witness :
  let env := Sample.accepting in
  let w1 := snd (execute_begin env Sample.intent empty_world) in
  let w2 := snd (reset_execution (ledger_key Sample.intent) w1) in
  let r := fst (@execute_finish reference_runtime env Sample.intent w2) in
  let w3 := snd (@execute_finish reference_runtime env Sample.intent w2) in
  fst (reset_execution (ledger_key Sample.intent) w1) = true /\
  executions w2 !! ledger_key Sample.intent = None /\
  executions w3 !! ledger_key Sample.intent = Some r /\
  (er_status r = EXECUTED \/ er_status r = FAILED) /\
  ledger_key Sample.intent ∉ locks w3.
Proof.
  apply (@reset_during_execution_is_undone reference_runtime Sample.accepting
           Sample.intent empty_world).
  vm_compute. exact I.
Defined.


(** ** The digest and the identity *)

Lemma be_bytes_length n : forall x, length (Sha256.be_bytes n x) = n.
Proof.
  induction n as [| n IH]; intros x; [reflexivity |].
  cbn [Sha256.be_bytes]. rewrite length_app, IH. cbn. lia.
Qed.

Lemma be_bytes_range n : forall x,
  Forall (fun b => 0 <= b < 256) (Sha256.be_bytes n x).
Proof.
  induction n as [| n IH]; intros x; [constructor |].
  cbn [Sha256.be_bytes]. apply Forall_app. split; [apply IH |].
  constructor; [| constructor].
  change 255 with (Z.ones 8). rewrite Z.land_ones by lia.
  apply Z.mod_pos_bound. reflexivity.
Qed.

Lemma blocks_length n : forall h bytes,
  length h = 8%nat -> length (Sha256.blocks n h bytes) = 8%nat.
Proof.
  induction n as [| n IH]; intros h bytes Hh; [exact Hh |].
  cbn [Sha256.blocks]. apply IH. reflexivity.
Qed.

Lemma digest_length msg : length (Sha256.digest msg) = 32%nat.
Proof.
  unfold Sha256.digest.
  pose proof (blocks_length (Nat.div (length (Sha256.pad msg)) 64) Sha256.H0
                (Sha256.pad msg) eq_refl) as Hlen.
  destruct (Sha256.blocks _ Sha256.H0 (Sha256.pad msg))
    as [| a [| b [| c [| d [| e [| f [| g [| h [| x l]]]]]]]]]; try discriminate Hlen.
  cbn [flat_map]. rewrite !length_app, !be_bytes_length. reflexivity.
Qed.

Lemma digest_range msg : Forall (fun b => 0 <= b < 256) (Sha256.digest msg).
Proof.
  unfold Sha256.digest. induction (Sha256.blocks _ _ _) as [| x l IH]; [constructor |].
  cbn [flat_map]. apply Forall_app. split; [apply be_bytes_range | exact IH].
Qed.

Lemma hex_digit_is_hex n : (n < 16)%N -> is_hex_char (PyStr.hex_digit n) = true.
Proof.
  intros Hn.
  assert (In n [0; 1; 2; 3; 4; 5; 6; 7; 8; 9; 10; 11; 12; 13; 14; 15]%N) as Hin.
  { cbn [In]. lia. }
  cbn [In] in Hin.
  repeat (destruct Hin as [<- | Hin]; [reflexivity |]). destruct Hin.
Qed.

Lemma hex_of_bytes l :
  Forall (fun b => 0 <= b < 256) l ->
  let s := fold_right (fun b acc => PyStr.hex_byte (Z.to_N b) +:+ acc) EmptyString l in
  String.length s = (2 * length l)%nat /\ forallb is_hex_char (PyStr.chars s) = true.
Proof.
  induction 1 as [| b l Hb Hl IH]; [split; reflexivity |].
  cbv zeta in *. unfold PyStr.chars in *. cbn [fold_right].
  change (PyStr.hex_byte (Z.to_N b) +:+ ?acc)
    with (String (PyStr.hex_digit (N.div (Z.to_N b) 16))
            (String (PyStr.hex_digit (N.modulo (Z.to_N b) 16)) acc)).
  cbn [String.length list_ascii_of_string forallb length].
  destruct IH as [IHlen IHhex]. split; [rewrite IHlen; lia |].
  rewrite !hex_digit_is_hex, IHhex; [reflexivity | |].
  - apply N.mod_lt. discriminate.
  - apply N.Div0.div_lt_upper_bound. lia.
Qed.

Lemma hexdigest_spec s :
  String.length (Sha256.hexdigest s) = 64%nat /\
  forallb is_hex_char (PyStr.chars (Sha256.hexdigest s)) = true.
Proof.
  unfold Sha256.hexdigest.
  destruct (hex_of_bytes _ (digest_range (Sha256.encode s))) as [Hlen Hhex].
  rewrite digest_length in Hlen. split; assumption.
Qed.

Lemma take_spec n : forall s,
  String.length (PyStr.take n s) = Nat.min n (String.length s) /\
  (forall p, forallb p (PyStr.chars s) = true ->
             forallb p (PyStr.chars (PyStr.take n s)) = true).
Proof.
  induction n as [| n IH]; intros s; [split; [reflexivity | intros; reflexivity] |].
  destruct s as [| a s]; [split; [reflexivity | intros; reflexivity] |].
  destruct (IH s) as [IHlen IHall].
  cbn [PyStr.take String.length PyStr.chars list_ascii_of_string forallb Nat.min].
  split; [rewrite IHlen; reflexivity |].
  intros p Hp. apply andb_true_iff in Hp as [Ha Hs].
  rewrite Ha. apply IHall, Hs.
Qed.

Section Intents.

Context `{rt : PyRuntime}.

(** The identity of a validated intent. *)
Lemma valid_intent_identity args call org i :
  validate_calendar_intent args call org
  = inr (mkValidationResult true (Some i) [] (Some args)) ->
  exists id,
    intent_id i = Some id /\ id <> EmptyString /\ ledger_key i = id /\
    (truthy (dict_get args "intent_id" PNone) = true ->
     dict_lookup "intent_id" args = Some (PStr id)) /\
    (truthy (dict_get args "intent_id" PNone) = false ->
     String.length id = 16%nat /\ forallb is_hex_char (PyStr.chars id) = true).
Proof.
  intros Hv. apply valid_cases in Hv as (_ & key & _ & Hnew).
  apply new_intent_inr in Hnew as (_ & _ & _ & _ & _ & _ & _ & _ & Hid & _).
  cbn [normalized_data nd_intent_id] in Hid. unfold intent_id_of in Hid.
  destruct (truthy (dict_get args "intent_id" PNone)) eqn:Hown.
  - apply check_opt_str_inr in Hid.
    destruct (intent_id i) as [id |] eqn:Hi.
    + exists id. rewrite Hid in Hown. cbn in Hown.
      assert (id <> EmptyString) as Hne by (destruct id; [discriminate | discriminate]).
      split; [reflexivity |]. split; [assumption |].
      split; [unfold ledger_key; rewrite Hi; destruct id; [congruence | reflexivity] |].
      split; [| discriminate].
      intros _. unfold dict_get in Hid.
      destruct (dict_lookup "intent_id" args); [congruence | discriminate].
    + rewrite Hid in Hown. discriminate.
  - assert (Some (PyStr.take 16 (Sha256.hexdigest key)) = intent_id i) as Hid'.
    { cbn [check_opt_str] in Hid. congruence. }
    clear Hid. rename Hid' into Hid.
    exists (PyStr.take 16 (Sha256.hexdigest key)).
    destruct (hexdigest_spec key) as [Hlen Hhex].
    destruct (take_spec 16 (Sha256.hexdigest key)) as [Htake Hall].
    rewrite Hlen in Htake. change (Nat.min 16 64) with 16%nat in Htake.
    assert (PyStr.take 16 (Sha256.hexdigest key) <> EmptyString) as Hne.
    { intros Heq. rewrite Heq in Htake. discriminate. }
    split; [symmetry; assumption |]. split; [assumption |].
    split.
    { unfold ledger_key. rewrite <- Hid. cbn [opt_or].
      destruct (PyStr.take 16 (Sha256.hexdigest key)); [congruence | reflexivity]. }
    split; [discriminate |]. intros _. split; [assumption | apply Hall, Hhex].
Qed.

(** X7. Every validated intent has an identity, and it is not the empty
    text: the fallback "unknown" of the executor is never used for it.
    The identity is the "intent_id" of the payload when the payload has a
    truthy one (a string, or validation fails), and otherwise sixteen
    lower-case hexadecimal digits. *)
Theorem validated_intent_identity args call org i :
  validate_calendar_intent args call org
  = inr (mkValidationResult true (Some i) [] (Some args)) ->
  exists id,
    intent_id i = Some id /\ id <> EmptyString /\ ledger_key i = id /\
    (truthy (dict_get args "intent_id" PNone) = true ->
     dict_lookup "intent_id" args = Some (PStr id)) /\
    (truthy (dict_get args "intent_id" PNone) = false ->
     String.length id = 16%nat /\ forallb is_hex_char (PyStr.chars id) = true).
Proof.
  intros Hv. apply valid_cases in Hv as (_ & key & _ & Hnew).
  apply new_intent_inr in Hnew as (_ & _ & _ & _ & _ & _ & _ & _ & Hid & _).
  cbn [normalized_data nd_intent_id] in Hid. unfold intent_id_of in Hid.
  destruct (truthy (dict_get args "intent_id" PNone)) eqn:Hown.
  - apply check_opt_str_inr in Hid.
    destruct (intent_id i) as [id |] eqn:Hi.
    + exists id. rewrite Hid in Hown. cbn in Hown.
      assert (id <> EmptyString) as Hne by (destruct id; [discriminate | discriminate]).
      split; [reflexivity |]. split; [assumption |].
      split; [unfold ledger_key; rewrite Hi; destruct id; [congruence | reflexivity] |].
      split; [| discriminate].
      intros _. unfold dict_get in Hid.
      destruct (dict_lookup "intent_id" args); [congruence | discriminate].
    + rewrite Hid in Hown. discriminate.
  - assert (Some (PyStr.take 16 (Sha256.hexdigest key)) = intent_id i) as Hid'.
    { cbn [check_opt_str] in Hid. congruence. }
    clear Hid. rename Hid' into Hid.
    exists (PyStr.take 16 (Sha256.hexdigest key)).
    destruct (hexdigest_spec key) as [Hlen Hhex].
    destruct (take_spec 16 (Sha256.hexdigest key)) as [Htake Hall].
    rewrite Hlen in Htake. change (Nat.min 16 64) with 16%nat in Htake.
    assert (PyStr.take 16 (Sha256.hexdigest key) <> EmptyString) as Hne.
    { intros Heq. rewrite Heq in Htake. discriminate. }
    split; [symmetry; assumption |]. split; [assumption |].
    split.
    { unfold ledger_key. rewrite <- Hid. cbn [opt_or].
      destruct (PyStr.take 16 (Sha256.hexdigest key)); [congruence | reflexivity]. }
    split; [discriminate |]. intros _. split; [assumption | apply Hall, Hhex].
Qed.

(** X8. What a validated intent looks like: its action is
    create_calendar_event; its title has between 1 and 255 characters; it
    has at least one attendee and every attendee matches the address
    pattern; it carries the call and the organization it was validated
    for; and where the payload has no "timezone", "description" or
    "send_email", it has UTC, an empty description and send_email set. *)
Theorem validated_intent_well_formed args call org i :
  validate_calendar_intent args call org
  = inr (mkValidationResult true (Some i) [] (Some args)) ->
  action i = CREATE_CALENDAR_EVENT /\
  (1 <= String.length (title i) <= 255)%nat /\
  attendees i <> [] /\
  Forall (fun a => Re.match_anchored email_regex a = true) (attendees i) /\
  call_id i = call /\ org_id i = org /\
  (dict_lookup "timezone" args = None -> timezone i = "UTC") /\
  (dict_lookup "description" args = None -> description i = Some EmptyString) /\
  (dict_lookup "send_email" args = None -> send_email i = true).
Proof.
  intros Hv. apply valid_cases in Hv as (_ & key & _ & Hnew).
  apply new_intent_inr in Hnew
    as (Hact & Htitle & Hdesc & _ & _ & Htz & Hatt & Hsend & _ & Hcall & Horg).
  cbn [normalized_data nd_action nd_title nd_description nd_timezone nd_attendees
       nd_send_email nd_call_id nd_org_id] in *.
  split.
  { cbn in Hact. injection Hact as <-. reflexivity. }
  split.
  { unfold check_title in Htitle.
    destruct (check_str ["title"] _) as [e | s]; [discriminate |].
    destruct (Nat.ltb (String.length s) 1) eqn:H1; [discriminate |].
    destruct (Nat.ltb 255 (String.length s)) eqn:H2; [discriminate |].
    injection Htitle as <-.
    apply Nat.ltb_ge in H1. apply Nat.ltb_ge in H2. lia. }
  apply check_attendees_inr in Hatt as (items & _ & Hne & Hnorm & Hall).
  split.
  { rewrite Hnorm. destruct items; [congruence | discriminate]. }
  split.
  { rewrite Hnorm. apply Forall_map. exact Hall. }
  split; [assumption |]. split; [assumption |].
  unfold dict_get in Htz, Hdesc, Hsend.
  split; [| split].
  - intros Hnone. rewrite Hnone in Htz. cbn in Htz. congruence.
  - intros Hnone. rewrite Hnone in Hdesc. cbn in Hdesc. congruence.
  - intros Hnone. rewrite Hnone in Hsend. cbn in Hsend. congruence.
Qed.

(** X9. When the required fields are there and the "attendees" entry is a
    truthy value that cannot be indexed (a non-empty dict, a non-zero
    integer or True), validation raises the exception of [attendees[0]]:
    KeyError for a dict and TypeError otherwise. It raises a KeyError or
    a TypeError in that case only. *)
Theorem validation_raises_on_unindexable_attendees args call org :
  (missing_fields args = [] ->
   unindexable (dict_get args "attendees" (PList [])) = true ->
   validate_calendar_intent args call org
   = inl (index0_error (dict_get args "attendees" (PList []))) /\
   (exn_class (index0_error (dict_get args "attendees" (PList []))) = KeyError <->
    exists d, dict_get args "attendees" (PList []) = PDict d) /\
   (exn_class (index0_error (dict_get args "attendees" (PList []))) = TypeError <->
    forall d, dict_get args "attendees" (PList []) <> PDict d)) /\
  (forall e,
      validate_calendar_intent args call org = inl e ->
      exn_class e = KeyError \/ exn_class e = TypeError ->
      missing_fields args = [] /\
      unindexable (dict_get args "attendees" (PList [])) = true /\
      e = index0_error (dict_get args "attendees" (PList []))).
Proof.
  pose proof (validate_raises_cases args call org) as Hcases.
  split.
  - intros Hmiss Hu. split; [| split].
    + destruct (validate_calendar_intent args call org) as [e | vr].
      * destruct Hcases as (_ & _ & ->). reflexivity.
      * destruct Hcases as [Hne | Hno]; congruence.
    + destruct (dict_get args "attendees" (PList [])); cbn; split;
        try discriminate; try (intros [d' Hd]; discriminate Hd); eauto.
    + destruct (dict_get args "attendees" (PList [])) as [| b | n | s | l | d]; cbn; split;
        try discriminate; try reflexivity; intros Hnot; try (intros d'; discriminate).
      destruct (Hnot d eq_refl).
  - intros e He _. rewrite He in Hcases. exact Hcases.
Qed.


Lemma field_error_nonempty {A : Type} loc msg (e : list FieldError) :
  @field_error A loc msg = inl e -> e <> [].
Proof. unfold field_error. intros [= <-]. discriminate. Qed.

Lemma run_validator_nonempty {A : Type} loc (m : Result A) e :
  run_validator loc m = inl e -> e <> [].
Proof.
  unfold run_validator. destruct m; [apply field_error_nonempty | discriminate].
Qed.

Lemma check_str_nonempty loc v e : check_str loc v = inl e -> e <> [].
Proof. destruct v; cbn; try apply field_error_nonempty. discriminate. Qed.

Lemma check_opt_str_nonempty loc v e : check_opt_str loc v = inl e -> e <> [].
Proof. destruct v; cbn; try apply field_error_nonempty; discriminate. Qed.

Lemma check_bool_nonempty loc v e : check_bool loc v = inl e -> e <> [].
Proof.
  destruct v as [| b | n | s | l | d]; cbn; try apply field_error_nonempty;
    try discriminate.
  - destruct n as [| [p | p |] | p]; try apply field_error_nonempty; discriminate.
  - repeat match goal with
           | |- context [if ?c then _ else _] => destruct c
           end; try apply field_error_nonempty; discriminate.
Qed.

Lemma check_action_nonempty v e : check_action v = inl e -> e <> [].
Proof.
  unfold check_action. destruct (check_str ["action"] v) eqn:Hs.
  - intros [= <-]. eapply check_str_nonempty, Hs.
  - apply run_validator_nonempty.
Qed.

Lemma check_title_nonempty v e : check_title v = inl e -> e <> [].
Proof.
  unfold check_title. destruct (check_str ["title"] v) eqn:Hs.
  - intros [= <-]. eapply check_str_nonempty, Hs.
  - repeat match goal with
           | |- context [if ?c then _ else _] => destruct c
           end; try apply field_error_nonempty; discriminate.
Qed.

Lemma check_time_nonempty field v e : check_time field v = inl e -> e <> [].
Proof.
  unfold check_time. destruct (check_str [field] v) eqn:Hs.
  - intros [= <-]. eapply check_str_nonempty, Hs.
  - apply run_validator_nonempty.
Qed.

Lemma check_attendees_nonempty v e : check_attendees v = inl e -> e <> [].
Proof.
  unfold check_attendees.
  destruct v as [| b | n | s | l | d]; try apply field_error_nonempty.
  destruct (check_items "attendees" 0 l) as [[| err errs] items].
  - destruct (Nat.ltb (length items) 1);
      [apply field_error_nonempty | apply run_validator_nonempty].
  - intros [= <-]. discriminate.
Qed.

(** The constructor fails with at least one error. *)
Lemma new_intent_errors_nonempty d errs :
  new_CalendarEventIntent d = inl errs -> errs <> [].
Proof.
  intros Hnew Hnil. pose proof (new_intent_inl d errs Hnew) as Herrs.
  rewrite Hnil in Herrs. symmetry in Herrs.
  apply app_eq_nil in Herrs as [He1 Herrs]. apply app_eq_nil in Herrs as [He2 Herrs].
  apply app_eq_nil in Herrs as [He3 Herrs]. apply app_eq_nil in Herrs as [He4 Herrs].
  apply app_eq_nil in Herrs as [He5 Herrs]. apply app_eq_nil in Herrs as [He6 Herrs].
  apply app_eq_nil in Herrs as [He7 Herrs]. apply app_eq_nil in Herrs as [He8 He9].
  unfold new_CalendarEventIntent in Hnew.
  destruct (check_action (nd_action d)) as [e1 | ?] eqn:Hc1;
    [apply check_action_nonempty in Hc1; contradiction |].
  destruct (check_title (nd_title d)) as [e2 | ?] eqn:Hc2;
    [apply check_title_nonempty in Hc2; contradiction |].
  destruct (check_opt_str ["description"] (nd_description d)) as [e3 | ?] eqn:Hc3;
    [apply check_opt_str_nonempty in Hc3; contradiction |].
  destruct (check_time "start_time" (nd_start_time d)) as [e4 | ?] eqn:Hc4;
    [apply check_time_nonempty in Hc4; contradiction |].
  destruct (check_time "end_time" (nd_end_time d)) as [e5 | ?] eqn:Hc5;
    [apply check_time_nonempty in Hc5; contradiction |].
  destruct (check_str ["timezone"] (nd_timezone d)) as [e6 | ?] eqn:Hc6;
    [apply check_str_nonempty in Hc6; contradiction |].
  destruct (check_attendees (nd_attendees d)) as [e7 | ?] eqn:Hc7;
    [apply check_attendees_nonempty in Hc7; contradiction |].
  destruct (check_bool ["send_email"] (nd_send_email d)) as [e8 | ?] eqn:Hc8;
    [apply check_bool_nonempty in Hc8; contradiction |].
  destruct (check_opt_str ["intent_id"] (nd_intent_id d)) as [e9 | ?] eqn:Hc9;
    [apply check_opt_str_nonempty in Hc9; contradiction |].
  discriminate Hnew.
Qed.

(** X10. A validation result is of one of two kinds: valid, with an
    intent and no error, or invalid, with no intent and at least one
    error. It always keeps the payload it was made from, and the
    clarification built from it is empty exactly when it is valid. *)
Theorem validation_result_two_kinds args call org vr :
  validate_calendar_intent args call org = inr vr ->
  raw_input vr = Some args /\
  ((is_valid vr = true /\ (exists i, intent vr = Some i) /\ errors vr = [] /\
    generate_clarification_message vr = EmptyString)
   \/
   (is_valid vr = false /\ intent vr = None /\ errors vr <> [] /\
    generate_clarification_message vr <> EmptyString)).
Proof.
  intros Hv. apply validate_cases in Hv
    as [[Hmiss ->] | (Hmiss & key & Hkey & [(i & Hnew & ->) | (errs & Hnew & ->)])].
  - split; [reflexivity |]. right. cbn. repeat split; discriminate.
  - split; [reflexivity |]. left. cbn. repeat split; eauto.
  - split; [reflexivity |]. right.
    apply new_intent_errors_nonempty in Hnew.
    cbn. repeat split; try discriminate.
    destruct errs; [congruence | discriminate].
Qed.

End Intents.

(** X9 at two payloads: a dict under "attendees" raises a KeyError, an
    integer a TypeError. *)
Lemma validation_raises_on_unindexable_attendees_witness :
  @validate_calendar_intent reference_runtime Sample.consult_unindexable None None
  = inl (mkExn KeyError "0") /\
  @validate_calendar_intent reference_runtime
    (Sample.consult "john@example.com" ++ [("attendees", PInt 5)]) None None
  = inl (mkExn TypeError "'int' object is not subscriptable").
Proof.
  split.
  - apply (proj1 (@validation_raises_on_unindexable_attendees reference_runtime
                    Sample.consult_unindexable None None)); reflexivity.
  - apply (proj1 (@validation_raises_on_unindexable_attendees reference_runtime
                    (Sample.consult "john@example.com" ++ [("attendees", PInt 5)])
                    None None)); reflexivity.
Defined.


Lemma validated_intent_identity_witness :
  exists id,
    intent_id Sample.intent = Some id /\ id <> EmptyString /\
    ledger_key Sample.intent = id /\
    (truthy (dict_get (Sample.consult "john@example.com") "intent_id" PNone) = true ->
     dict_lookup "intent_id" (Sample.consult "john@example.com") = Some (PStr id)) /\
    (truthy (dict_get (Sample.consult "john@example.com") "intent_id" PNone) = false ->
     String.length id = 16%nat /\ forallb is_hex_char (PyStr.chars id) = true).
Proof.
  apply (@validated_intent_identity reference_runtime
           (Sample.consult "john@example.com") None None Sample.intent).
  vm_compute. reflexivity.
Defined.

Lemma validated_intent_well_formed_witness :
  action Sample.intent = CREATE_CALENDAR_EVENT /\
  (1 <= String.length (title Sample.intent) <= 255)%nat /\
  attendees Sample.intent <> [] /\
  Forall (fun a => Re.match_anchored email_regex a = true) (attendees Sample.intent) /\
  call_id Sample.intent = None /\ org_id Sample.intent = None /\
  (dict_lookup "timezone" (Sample.consult "john@example.com") = None ->
   timezone Sample.intent = "UTC") /\
  (dict_lookup "description" (Sample.consult "john@example.com") = None ->
   description Sample.intent = Some EmptyString) /\
  (dict_lookup "send_email" (Sample.consult "john@example.com") = None ->
   send_email Sample.intent = true).
Proof.
  apply (@validated_intent_well_formed reference_runtime
           (Sample.consult "john@example.com") None None Sample.intent).
  vm_compute. reflexivity.
Defined.

Lemma validation_result_two_kinds_witness :
  let vr := mkValidationResult false None
              ["start_time: Value error, Invalid ISO-8601 datetime: tomorrow at two. Expected format: YYYY-MM-DDTHH:MM:SSZ"]
              (Some Sample.consult_tomorrow) in
  raw_input vr = Some Sample.consult_tomorrow /\
  ((is_valid vr = true /\ (exists i, intent vr = Some i) /\ errors vr = [] /\
    generate_clarification_message vr = EmptyString)
   \/
   (is_valid vr = false /\ intent vr = None /\ errors vr <> [] /\
    generate_clarification_message vr <> EmptyString)).
Proof.
  apply (@validation_result_two_kinds reference_runtime Sample.consult_tomorrow None None).
  vm_compute. reflexivity.
Defined.


(** ** The orchestrator, end to end *)

Section Orchestration.

Context `{rt : PyRuntime}.
Variable env : Env.

Lemma parse_some_no_error raw d error :
  parse_tool_call_safely raw = inr (Some d, error) -> error = None.
Proof.
  destruct raw as [| b | n | s | l | d']; cbn [parse_tool_call_safely]; try congruence.
  unfold try_except. destruct (PyStr.is_empty (PyStr.strip s)); [congruence |].
  destruct (json_loads (PyStr.strip s)) as [e | v]; cbn [bind].
  - destruct (exn_isinstance e JSONDecodeError); congruence.
  - destruct v; congruence.
Qed.

Lemma valid_is_valid_result args call org vr i :
  validate_calendar_intent args call org = inr vr ->
  is_valid vr = true -> intent vr = Some i -> vr = valid_result args i.
Proof.
  intros Hv Hvalid Hi. apply validate_cases in Hv
    as [[_ ->] | (_ & key & _ & [(i' & _ & ->) | (errs & _ & ->)])];
    cbn in Hvalid, Hi; try discriminate.
  injection Hi as ->. reflexivity.
Qed.

(** What a call of the executor sends: nothing, or the payload of the
    intent. *)
Lemma execute_begin_calls intent w :
  calls (snd (execute_begin env intent w)) = calls w.
Proof.
  unfold execute_begin, under_lock, _get_lock, set_locks. cbn [executions].
  destruct (match executions w !! ledger_key intent with
            | Some existing => status_in (er_status existing) [EXECUTED; EXECUTING]
            | None => false
            end); reflexivity.
Qed.

Lemma finish_sends_payload intent w :
  calls (snd (execute_finish env intent w)) = calls w \/
  exists payload,
    calls (snd (execute_finish env intent w)) = calls w ++ [payload] /\
    payload_of intent payload.
Proof.
  unfold execute_finish, _call_zapier_webhook, to_zapier_payload.
  destruct (PyStr.is_empty (ZAPIER_WEBHOOK_URL env)); [left; reflexivity |].
  destruct (attendees intent) as [| primary others] eqn:Hatt; [left; reflexivity |].
  simpl. set (payload := mkZapierPayload _ _ _ _ _ _ _ _ _ _ _).
  right. exists payload. split.
  - destruct (http_post env (calls w) payload) as [code text | e]; [| reflexivity].
    destruct (is_failure_status code); [reflexivity |].
    destruct (try_except (json_loads text) JSONDecodeError _) as [e | v]; reflexivity.
  - unfold payload_of, payload. cbn. rewrite Hatt. repeat split; reflexivity.
Qed.

Lemma execute_sends_payload intent w :
  calls (snd (execute_calendar_intent env intent w)) = calls w \/
  exists payload,
    calls (snd (execute_calendar_intent env intent w)) = calls w ++ [payload] /\
    payload_of intent payload.
Proof.
  unfold execute_calendar_intent. pose proof (execute_begin_calls intent w) as Hc.
  destruct (execute_begin env intent w) as [[r |] w1]; cbn [snd] in Hc; [left; exact Hc |].
  destruct (finish_sends_payload intent w1) as [H | (payload & H & Hpay)].
  - left. rewrite H. exact Hc.
  - right. exists payload. rewrite H, Hc. auto.
Qed.

(** X11. A call of the orchestrator sends at most one request to the
    webhook, and only for a create_appointment whose arguments were parsed
    and validated: the request is then the payload of the validated
    intent, field by field. *)
Theorem handler_sends_validated_only tool_name tool_args call org item w :
  let w' := snd (handle_tool_call env tool_name tool_args call org item w) in
  calls w' = calls w \/
  exists args i payload,
    tool_name = "create_appointment" /\
    parse_tool_call_safely tool_args = inr (Some args, None) /\
    validate_calendar_intent args call org = inr (valid_result args i) /\
    calls w' = calls w ++ [payload] /\
    payload_of i payload.
Proof.
  cbv zeta. unfold handle_tool_call. cbn [read_clock].
  set (w0 := mkWorld (executions w) (locks w) (calls w) (S (ticks w))).
  assert (calls (snd (route_tool_call env tool_name tool_args call org w0)) = calls w \/
          exists args i payload,
            tool_name = "create_appointment" /\
            parse_tool_call_safely tool_args = inr (Some args, None) /\
            validate_calendar_intent args call org = inr (valid_result args i) /\
            calls (snd (route_tool_call env tool_name tool_args call org w0))
            = calls w ++ [payload] /\
            payload_of i payload) as Hroute.
  { unfold route_tool_call.
    destruct (String.eqb tool_name "create_appointment") eqn:Hname.
    - apply String.eqb_eq in Hname. subst tool_name. unfold _handle_create_appointment.
      destruct (parse_tool_call_safely tool_args) as [e | [parsed error]] eqn:Hparse;
        [left; reflexivity |].
      destruct (opt_truthy error); [left; reflexivity |].
      destruct parsed as [args |]; [| left; reflexivity].
      pose proof (parse_some_no_error _ _ _ Hparse) as ->.
      destruct (validate_calendar_intent args call org) as [e | vr] eqn:Hv;
        [left; reflexivity |].
      destruct (is_valid vr) eqn:Hvalid; cbn [negb]; [| left; reflexivity].
      destruct (intent vr) as [i |] eqn:Hi; [| left; reflexivity].
      pose proof (valid_is_valid_result _ _ _ _ _ Hv Hvalid Hi) as ->.
      destruct (match intent_id i with Some id => was_executed w0 id | None => false end);
        [left; reflexivity |].
      destruct (execute_sends_payload i w0) as [Hsame | (payload & Hp & Hpay)].
      + left. destruct (execute_calendar_intent env i w0) as [r w1]. cbn [snd] in Hsame.
        destruct (negb (er_success r)); [exact Hsame |].
        destruct (attendees i); [exact Hsame |].
        destruct (py_get _ _ _); exact Hsame.
      + right. exists args, i, payload.
        split; [reflexivity |]. split; [reflexivity |]. split; [exact Hv |].
        split; [| exact Hpay].
        destruct (execute_calendar_intent env i w0) as [r w1]. cbn [snd] in Hp.
        destruct (negb (er_success r)); [exact Hp |].
        destruct (attendees i); [exact Hp |].
        destruct (py_get _ _ _); exact Hp.
    - left.
      destruct (String.eqb tool_name "escalate_call"); [reflexivity |].
      destruct (String.eqb tool_name "complete_intake"); [reflexivity |].
      destruct (String.eqb tool_name "end_call"); reflexivity. }
  destruct (route_tool_call env tool_name tool_args call org w0) as [r w1].
  cbn [snd calls] in *. exact Hroute.
Qed.

(** X12. The tools other than create_appointment leave the ledger, the
    locks and the call log as they are; the clock is read twice.
    complete_intake succeeds whatever its arguments are; escalate_call
    and end_call answer with the urgency and the reason of their
    arguments, medium and completed when there is none, and with the
    answer of the except clause when the arguments are not an object. *)
Theorem side_tools_touch_nothing tool_name tool_args call org item w :
  tool_name <> "create_appointment" ->
  let r := fst (handle_tool_call env tool_name tool_args call org item w) in
  let w' := snd (handle_tool_call env tool_name tool_args call org item w) in
  (executions w' = executions w /\ locks w' = locks w /\ calls w' = calls w /\
   ticks w' = S (S (ticks w))) /\
  (tool_name = "complete_intake" ->
   r = inr [("success", PBool true); ("message", PStr "Intake completed successfully")]) /\
  (forall d, tool_args = PDict d -> tool_name = "escalate_call" ->
             r = inr [("success", PBool true);
                      ("message", PStr "Call escalated to human agent");
                      ("urgency", dict_get d "urgency" (PStr "medium"))]) /\
  (forall d, tool_args = PDict d -> tool_name = "end_call" ->
             r = inr [("success", PBool true);
                      ("message", PStr "Call ended");
                      ("reason", dict_get d "reason" (PStr "completed"))]) /\
  ((forall d, tool_args <> PDict d) ->
   tool_name = "escalate_call" \/ tool_name = "end_call" ->
   r = inr (caught_answer
              ("'" +:+ type_name tool_args +:+ "' object has no attribute 'get'"))).
Proof.
  intros Hname. apply String.eqb_neq in Hname. cbv zeta.
  unfold handle_tool_call, route_tool_call. cbn [read_clock]. rewrite Hname.
  split.
  { destruct (String.eqb tool_name "escalate_call"); [cbn; auto |].
    destruct (String.eqb tool_name "complete_intake"); [cbn; auto |].
    destruct (String.eqb tool_name "end_call"); cbn; auto. }
  split; [intros ->; reflexivity |].
  split; [intros d -> ->; reflexivity |].
  split; [intros d -> ->; reflexivity |].
  intros Hnot [-> | ->];
    (destruct tool_args as [| b | n | s | l | d];
     [reflexivity | reflexivity | reflexivity | reflexivity | reflexivity |
      destruct (Hnot d eq_refl)]).
Qed.

(** The first steps of a create_appointment whose payload validates and
    whose identity has no record that counts as executed: the answer is
    that of STEP 4 to STEP 6 on the result of the executor. *)
Lemma was_executed_failed w id :
  match executions w !! id with
  | Some existing => er_status existing = FAILED
  | None => True
  end ->
  was_executed w id = false /\
  match executions w !! id with
  | Some existing => er_status existing <> EXECUTED /\ er_status existing <> EXECUTING
  | None => True
  end.
Proof.
  unfold was_executed. destruct (executions w !! id) as [existing |]; [| auto].
  intros ->. split; [reflexivity | split; discriminate].
Qed.

(** X13. When the webhook accepts a request and answers with JSON that is
    truthy and not an object (a list, a number, a text), the orchestrator
    answers with the failure of its except clause and asks for a retry,
    although one request has been sent and the identity is recorded as
    EXECUTED: the same payload submitted again is answered as a duplicate
    and nothing more is sent. *)
Theorem non_object_answer_reported_failed args call org item w i code text v :
  validate_calendar_intent args call org = inr (valid_result args i) ->
  match executions w !! ledger_key i with
  | Some existing => er_status existing = FAILED
  | None => True
  end ->
  PyStr.is_empty (ZAPIER_WEBHOOK_URL env) = false ->
  (forall payload, http_post env (calls w) payload = Responded code text) ->
  code = 200 \/ code = 201 \/ code = 202 ->
  json_decode text = inr v -> truthy v = true -> (forall d, v <> PDict d) ->
  let r := fst (handle_tool_call env "create_appointment" (PDict args) call org item w) in
  let w' := snd (handle_tool_call env "create_appointment" (PDict args) call org item w) in
  r = inr (caught_answer ("'" +:+ type_name v +:+ "' object has no attribute 'get'")) /\
  (exists payload, calls w' = calls w ++ [payload]) /\
  was_executed w' (ledger_key i) = true /\
  fst (handle_tool_call env "create_appointment" (PDict args) call org item w')
  = inr [("success", PBool true);
         ("is_duplicate", PBool true);
         ("message", PStr "This appointment was already created.");
         ("appointment_id", PStr (ledger_key i))] /\
  calls (snd (handle_tool_call env "create_appointment" (PDict args) call org item w'))
  = calls w'.
Proof.
  intros Hv Hlook Hurl Hpost Hcode Hdecode Htruthy Hnot.
  destruct (valid_intent_identity args call org i Hv) as (id & Hid & Hne & Hkey & _).
  pose proof (valid_intent_has_attendee args call org i Hv) as Hatt.
  destruct (attendees i) as [| primary others] eqn:Hatt'; [congruence |]. clear Hatt.
  rewrite Hkey in *.
  set (w0 := mkWorld (executions w) (locks w) (calls w) (S (ticks w))).
  destruct (was_executed_failed w0 id Hlook) as [Hwas Hfresh].
  rewrite <- Hkey in Hfresh.
  pose proof (execute_accepted env i primary others w0 code text Hurl Hatt' Hfresh Hpost Hcode)
    as (Hex & (payload & _ & _ & Hcalls) & Hres).
  cbv zeta in Hres. rewrite Hdecode, Htruthy in Hres. destruct Hres as [Hr Hdone].
  rewrite Hkey in *.
  assert (handle_tool_call env "create_appointment" (PDict args) call org item w
          = (inr (caught_answer ("'" +:+ type_name v +:+ "' object has no attribute 'get'")),
             snd (read_clock env (snd (execute_calendar_intent env i w0))))) as Hrun.
  { unfold handle_tool_call, route_tool_call, _handle_create_appointment.
    cbn [read_clock String.eqb Ascii.eqb Bool.eqb parse_tool_call_safely opt_truthy].
    rewrite Hv. cbn [valid_result is_valid negb intent]. rewrite Hid.
    fold w0. rewrite Hwas.
    destruct (execute_calendar_intent env i w0) as [r w1]. cbn [fst snd] in *.
    rewrite Hr. cbn [er_success negb er_zapier_response]. rewrite Hatt'.
    destruct v as [| b | n | s | l | d]; try reflexivity.
    destruct (Hnot d eq_refl). }
  cbv zeta. rewrite Hrun. cbn [fst snd read_clock].
  destruct (execute_calendar_intent env i w0) as [r w1]. cbn [fst snd] in *.
  set (w' := mkWorld (executions w1) (locks w1) (calls w1) (S (ticks w1))).
  split; [reflexivity |].
  split; [exists payload; exact Hcalls |].
  split; [exact Hdone |].
  assert (executions w' !! id = Some r) as Hex' by exact Hex.
  assert (er_status r = EXECUTED) as Hst by (rewrite Hr; reflexivity).
  destruct (handle_duplicate env args call org item w' i id r Hv Hid Hex' Hst)
    as (Hdup & Hsame & _).
  split; assumption.
Qed.

(** The handler on a payload whose identity has an EXECUTING record, when
    its call of the executor does not wait: STEP 3 does not count the
    record as executed and the executor answers with a duplicate, so the
    caller is told that the appointment was created. *)
Lemma handle_executing_mark args call org item w i existing :
  validate_calendar_intent args call org = inr (valid_result args i) ->
  executions w !! ledger_key i = Some existing ->
  er_status existing = EXECUTING ->
  let r := fst (handle_tool_call env "create_appointment" (PDict args) call org item w) in
  let w' := snd (handle_tool_call env "create_appointment" (PDict args) call org item w) in
  (exists primary,
      hd_error (attendees i) = Some primary /\
      r = inr (created_answer i primary (ledger_key i) PNone)) /\
  calls w' = calls w /\ executions w' = executions w.
Proof.
  intros Hv Hlook Hst.
  destruct (valid_intent_identity args call org i Hv) as (id & Hid & Hne & Hkey & _).
  pose proof (valid_intent_has_attendee args call org i Hv) as Hatt.
  destruct (attendees i) as [| primary others] eqn:Hatt'; [congruence |]. clear Hatt.
  cbv zeta. unfold handle_tool_call, route_tool_call, _handle_create_appointment.
  cbn [read_clock String.eqb Ascii.eqb Bool.eqb parse_tool_call_safely opt_truthy].
  rewrite Hv. cbn [valid_result is_valid negb intent]. rewrite Hid.
  set (w0 := mkWorld (executions w) (locks w) (calls w) (S (ticks w))).
  rewrite Hkey in *.
  assert (was_executed w0 id = false) as ->.
  { unfold was_executed, w0. cbn [executions]. rewrite Hlook, Hst. reflexivity. }
  assert (executions w0 !! ledger_key i = Some existing) as Hlook0
    by (rewrite Hkey; exact Hlook).
  destruct (execute_begin_duplicate env i w0 existing Hlook0 (or_intror Hst))
    as (r & w1 & Hbegin & (Hdup & Hsucc & _) & Hex & Hcalls).
  assert (er_zapier_response r = PDict []) as Hresp.
  { unfold execute_begin, under_lock, _get_lock, set_locks in Hbegin. cbn [executions] in Hbegin.
    rewrite Hlook0, Hst in Hbegin. cbn in Hbegin. injection Hbegin as <- _. reflexivity. }
  unfold execute_calendar_intent. rewrite Hbegin.
  rewrite Hsucc. cbn [negb]. rewrite Hatt', Hresp.
  cbn [py_get dict_get dict_lookup try_except fst snd read_clock calls executions hd_error].
  split; [| split; assumption].
  exists primary. split; [reflexivity |].
  unfold created_answer.
  destruct (db_commit env (ticks w0) i); cbn [opt_truthy opt_str_val]; rewrite ?Hid;
    cbn [opt_truthy opt_str_val];
    destruct id; try congruence; reflexivity.
Qed.

(** X15. Arguments given as JSON text are handled as the object they
    decode to. *)
Theorem json_text_arguments s d call org item w :
  PyStr.strip s <> EmptyString ->
  json_decode (PyStr.strip s) = inr (PDict d) ->
  handle_tool_call env "create_appointment" (PStr s) call org item w
  = handle_tool_call env "create_appointment" (PDict d) call org item w.
Proof.
  intros Hne Hdecode.
  assert (parse_tool_call_safely (PStr s) = parse_tool_call_safely (PDict d)) as Hparse.
  { cbn [parse_tool_call_safely]. unfold try_except, json_loads.
    destruct (PyStr.strip s); [congruence |]. cbn [PyStr.is_empty].
    rewrite Hdecode. reflexivity. }
  unfold handle_tool_call, route_tool_call, _handle_create_appointment.
  rewrite Hparse. reflexivity.
Qed.

(** X16. The orchestrator answers a create_appointment with a success
    only when the ledger that it leaves holds a record of the identity of
    the validated intent, EXECUTED or still EXECUTING. *)
Theorem success_means_recorded tool_args call org item w res :
  reachable env w ->
  fst (handle_tool_call env "create_appointment" tool_args call org item w) = inr res ->
  dict_lookup "success" res = Some (PBool true) ->
  exists args i r,
    parse_tool_call_safely tool_args = inr (Some args, None) /\
    validate_calendar_intent args call org = inr (valid_result args i) /\
    executions (snd (handle_tool_call env "create_appointment" tool_args call org item w))
      !! ledger_key i = Some r /\
    (er_status r = EXECUTED \/ er_status r = EXECUTING).
Proof.
  intros Hreach. unfold handle_tool_call, route_tool_call, _handle_create_appointment.
  cbn [read_clock String.eqb Ascii.eqb Bool.eqb].
  set (w0 := mkWorld (executions w) (locks w) (calls w) (S (ticks w))).
  assert (reachable env w0) as Hreach0 by exact (reach_clock env w Hreach).
  destruct (parse_tool_call_safely tool_args) as [e | [parsed error]] eqn:Hparse;
    [cbn; intros [= <-]; discriminate |].
  destruct (opt_truthy error); [cbn; intros [= <-]; discriminate |].
  destruct parsed as [args |]; [| cbn; intros [= <-]; discriminate].
  pose proof (parse_some_no_error _ _ _ Hparse) as ->.
  destruct (validate_calendar_intent args call org) as [e | vr] eqn:Hv;
    [cbn; intros [= <-]; discriminate |].
  destruct (is_valid vr) eqn:Hvalid; cbn [negb]; [| cbn; intros [= <-]; discriminate].
  destruct (intent vr) as [i |] eqn:Hi; [| cbn; intros [= <-]; discriminate].
  pose proof (valid_is_valid_result _ _ _ _ _ Hv Hvalid Hi) as ->.
  destruct (valid_intent_identity args call org i Hv) as (id & Hid & Hne & Hkey & _).
  rewrite Hid.
  destruct (was_executed w0 id) eqn:Hwas.
  - (* STEP 3 *)
    cbn. intros _ _. unfold was_executed in Hwas.
    destruct (executions w0 !! id) as [r |] eqn:Hlook; [| discriminate].
    exists args, i, r. rewrite Hkey.
    split; [reflexivity |]. split; [exact Hv |]. split; [exact Hlook |].
    destruct (reachable_ledger_inv env w0 Hreach0 id r Hlook) as [[Hs | [Hs | Hs]] _];
      rewrite Hs in *; auto; discriminate.
  - (* STEP 5 *)
    assert (exists r,
               executions (snd (execute_calendar_intent env i w0)) !! ledger_key i = Some r /\
               (er_success (fst (execute_calendar_intent env i w0)) = true ->
                er_status r = EXECUTED \/ er_status r = EXECUTING)) as (r & Hr & Hst).
    { destruct (executions w0 !! ledger_key i) as [existing |] eqn:Hlook.
      - destruct (status_in (er_status existing) [EXECUTED; EXECUTING]) eqn:Hin.
        + apply status_in_spec in Hin. cbn [In] in Hin.
          assert (er_status existing = EXECUTED \/ er_status existing = EXECUTING) as Hst
            by (destruct Hin as [H | [H | []]]; auto).
          destruct (execute_duplicate env i w0 existing Hlook Hst) as (_ & Hex & _).
          exists existing. rewrite Hex. auto.
        + assert (er_status existing <> EXECUTED /\ er_status existing <> EXECUTING) as Hne'.
          { split; intros Heq; rewrite Heq in Hin; discriminate. }
          pose proof (execute_fresh env i w0) as Hfresh. rewrite Hlook in Hfresh.
          destruct (Hfresh Hne') as (Hex & _ & [(Hs & _) | (_ & Hs)] & _).
          * eexists. split; [exact Hex |]. auto.
          * eexists. split; [exact Hex |]. rewrite Hs. discriminate.
      - pose proof (execute_fresh env i w0) as Hfresh. rewrite Hlook in Hfresh.
        destruct (Hfresh I) as (Hex & _ & [(Hs & _) | (_ & Hs)] & _).
        + eexists. split; [exact Hex |]. auto.
        + eexists. split; [exact Hex |]. rewrite Hs. discriminate. }
    destruct (execute_calendar_intent env i w0) as [er w1]. cbn [fst snd] in *.
    destruct (er_success er) eqn:Hsucc; cbn [negb]; [| cbn; intros [= <-]; discriminate].
    destruct (attendees i) as [| primary others]; [cbn; intros [= <-]; discriminate |].
    destruct (py_get (er_zapier_response er) "calendar_link" PNone) as [e | link];
      [cbn; intros [= <-]; discriminate |].
    cbn. intros _ _. exists args, i, r.
    split; [reflexivity |]. split; [exact Hv |]. split; [exact Hr | auto].
Qed.

End Orchestration.


Lemma side_tools_touch_nothing_witness :
  let args := PDict [("reason", PStr "caller hung up")] in
  let r := fst (@handle_tool_call reference_runtime Sample.accepting "end_call" args
                  None None None empty_world) in
  let w' := snd (@handle_tool_call reference_runtime Sample.accepting "end_call" args
                   None None None empty_world) in
  (executions w' = executions empty_world /\ locks w' = locks empty_world /\
   calls w' = calls empty_world /\ ticks w' = S (S (ticks empty_world))) /\
  ("end_call" = "complete_intake" ->
   r = inr [("success", PBool true); ("message", PStr "Intake completed successfully")]) /\
  (forall d, args = PDict d -> "end_call" = "escalate_call" ->
             r = inr [("success", PBool true);
                      ("message", PStr "Call escalated to human agent");
                      ("urgency", dict_get d "urgency" (PStr "medium"))]) /\
  (forall d, args = PDict d -> "end_call" = "end_call" ->
             r = inr [("success", PBool true);
                      ("message", PStr "Call ended");
                      ("reason", dict_get d "reason" (PStr "completed"))]) /\
  ((forall d, args <> PDict d) ->
   "end_call" = "escalate_call" \/ "end_call" = "end_call" ->
   r = inr (caught_answer
              ("'" +:+ type_name args +:+ "' object has no attribute 'get'"))).
Proof.
  apply (@side_tools_touch_nothing reference_runtime Sample.accepting "end_call"
           (PDict [("reason", PStr "caller hung up")]) None None None empty_world).
  discriminate.
Defined.

Lemma non_object_answer_reported_failed_witness :
  let env := Sample.answering_list in
  let args := Sample.consult "john@example.com" in
  let r := fst (@handle_tool_call reference_runtime env "create_appointment" (PDict args)
                  None None None empty_world) in
  let w' := snd (@handle_tool_call reference_runtime env "create_appointment" (PDict args)
                   None None None empty_world) in
  r = inr (caught_answer
             ("'" +:+ type_name (PList [PInt 1]) +:+ "' object has no attribute 'get'")) /\
  (exists payload, calls w' = calls empty_world ++ [payload]) /\
  was_executed w' (ledger_key Sample.intent) = true /\
  fst (@handle_tool_call reference_runtime env "create_appointment" (PDict args)
         None None None w')
  = inr [("success", PBool true);
         ("is_duplicate", PBool true);
         ("message", PStr "This appointment was already created.");
         ("appointment_id", PStr (ledger_key Sample.intent))] /\
  calls (snd (@handle_tool_call reference_runtime env "create_appointment" (PDict args)
                None None None w'))
  = calls w'.
Proof.
  apply (@non_object_answer_reported_failed reference_runtime Sample.answering_list
           (Sample.consult "john@example.com") None None None empty_world Sample.intent
           200 "[1]" (PList [PInt 1])).
  - vm_compute. reflexivity.
  - vm_compute. exact I.
  - reflexivity.
  - intros payload. reflexivity.
  - left. reflexivity.
  - vm_compute. reflexivity.
  - reflexivity.
  - intros d. discriminate.
Defined.

Lemma json_text_arguments_witness :
  @handle_tool_call reference_runtime Sample.accepting "create_appointment"
    (PStr " {} ") None None None empty_world
  = @handle_tool_call reference_runtime Sample.accepting "create_appointment"
      (PDict []) None None None empty_world.
Proof.
  apply (@json_text_arguments reference_runtime Sample.accepting " {} " []
           None None None empty_world).
  - vm_compute. discriminate.
  - vm_compute. reflexivity.
Defined.

Lemma success_means_recorded_witness :
  exists args i r,
    @parse_tool_call_safely reference_runtime (PDict (Sample.consult "john@example.com"))
    = inr (Some args, None) /\
    @validate_calendar_intent reference_runtime args None None
    = inr (valid_result args i) /\
    executions
      (snd (@handle_tool_call reference_runtime Sample.accepting "create_appointment"
              (PDict (Sample.consult "john@example.com")) None None None empty_world))
      !! ledger_key i = Some r /\
    (er_status r = EXECUTED \/ er_status r = EXECUTING).
Proof.
  apply (@success_means_recorded reference_runtime Sample.accepting
           (PDict (Sample.consult "john@example.com")) None None None empty_world
           (created_answer Sample.intent "john@example.com" "ec55823e2cb65a1d" PNone)).
  - apply reach_start.
  - vm_compute. reflexivity.
  - reflexivity.
Defined.


(** ** What is told of a result, and the endpoint *)

Section Endpoint.

Context `{rt : PyRuntime}.
Variable env : Env.

(** The three ways a call of the executor ends. *)
Lemma execute_result_cases intent w :
  let r := fst (execute_calendar_intent env intent w) in
  let w' := snd (execute_calendar_intent env intent w) in
  (exists now,
      r = mkExecutionResult true DUPLICATE (ledger_key intent) (PDict []) None true (Some now) /\
      calls w' = calls w /\ executions w' = executions w)
  \/ (er_status r = EXECUTED /\ er_success r = true /\ er_is_duplicate r = false /\
      er_intent_id r = ledger_key intent /\
      exists payload, calls w' = calls w ++ [payload])
  \/ (exists msg, r = failed_result (ledger_key intent) msg).
Proof.
  cbv zeta.
  destruct (match executions w !! ledger_key intent with
            | Some existing => status_in (er_status existing) [EXECUTED; EXECUTING]
            | None => false
            end) eqn:Hdup.
  - left. unfold execute_calendar_intent, execute_begin, under_lock, _get_lock, set_locks.
    cbn [executions]. rewrite Hdup. cbn. eauto.
  - right.
    assert (match executions w !! ledger_key intent with
            | Some existing =>
                er_status existing <> EXECUTED /\ er_status existing <> EXECUTING
            | None => True
            end) as Hlook.
    { destruct (executions w !! ledger_key intent) as [existing |]; [| exact I].
      split; intros Heq; rewrite Heq in Hdup; discriminate. }
    rewrite (execute_not_duplicate env intent w Hlook).
    match goal with
    | |- context [execute_finish env intent ?w0] =>
        destruct (execute_finish_record env intent w0) as (r & Hr & _ & Hrec & Hst);
        destruct (execute_finish_spec env intent w0) as (_ & _ & Hspec)
    end.
    rewrite Hr in *. destruct Hrec as (Hid & Hnd & Hfields).
    destruct Hst as [Hst | Hst]; rewrite Hst in Hfields.
    + left. destruct Hspec as [(_ & _ & _ & _ & payload & Hp) | [Hf _]]; [| congruence].
      destruct Hfields as (Hsucc & _). cbn [calls] in Hp. eauto 10.
    + right. destruct Hfields as (Hsucc & [msg Herr] & Hat & Hresp). exists msg.
      destruct r. cbn in *. subst. reflexivity.
Qed.

(** X17. What [to_tool_result] tells of a result of the executor: a
    duplicate is told as an appointment created and an email sent, with
    no calendar link; a failure is told with its error and
    retry_allowed; and the answer "This appointment was already created."
    is never given, the executor building its duplicates with success
    set. *)
Theorem duplicate_told_as_created intent w :
  let r := fst (execute_calendar_intent env intent w) in
  (er_is_duplicate r = true ->
   to_tool_result r
   = inr [("success", PBool true);
          ("message", PStr "Appointment created and confirmation email sent successfully.");
          ("appointment_id", PStr (ledger_key intent));
          ("calendar_link", PNone);
          ("email_sent", PBool true)]) /\
  (er_success r = false ->
   to_tool_result r
   = inr [("success", PBool false);
          ("error", PStr (opt_or (er_error r) "Failed to create appointment"));
          ("retry_allowed", PBool true)]) /\
  (forall res, to_tool_result r = inr res ->
               dict_lookup "is_duplicate" res = None /\
               dict_lookup "message" res <> Some (PStr "This appointment was already created.")).
Proof.
  cbv zeta.
  destruct (execute_result_cases intent w)
    as [(now & -> & _) | [(Hst & Hsucc & Hnd & Hid & _) | (msg & ->)]].
  - split; [intros _; reflexivity |]. split; [discriminate |].
    intros res [= <-]. split; [reflexivity | discriminate].
  - split; [congruence |]. split; [congruence |].
    intros res. unfold to_tool_result. rewrite Hsucc.
    destruct (py_get _ _ _) as [e | link]; cbn [bind]; [discriminate |].
    intros [= <-]. split; [reflexivity | discriminate].
  - split; [discriminate |]. split; [intros _; reflexivity |].
    intros res [= <-]. split; [reflexivity | discriminate].
Qed.

(** X19. The reset endpoint reports a reset only where there was a
    record, touches no other identity, and a second reset of the same
    identity always answers that no execution was found and changes
    nothing. *)
Theorem reset_endpoint_twice id w :
  let r1 := fst (api_reset_execution id w) in
  let w1 := snd (api_reset_execution id w) in
  (dict_lookup "success" r1 = Some (PBool true) <-> is_Some (executions w !! id)) /\
  (executions w !! id = None -> w1 = w) /\
  (forall j, j <> id -> executions w1 !! j = executions w !! j) /\
  calls w1 = calls w /\
  api_reset_execution id w1
  = ([("success", PBool false);
      ("message", PStr ("No execution found for " +:+ id))], w1).
Proof.
  cbv zeta. unfold api_reset_execution, reset_execution.
  destruct (executions w !! id) as [r |] eqn:Hlook.
  - cbn [fst snd set_locks set_executions executions locks calls ticks].
    rewrite lookup_delete_eq.
    split; [split; [eauto | reflexivity] |]. split; [discriminate |].
    split; [intros j Hj; apply lookup_delete_ne; congruence |].
    split; reflexivity.
  - cbn [fst snd]. rewrite Hlook.
    split; [split; [discriminate | intros [? ?]; discriminate] |].
    split; [reflexivity |]. split; [reflexivity |]. split; reflexivity.
Qed.

End Endpoint.


Section EndpointErrors.

Context `{rt : PyRuntime}.
Variable env : Env.
Variable validation_error_str : list FieldError -> string.

Ltac told :=
  eexists; split; [reflexivity |]; cbn; repeat split; reflexivity.

(** X18. The endpoint answers with a response built from the dict of the
    orchestrator, or with status 500. It answers 500 in one case only: a
    create_appointment whose request the webhook has accepted, answering
    with a "calendar_link" that is neither a text nor null; the dict of
    the orchestrator then says success, and the request has been sent. *)
Theorem endpoint_error_only_on_calendar_link request w :
  let out := fst (execute_intent env validation_error_str request w) in
  let w' := snd (execute_intent env validation_error_str request w) in
  exists res,
    fst (handle_tool_call env (rq_tool_name request) (PDict (rq_tool_args request))
           (rq_call_id request) (rq_org_id request) (rq_item_id request) w) = inr res /\
    match out with
    | inr response =>
        rs_result_data response = Some res /\
        dict_get res "success" (PBool false) = PBool (rs_success response) /\
        dict_get res "calendar_link" PNone = opt_str_val (rs_calendar_link response)
    | inl exc =>
        http_status_code exc = 500 /\
        rq_tool_name request = "create_appointment" /\
        dict_lookup "success" res = Some (PBool true) /\
        (exists link,
            dict_lookup "calendar_link" res = Some link /\
            link <> PNone /\ forall s, link <> PStr s) /\
        exists payload, calls w' = calls w ++ [payload]
    end.
Proof.
  destruct request as [tool_name args call org item]. cbv zeta.
  unfold execute_intent, handle_tool_call, route_tool_call.
  cbn [rq_tool_name rq_tool_args rq_call_id rq_org_id rq_item_id read_clock].
  set (w0 := mkWorld (executions w) (locks w) (calls w) (S (ticks w))).
  destruct (String.eqb tool_name "create_appointment") eqn:Hname.
  2:{ destruct (String.eqb tool_name "escalate_call"); [told |].
      destruct (String.eqb tool_name "complete_intake"); [told |].
      destruct (String.eqb tool_name "end_call"); told. }
  apply String.eqb_eq in Hname. subst tool_name.
  unfold _handle_create_appointment. cbn [parse_tool_call_safely opt_truthy].
  destruct (validate_calendar_intent args call org) as [e | vr] eqn:Hv; [told |].
  destruct (is_valid vr) eqn:Hvalid; cbn [negb]; [| told].
  destruct (intent vr) as [i |] eqn:Hi; [| told].
  destruct (match intent_id i with Some id => was_executed w0 id | None => false end).
  { destruct (intent_id i); told. }
  pose proof (execute_result_cases env i w0) as Hcases. cbv zeta in Hcases.
  destruct (execute_calendar_intent env i w0) as [er w1]. cbn [fst snd] in Hcases.
  destruct (er_success er) eqn:Hsucc; cbn [negb].
  2:{ destruct (db_commit env (ticks w0) i); [destruct (intent_id i) |]; told. }
  destruct (attendees i) as [| primary others]; [told |].
  destruct (er_zapier_response er) as [| b | n | s | l | d] eqn:Hresp;
    cbn [py_get]; try told.
  set (link := dict_get d "calendar_link" PNone).
  set (appointment_id :=
         if opt_truthy (if db_commit env (ticks w0) i then intent_id i else None)
         then opt_str_val (if db_commit env (ticks w0) i then intent_id i else None)
         else opt_str_val (intent_id i)).
  assert (exists o, appointment_id = opt_str_val o) as [o Ho].
  { unfold appointment_id. destruct (opt_truthy _); eauto. }
  rewrite Ho. clear Ho appointment_id.
  destruct link as [| b | n | s | l | d'] eqn:Hlink; destruct o; try told;
    (eexists; split; [reflexivity |]; cbn;
     split; [reflexivity |]; split; [reflexivity |]; split; [reflexivity |];
     split; [eexists; split; [reflexivity |]; split; [discriminate | intros; discriminate] |];
     destruct Hcases as [(now & Her & _) | [(_ & _ & _ & _ & payload & Hp) | (msg & Her)]];
     [rewrite Her in Hresp; cbn in Hresp; injection Hresp as <-; discriminate Hlink
     | exists payload; exact Hp
     | rewrite Her in Hsucc; discriminate Hsucc]).
Qed.

End EndpointErrors.


(** ** The address pattern *)

Lemma matches_cat_inv r1 r2 s :
  re_matches (Re.Cat r1 r2) s <->
  exists s1 s2, s = s1 ++ s2 /\ re_matches r1 s1 /\ re_matches r2 s2.
Proof.
  split.
  - inversion 1; subst; eauto.
  - intros (s1 & s2 & -> & H1 & H2). constructor; assumption.
Qed.

Lemma matches_void s : ~ re_matches Re.Void s.
Proof. inversion 1. Qed.

Lemma matches_eps s : re_matches Re.Eps s <-> s = [].
Proof. split; [inversion 1; reflexivity | intros ->; constructor]. Qed.

Lemma matches_class p s : re_matches (Re.Class p) s <-> exists c, s = [c] /\ p c = true.
Proof.
  split; [inversion 1; subst; eauto | intros (c & -> & Hp); constructor; exact Hp].
Qed.

Lemma matches_alt_inv r1 r2 s :
  re_matches (Re.Alt r1 r2) s <-> re_matches r1 s \/ re_matches r2 s.
Proof.
  split; [inversion 1; subst; auto | intros [H | H]; [apply m_alt_l | apply m_alt_r]; exact H].
Qed.

Lemma matches_cat_smart r1 r2 s :
  re_matches (Re.cat r1 r2) s <-> re_matches (Re.Cat r1 r2) s.
Proof.
  destruct r1; cbn [Re.cat]; try reflexivity.
  - rewrite matches_cat_inv. split; [intros H; destruct (matches_void _ H) |].
    intros (s1 & s2 & _ & H & _). destruct (matches_void _ H).
  - rewrite matches_cat_inv. split.
    + intros H. exists [], s. split; [reflexivity |]. split; [constructor | exact H].
    + intros (s1 & s2 & -> & H1 & H2). apply matches_eps in H1. subst. exact H2.
Qed.

Lemma matches_alt_smart r1 r2 s :
  re_matches (Re.alt r1 r2) s <-> re_matches (Re.Alt r1 r2) s.
Proof.
  rewrite matches_alt_inv.
  destruct r1, r2; cbn [Re.alt]; rewrite ?matches_alt_inv;
    split; try tauto;
    try (intros [H | H]; try (destruct (matches_void _ H)); tauto);
    intros H; auto.
Qed.

Lemma nullable_correct r : Re.nullable r = true <-> re_matches r [].
Proof.
  induction r as [| | p | r1 IH1 r2 IH2 | r1 IH1 r2 IH2 | r IH]; cbn [Re.nullable].
  - split; [discriminate | intros H; destruct (matches_void _ H)].
  - split; [constructor | reflexivity].
  - split; [discriminate | inversion 1].
  - rewrite andb_true_iff, IH1, IH2, matches_cat_inv. split.
    + intros [H1 H2]. exists [], []. auto.
    + intros (s1 & s2 & Heq & H1 & H2). symmetry in Heq.
      apply app_eq_nil in Heq as [-> ->]. auto.
  - rewrite orb_true_iff, IH1, IH2, matches_alt_inv. reflexivity.
  - split; [constructor | reflexivity].
Qed.

Lemma matches_star_cons r c s :
  re_matches (Re.Star r) (c :: s) ->
  exists s1 s2, s = s1 ++ s2 /\ re_matches r (c :: s1) /\ re_matches (Re.Star r) s2.
Proof.
  intros H. remember (Re.Star r) as q eqn:Hq. remember (c :: s) as l eqn:Hl.
  revert c s Hl.
  induction H as [| p a Hp | | | | | r' s1 s2 H1 _ H2 IH2]; intros c0 s0 Hl;
    try discriminate.
  injection Hq as ->. destruct s1 as [| a s1].
  - cbn in Hl. apply IH2; [reflexivity | exact Hl].
  - cbn in Hl. injection Hl as -> <-. exists s1, s2. auto.
Qed.

Lemma deriv_correct c r : forall s,
  re_matches (Re.deriv c r) s <-> re_matches r (c :: s).
Proof.
  induction r as [| | p | r1 IH1 r2 IH2 | r1 IH1 r2 IH2 | r IH]; intros s; cbn [Re.deriv].
  - split; intros H; destruct (matches_void _ H).
  - split; [intros H; destruct (matches_void _ H) | inversion 1].
  - destruct (p c) eqn:Hp.
    + rewrite matches_eps, matches_class. split.
      * intros ->. eauto.
      * intros (c' & [= <- ->] & _). reflexivity.
    + rewrite matches_class. split; [intros H; destruct (matches_void _ H) |].
      intros (c' & [= <- ->] & Hp'). congruence.
  - assert (re_matches (Re.cat (Re.deriv c r1) r2) s <->
            exists s1 s2, s = s1 ++ s2 /\ re_matches r1 (c :: s1) /\ re_matches r2 s2) as Hleft.
    { rewrite matches_cat_smart, matches_cat_inv. split.
      - intros (s1 & s2 & -> & H1 & H2). apply IH1 in H1. eauto.
      - intros (s1 & s2 & -> & H1 & H2). apply IH1 in H1. eauto. }
    rewrite matches_cat_inv.
    destruct (Re.nullable r1) eqn:Hnull.
    + rewrite matches_alt_smart, matches_alt_inv, Hleft, IH2. split.
      * intros [(s1 & s2 & -> & H1 & H2) | H].
        -- exists (c :: s1), s2. auto.
        -- exists [], (c :: s). split; [reflexivity |].
           split; [apply nullable_correct; exact Hnull | exact H].
      * intros (s1 & s2 & Heq & H1 & H2). destruct s1 as [| a s1].
        -- cbn in Heq. subst. auto.
        -- cbn in Heq. injection Heq as <- ->. left. eauto.
    + rewrite Hleft. split.
      * intros (s1 & s2 & -> & H1 & H2). exists (c :: s1), s2. auto.
      * intros (s1 & s2 & Heq & H1 & H2). destruct s1 as [| a s1].
        -- apply nullable_correct in H1. congruence.
        -- cbn in Heq. injection Heq as <- ->. eauto.
  - rewrite matches_alt_smart, !matches_alt_inv, IH1, IH2. reflexivity.
  - rewrite matches_cat_smart, matches_cat_inv. split.
    + intros (s1 & s2 & -> & H1 & H2). apply IH in H1.
      change (c :: s1 ++ s2) with ((c :: s1) ++ s2). constructor; assumption.
    + intros H. apply matches_star_cons in H as (s1 & s2 & -> & H1 & H2).
      apply IH in H1. eauto.
Qed.

(** The matcher decides the language of the pattern. *)
Lemma fullmatch_correct : forall s r,
  Re.fullmatch r s = true <-> re_matches r s.
Proof.
  induction s as [| c s IH]; intros r; cbn [Re.fullmatch].
  - apply nullable_correct.
  - rewrite IH. apply deriv_correct.
Qed.

Lemma matches_star_class p s :
  re_matches (Re.Star (Re.Class p)) s <-> forallb p s = true.
Proof.
  split.
  - intros H. remember (Re.Star (Re.Class p)) as q eqn:Hq.
    induction H as [| | | | | | r s1 s2 H1 _ H2 IH2]; try discriminate; [reflexivity |].
    injection Hq as ->. apply matches_class in H1 as (c & -> & Hp).
    cbn. rewrite Hp. apply IH2. reflexivity.
  - induction s as [| c s IH]; [constructor |].
    cbn. intros H. apply andb_true_iff in H as [Hp Hs].
    change (c :: s) with ([c] ++ s). constructor; [constructor; exact Hp | apply IH, Hs].
Qed.

Lemma matches_plus_class p s :
  re_matches (Re.Plus (Re.Class p)) s <-> s <> [] /\ forallb p s = true.
Proof.
  unfold Re.Plus. rewrite matches_cat_inv. split.
  - intros (s1 & s2 & -> & H1 & H2). apply matches_class in H1 as (c & -> & Hp).
    apply matches_star_class in H2. cbn. rewrite Hp, H2. split; [discriminate | reflexivity].
  - intros [Hne H]. destruct s as [| c s]; [congruence |].
    cbn in H. apply andb_true_iff in H as [Hp Hs].
    exists [c], s. split; [reflexivity |].
    split; [constructor; exact Hp | apply matches_star_class, Hs].
Qed.

Lemma matches_atleast2_class p s :
  re_matches (Re.AtLeast2 (Re.Class p)) s <-> (2 <= length s)%nat /\ forallb p s = true.
Proof.
  unfold Re.AtLeast2. rewrite matches_cat_inv. split.
  - intros (s1 & s2 & -> & H1 & H2). apply matches_class in H1 as (c & -> & Hp).
    apply matches_cat_inv in H2 as (s3 & s4 & -> & H3 & H4).
    apply matches_class in H3 as (c' & -> & Hp'). apply matches_star_class in H4.
    cbn. rewrite Hp, Hp', H4. split; [lia | reflexivity].
  - intros [Hlen H]. destruct s as [| c [| c' s]]; cbn in Hlen; try lia.
    cbn in H. apply andb_true_iff in H as [Hp H]. apply andb_true_iff in H as [Hp' Hs].
    exists [c], (c' :: s). split; [reflexivity |]. split; [constructor; exact Hp |].
    apply matches_cat_inv. exists [c'], s. split; [reflexivity |].
    split; [constructor; exact Hp' | apply matches_star_class, Hs].
Qed.

Lemma matches_chr c s : re_matches (Re.Chr c) s <-> s = [c].
Proof.
  unfold Re.Chr. rewrite matches_class. split.
  - intros (c' & -> & Heq). apply Ascii.eqb_eq in Heq. congruence.
  - intros ->. exists c. split; [reflexivity | apply Ascii.eqb_refl].
Qed.

Lemma email_regex_language l : re_matches email_regex l <-> email_shape l.
Proof.
  unfold email_regex, email_shape. split.
  - intros H.
    apply matches_cat_inv in H as (local & l1 & -> & Hlocal & H).
    apply matches_cat_inv in H as (at_ & l2 & -> & Hat & H).
    apply matches_cat_inv in H as (domain & l3 & -> & Hdomain & H).
    apply matches_cat_inv in H as (dot & tld & -> & Hdot & Htld).
    apply matches_plus_class in Hlocal as [? ?]. apply matches_chr in Hat as ->.
    apply matches_plus_class in Hdomain as [? ?]. apply matches_chr in Hdot as ->.
    apply matches_atleast2_class in Htld as [? ?].
    exists local, domain, tld. cbn [app]. repeat split; assumption.
  - intros (local & domain & tld & -> & Hl1 & Hl2 & Hd1 & Hd2 & Ht1 & Ht2).
    apply matches_cat_inv. exists local, ("@"%char :: domain ++ "."%char :: tld).
    split; [reflexivity |]. split; [apply matches_plus_class; auto |].
    apply matches_cat_inv. exists ["@"%char], (domain ++ "."%char :: tld).
    split; [reflexivity |]. split; [apply matches_chr; reflexivity |].
    apply matches_cat_inv. exists domain, ("."%char :: tld).
    split; [reflexivity |]. split; [apply matches_plus_class; auto |].
    apply matches_cat_inv. exists ["."%char], tld.
    split; [reflexivity |]. split; [apply matches_chr; reflexivity |].
    apply matches_atleast2_class. auto.
Qed.


(** What the anchored pattern accepts. *)
Lemma address_pattern_accepts_aux s :
  Re.match_anchored email_regex s = true <->
  email_shape (PyStr.chars s) \/
  exists l, PyStr.chars s = l ++ ["010"%char] /\ email_shape l.
Proof.
  unfold Re.match_anchored. cbv zeta. rewrite orb_true_iff, fullmatch_correct.
  rewrite email_regex_language.
  destruct (rev (PyStr.chars s)) as [| c l'] eqn:Hrev.
  - split; [intros [H | H]; [auto | discriminate] |].
    intros [H | (l & Heq & _)]; [auto |].
    rewrite Heq, rev_app_distr in Hrev. discriminate.
  - assert (PyStr.chars s = rev l' ++ [c]) as Hs.
    { rewrite <- (rev_involutive (PyStr.chars s)), Hrev. reflexivity. }
    rewrite andb_true_iff, fullmatch_correct, email_regex_language, Ascii.eqb_eq.
    split.
    + intros [H | [-> H]]; [auto |]. right. exists (rev l'). auto.
    + intros [H | (l & Heq & H)]; [auto |]. right.
      rewrite Hs in Heq. apply app_inj_tail in Heq as [<- ->]. auto.
Qed.

(** X20. The address pattern, as [re.match] applies it between ^ and $:
    a text is accepted exactly when it is a local part of letters,
    digits and ._%+- (one at least), an at sign, a domain of letters,
    digits, dots and hyphens (one at least), a dot and two letters or
    more, or such a text followed by one line feed. *)
Theorem address_pattern_accepts s :
  Re.match_anchored email_regex s = true <->
  email_shape (PyStr.chars s) \/
  exists l, PyStr.chars s = l ++ ["010"%char] /\ email_shape l.
Proof.
  unfold Re.match_anchored. cbv zeta. rewrite orb_true_iff, fullmatch_correct.
  rewrite email_regex_language.
  destruct (rev (PyStr.chars s)) as [| c l'] eqn:Hrev.
  - split; [intros [H | H]; [auto | discriminate] |].
    intros [H | (l & Heq & _)]; [auto |].
    rewrite Heq, rev_app_distr in Hrev. discriminate.
  - assert (PyStr.chars s = rev l' ++ [c]) as Hs.
    { rewrite <- (rev_involutive (PyStr.chars s)), Hrev. reflexivity. }
    rewrite andb_true_iff, fullmatch_correct, email_regex_language, Ascii.eqb_eq.
    split.
    + intros [H | [-> H]]; [auto |]. right. exists (rev l'). auto.
    + intros [H | (l & Heq & H)]; [auto |]. right.
      rewrite Hs in Heq. apply app_inj_tail in Heq as [<- ->]. auto.
Qed.

(** ** Normalized addresses *)

Lemma lower_char_not_upper c : PyStr.is_upper (PyStr.lower_char c) = false.
Proof. destruct c as [[] [] [] [] [] [] [] []]; reflexivity. Qed.

Lemma lower_char_space c : PyStr.is_space (PyStr.lower_char c) = PyStr.is_space c.
Proof. destruct c as [[] [] [] [] [] [] [] []]; reflexivity. Qed.

Lemma lower_char_fixed c : PyStr.is_upper c = false -> PyStr.lower_char c = c.
Proof. unfold PyStr.lower_char. intros ->. reflexivity. Qed.

Lemma local_class_not_space c : local_class c = true -> PyStr.is_space c = false.
Proof. destruct c as [[] [] [] [] [] [] [] []]; (reflexivity || discriminate). Qed.

Lemma domain_class_not_space c : domain_class c = true -> PyStr.is_space c = false.
Proof. destruct c as [[] [] [] [] [] [] [] []]; (reflexivity || discriminate). Qed.

Lemma is_alpha_not_space c : PyStr.is_alpha c = true -> PyStr.is_space c = false.
Proof. destruct c as [[] [] [] [] [] [] [] []]; (reflexivity || discriminate). Qed.

Lemma lstrip_head l :
  match PyStr.lstrip_chars l with
  | [] => True
  | c :: _ => PyStr.is_space c = false
  end.
Proof.
  induction l as [| c l IH]; [exact I |].
  cbn [PyStr.lstrip_chars]. destruct (PyStr.is_space c) eqn:Hc; [exact IH | exact Hc].
Qed.

Lemma lstrip_fixed l :
  match l with [] => True | c :: _ => PyStr.is_space c = false end ->
  PyStr.lstrip_chars l = l.
Proof. destruct l as [| c l]; [reflexivity |]. cbn. intros ->. reflexivity. Qed.

Lemma chars_of_chars l : PyStr.chars (PyStr.of_chars l) = l.
Proof. apply list_ascii_of_string_of_list_ascii. Qed.

Lemma of_chars_chars s : PyStr.of_chars (PyStr.chars s) = s.
Proof. apply string_of_list_ascii_of_string. Qed.

(** A normalized address does not end in white space. *)
Lemma normalize_email_last e c l :
  rev (PyStr.chars (normalize_email e)) = c :: l -> PyStr.is_space c = false.
Proof.
  unfold normalize_email, PyStr.lower, PyStr.strip. rewrite !chars_of_chars.
  rewrite <- map_rev, rev_involutive.
  pose proof (lstrip_head (rev (PyStr.lstrip_chars (PyStr.chars e)))) as Hhead.
  destruct (PyStr.lstrip_chars (rev (PyStr.lstrip_chars (PyStr.chars e)))) as [| y Y];
    [discriminate |].
  cbn [map]. intros [= <- _]. rewrite lower_char_space. exact Hhead.
Qed.

Lemma email_shape_no_space l :
  email_shape l -> forallb (fun c => negb (PyStr.is_space c)) l = true.
Proof.
  intros (local & domain & tld & -> & _ & Hl & _ & Hd & _ & Ht).
  assert (forall p l0, (forall c, p c = true -> PyStr.is_space c = false) ->
                       forallb p l0 = true ->
                       forallb (fun c => negb (PyStr.is_space c)) l0 = true) as Hmono.
  { intros p l0 Hp. induction l0 as [| c l0 IH]; [reflexivity |].
    cbn. intros H. apply andb_true_iff in H as [Hc Hl0].
    rewrite (Hp c Hc), (IH Hl0). reflexivity. }
  rewrite forallb_app. cbn [forallb]. rewrite forallb_app. cbn [forallb].
  rewrite (Hmono _ _ local_class_not_space Hl), (Hmono _ _ domain_class_not_space Hd),
    (Hmono _ _ is_alpha_not_space Ht).
  reflexivity.
Qed.

Lemma strip_fixed s :
  forallb (fun c => negb (PyStr.is_space c)) (PyStr.chars s) = true -> PyStr.strip s = s.
Proof.
  intros Hall. unfold PyStr.strip.
  assert (forall l, forallb (fun c => negb (PyStr.is_space c)) l = true ->
                    PyStr.lstrip_chars l = l) as Hfix.
  { intros l Hl. apply lstrip_fixed. destruct l as [| c l]; [exact I |].
    cbn in Hl. apply andb_true_iff in Hl as [Hc _]. apply negb_true_iff in Hc. exact Hc. }
  rewrite (Hfix _ Hall). rewrite Hfix.
  - rewrite rev_involutive. apply of_chars_chars.
  - rewrite forallb_forall in *. intros c Hin. apply Hall. apply in_rev. exact Hin.
Qed.

Lemma lower_fixed s :
  forallb (fun c => negb (PyStr.is_upper c)) (PyStr.chars s) = true -> PyStr.lower s = s.
Proof.
  intros Hall. unfold PyStr.lower.
  assert (map PyStr.lower_char (PyStr.chars s) = PyStr.chars s) as ->.
  { induction (PyStr.chars s) as [| c l IH]; [reflexivity |].
    cbn in Hall. apply andb_true_iff in Hall as [Hc Hl]. apply negb_true_iff in Hc.
    cbn. rewrite (lower_char_fixed c Hc), (IH Hl). reflexivity. }
  apply of_chars_chars.
Qed.

Lemma normalize_email_lower e :
  forallb (fun c => negb (PyStr.is_upper c)) (PyStr.chars (normalize_email e)) = true.
Proof.
  unfold normalize_email, PyStr.lower. rewrite chars_of_chars.
  induction (PyStr.chars (PyStr.strip e)) as [| c l IH]; [reflexivity |].
  cbn. rewrite lower_char_not_upper, IH. reflexivity.
Qed.

(** An address that the loop of [validate_attendees] accepts, once
    normalized. *)
Lemma accepted_address e :
  Re.match_anchored email_regex (normalize_email e) = true ->
  email_shape (PyStr.chars (normalize_email e)) /\
  normalize_email (normalize_email e) = normalize_email e.
Proof.
  intros Hmatch. apply address_pattern_accepts_aux in Hmatch.
  assert (email_shape (PyStr.chars (normalize_email e))) as Hshape.
  { destruct Hmatch as [H | (l & Heq & _)]; [exact H |].
    assert (rev (PyStr.chars (normalize_email e)) = "010"%char :: rev l) as Hrev.
    { rewrite Heq, rev_app_distr. reflexivity. }
    apply normalize_email_last in Hrev. discriminate. }
  split; [exact Hshape |].
  unfold normalize_email at 1.
  rewrite (strip_fixed _ (email_shape_no_space _ Hshape)).
  apply lower_fixed, normalize_email_lower.
Qed.

Section Attendees.

Context `{rt : PyRuntime}.

(** X21. The attendees of a validated intent are normalized addresses:
    each has the shape of the pattern (with no line feed after it), has no
    upper-case letter and no white space, and is left as it is by
    [strip().lower()]; so that [validate_attendees] applied to the list
    returns it unchanged. *)
Theorem validated_attendees_normalized args call org i :
  validate_calendar_intent args call org
  = inr (mkValidationResult true (Some i) [] (Some args)) ->
  Forall (fun a =>
            email_shape (PyStr.chars a) /\
            forallb (fun c => negb (PyStr.is_upper c) && negb (PyStr.is_space c))
                    (PyStr.chars a) = true /\
            normalize_email a = a) (attendees i) /\
  validate_attendees (attendees i) = inr (attendees i).
Proof.
  intros Hv. pose proof (valid_intent_has_attendee args call org i Hv) as Hne.
  apply valid_cases in Hv as (_ & key & _ & Hnew).
  apply new_intent_inr in Hnew as (_ & _ & _ & _ & _ & _ & Hatt & _).
  apply check_attendees_inr in Hatt as (items & _ & _ & Hnorm & Hall).
  assert (Forall (fun a => email_shape (PyStr.chars a) /\
                           forallb (fun c => negb (PyStr.is_upper c) &&
                                             negb (PyStr.is_space c))
                                   (PyStr.chars a) = true /\
                           normalize_email a = a /\
                           Re.match_anchored email_regex a = true) (attendees i)) as Hgood.
  { rewrite Hnorm. apply Forall_map. eapply Forall_impl; [exact Hall |].
    intros e He. cbn beta in *. destruct (accepted_address e He) as [Hshape Hfix].
    split; [exact Hshape |]. split; [| split; [exact Hfix | exact He]].
    pose proof (normalize_email_lower e) as Hlow.
    pose proof (email_shape_no_space _ Hshape) as Hsp.
    rewrite forallb_forall in *. intros c Hin.
    rewrite (Hlow c Hin), (Hsp c Hin). reflexivity. }
  split.
  - eapply Forall_impl; [exact Hgood |]. cbn beta. intros a (H1 & H2 & H3 & _). auto.
  - unfold validate_attendees. destruct (attendees i) as [| a rest] eqn:Heq; [congruence |].
    rewrite <- Heq in *. clear Heq Hne Hnorm.
    induction Hgood as [| x l (_ & _ & Hfix & Hm) _ IH]; [reflexivity |].
    cbn [validate_each]. rewrite Hfix, Hm. cbn [negb]. rewrite IH. reflexivity.
Qed.

End Attendees.


Lemma validated_attendees_normalized_witness :
  Forall (fun a =>
            email_shape (PyStr.chars a) /\
            forallb (fun c => negb (PyStr.is_upper c) && negb (PyStr.is_space c))
                    (PyStr.chars a) = true /\
            normalize_email a = a) (attendees Sample.intent) /\
  validate_attendees (attendees Sample.intent) = inr (attendees Sample.intent).
Proof.
  apply (@validated_attendees_normalized reference_runtime
           (Sample.consult "john@example.com") None None Sample.intent).
  vm_compute. reflexivity.
Defined.

(** The endpoint does answer 500 after a request that the webhook has
    accepted: here the webhook answers with a number for calendar link. *)
Example endpoint_answers_500 :
  let request :=
    mkRequest "create_appointment" (Sample.consult "john@example.com") None None None in
  let out := @execute_intent reference_runtime answering_number sample_error_str
               request empty_world in
  fst out
  = inl (mkHTTPException 500
           "Failed to execute intent: calendar_link: Input should be a valid string") /\
  length (calls (snd out)) = 1%nat /\
  was_executed (snd out) "ec55823e2cb65a1d" = true.
Proof. vm_compute. split; [reflexivity | split; reflexivity]. Qed.

(** ** The address check of validation_service.py *)

Lemma startswith_chars p s :
  startswith p s = true <-> exists rest, PyStr.chars s = PyStr.chars p ++ rest.
Proof.
  revert s. induction p as [| a p IH]; intros s; cbn [startswith].
  - split; [intros _; exists (PyStr.chars s); reflexivity | reflexivity].
  - destruct s as [| b s].
    + split; [discriminate | intros [rest Heq]; discriminate].
    + rewrite andb_true_iff, Ascii.eqb_eq, IH. unfold PyStr.chars.
      cbn [list_ascii_of_string app]. split.
      * intros [-> [rest Heq]]. exists rest. rewrite Heq. reflexivity.
      * intros [rest [= -> Heq]]. split; [reflexivity |]. exists rest. exact Heq.
Qed.

(** X22. The address check of validation_service.py accepts an address
    only if the validation of intents accepts it too, and normalizes it
    the same way; what it accepts has the shape of the pattern, at most
    254 characters, no dot in front and no two dots in a row. A refusal
    always comes with a message, and the test for an at sign in front can
    never succeed where it stands, after the pattern: the refusal with
    "cannot start with . or @" is given for a dot in front only. *)
Theorem validate_email_stricter email :
  (fst (validate_email email) = true ->
   snd (validate_email email) = None /\
   validate_attendees [email] = inr [normalize_email email] /\
   email_shape (PyStr.chars (normalize_email email)) /\
   (String.length (normalize_email email) <= 254)%nat /\
   startswith "." (normalize_email email) = false /\
   contains ".." (normalize_email email) = false) /\
  (fst (validate_email email) = false -> exists msg, snd (validate_email email) = Some msg) /\
  (snd (validate_email email) = Some "Email address cannot start with . or @" ->
   startswith "." (normalize_email email) = true).
Proof.
  unfold validate_email. fold (normalize_email email).
  destruct (PyStr.is_empty email).
  { cbn. split; [discriminate |]. split; [eauto | discriminate]. }
  destruct (Nat.ltb 254 (String.length (normalize_email email))) eqn:Hlen.
  { cbn. split; [discriminate |]. split; [eauto | discriminate]. }
  destruct (Re.match_anchored email_regex (normalize_email email)) eqn:Hmatch; cbn [negb].
  2:{ cbn. split; [discriminate |]. split; [eauto | discriminate]. }
  destruct (accepted_address email Hmatch) as [Hshape Hfix].
  assert (startswith "@" (normalize_email email) = false) as Hat.
  { destruct (startswith "@" (normalize_email email)) eqn:Hs; [| reflexivity].
    apply startswith_chars in Hs as [rest Hs].
    destruct Hshape as (local & domain & tld & Heq & Hne & Hl & _).
    rewrite Hs in Heq. destruct local as [| c local]; [congruence |].
    cbn in Heq, Hl. injection Heq as <- _. discriminate Hl. }
  rewrite Hat, orb_false_r.
  destruct (startswith "." (normalize_email email)) eqn:Hdot.
  { cbn. split; [discriminate |]. split; [eauto | reflexivity]. }
  destruct (contains ".." (normalize_email email)) eqn:Hdots.
  { cbn. split; [discriminate |]. split; [eauto | discriminate]. }
  cbn [fst snd]. split; [| split; discriminate].
  intros _. split; [reflexivity |].
  split.
  { cbn [validate_attendees validate_each]. rewrite Hmatch. reflexivity. }
  split; [exact Hshape |].
  split; [apply Nat.ltb_ge in Hlen; exact Hlen |].
  split; reflexivity.
Qed.

Lemma validate_email_stricter_witness :
  snd (validate_email " John@Example.com ") = None /\
  validate_attendees [" John@Example.com "] = inr [normalize_email " John@Example.com "] /\
  email_shape (PyStr.chars (normalize_email " John@Example.com ")) /\
  (String.length (normalize_email " John@Example.com ") <= 254)%nat /\
  startswith "." (normalize_email " John@Example.com ") = false /\
  contains ".." (normalize_email " John@Example.com ") = false.
Proof.
  apply (proj1 (validate_email_stricter " John@Example.com ")).
  vm_compute. reflexivity.
Defined.


(** ** The call states *)

Lemma lookup_setitem_eq k v d : dict_lookup k (CallState.setitem k v d) = Some v.
Proof.
  unfold CallState.setitem. induction d as [| [k' v'] d IH]; cbn.
  - rewrite String.eqb_refl. reflexivity.
  - destruct (String.eqb k k') eqn:Hk; cbn; rewrite Hk; [reflexivity | exact IH].
Qed.

Lemma lookup_setitem_ne k k' v d :
  k <> k' -> dict_lookup k' (CallState.setitem k v d) = dict_lookup k' d.
Proof.
  intros Hne. unfold CallState.setitem. induction d as [| [k0 v0] d IH]; cbn.
  - destruct (String.eqb k' k) eqn:Hk; [| reflexivity].
    apply String.eqb_eq in Hk. congruence.
  - destruct (String.eqb k k0) eqn:Hk; cbn.
    + apply String.eqb_eq in Hk. subst k0.
      destruct (String.eqb k' k) eqn:Hk'; [| reflexivity].
      apply String.eqb_eq in Hk'. congruence.
    + rewrite IH. reflexivity.
Qed.

Lemma get_key_setitem k v d :
  CallState.get_key k (Some (CallState.setitem k v d)) = v.
Proof.
  unfold CallState.get_key.
  pose proof (lookup_setitem_eq k v d) as Hlook.
  destruct (CallState.setitem k v d) as [| kv d']; [discriminate |].
  cbv beta iota. unfold dict_get. rewrite Hlook. reflexivity.
Qed.

Lemma get_key_setitem_ne k k' v d :
  k <> k' ->
  CallState.get_key k' (Some (CallState.setitem k v d)) = dict_get d k' PNone.
Proof.
  intros Hne. unfold CallState.get_key.
  pose proof (lookup_setitem_eq k v d) as Hlook.
  pose proof (lookup_setitem_ne k k' v d Hne) as Hother.
  destruct (CallState.setitem k v d) as [| kv d']; [discriminate |].
  cbv beta iota. unfold dict_get. rewrite Hother. reflexivity.
Qed.

Lemma entry_insert id d (st : CallState.States) :
  CallState.entry id (<[id := d]> st) = d.
Proof. unfold CallState.entry. rewrite lookup_insert_eq. reflexivity. Qed.


(** X24. An escalation is not undone by a later change of phase:
    mark_escalated sets the phase to escalation with the flag, the reason
    and the urgency, keeping the other keys of the state; after an
    update_phase the phase is the new one and the flag, the reason and the
    urgency are still there. *)
Theorem escalation_survives_phase_update now later id reason urgency phase
    (st : CallState.States) :
  let st1 := CallState.mark_escalated now id reason urgency st in
  let st2 := CallState.update_phase later id phase st1 in
  CallState.get_phase id st1 = PStr "escalation" /\
  (forall k, ~ In k ["escalated"; "escalation_reason"; "escalation_urgency"; "phase";
                     "updated_at"] ->
             dict_lookup k (CallState.entry id st1) = dict_lookup k (CallState.entry id st)) /\
  CallState.get_phase id st2 = PStr (phase_value phase) /\
  dict_lookup "escalated" (CallState.entry id st2) = Some (PBool true) /\
  dict_lookup "escalation_reason" (CallState.entry id st2) = Some (PStr reason) /\
  dict_lookup "escalation_urgency" (CallState.entry id st2) = Some (PStr urgency).
Proof.
  cbv zeta.
  unfold CallState.mark_escalated, CallState.update_phase, CallState.get_phase,
    CallState.get_state.
  rewrite !entry_insert, !lookup_insert_eq.
  split.
  { rewrite get_key_setitem_ne by discriminate.
    unfold dict_get. rewrite lookup_setitem_eq. reflexivity. }
  split.
  { intros k Hk. cbn [In] in Hk.
    rewrite !lookup_setitem_ne by (intros <-; apply Hk; auto 10). reflexivity. }
  split.
  { rewrite get_key_setitem_ne by discriminate.
    unfold dict_get. rewrite lookup_setitem_eq. reflexivity. }
  split; [| split].
  - rewrite !lookup_setitem_ne by discriminate. apply lookup_setitem_eq.
  - rewrite !lookup_setitem_ne by discriminate. apply lookup_setitem_eq.
  - rewrite !lookup_setitem_ne by discriminate. apply lookup_setitem_eq.
Qed.





(** ** Distinct identities, and identities brought by the payload *)

Section Identities.

Context `{rt : PyRuntime}.
Variable env : Env.

(** X28. Deduplication never suppresses a different appointment: when a
    webhook URL is configured, a run of calls for intents of pairwise
    distinct identities, none of which has a record yet, sends one request
    per intent, and no result of the run is a duplicate. *)
Theorem distinct_identities_all_sent :
  PyStr.is_empty (ZAPIER_WEBHOOK_URL env) = false ->
  forall intents w,
    Forall (fun i => attendees i <> []) intents ->
    NoDup (map ledger_key intents) ->
    Forall (fun i => executions w !! ledger_key i = None) intents ->
    length (calls (snd (execute_all env intents w)))
    = (length (calls w) + length intents)%nat /\
    Forall (fun r => er_is_duplicate r = false /\ er_status r <> DUPLICATE)
           (fst (execute_all env intents w)) /\
    length (fst (execute_all env intents w)) = length intents.
Proof.
  intros Hurl. induction intents as [| intent rest IH]; intros w Hatt Hnodup Hfresh.
  - cbn. split; [lia |]. split; [constructor | reflexivity].
  - cbn [execute_all].
    apply Forall_cons in Hatt as [Hatt1 Hatt]. apply Forall_cons in Hfresh as [Hnone Hfresh].
    cbn [map] in Hnodup. apply NoDup_cons in Hnodup as [Hnotin Hnodup].
    pose proof (execute_fresh env intent w) as Hexec. rewrite Hnone in Hexec.
    destruct (Hexec I) as (_ & Hnd & Hst & Hsend). clear Hexec.
    destruct (Hsend Hurl Hatt1) as [payload Hp].
    destruct (execute_frame env intent w) as (Hframe & _).
    destruct (execute_calendar_intent env intent w) as [r w1]. cbn [fst snd] in *.
    assert (Forall (fun i => executions w1 !! ledger_key i = None) rest) as Hfresh1.
    { rewrite Forall_forall in *. intros i Hin. rewrite Hframe; [apply Hfresh, Hin |].
      intros Heq. apply Hnotin. rewrite <- Heq.
      apply list_elem_of_In, in_map, list_elem_of_In, Hin. }
    destruct (IH w1 Hatt Hnodup Hfresh1) as (Hlen & Hres & Hcount).
    destruct (execute_all env rest w1) as [rs w2]. cbn [fst snd length] in *.
    split; [rewrite Hlen, Hp, length_app; cbn; lia |].
    split; [| rewrite Hcount; reflexivity].
    constructor; [| exact Hres]. split; [exact Hnd |].
    destruct Hst as [[Hs _] | [Hs _]]; rewrite Hs; discriminate.
Qed.

(** X29. An identity brought by the payload overrides the digest of its
    content: a payload that validates and has a truthy "intent_id" is
    answered as a duplicate whenever the ledger holds an EXECUTED record
    under that identity, whatever its title, its times and its attendees
    are, and nothing is sent. *)
Theorem supplied_identity_overrides_content args call org item w i id existing :
  validate_calendar_intent args call org = inr (valid_result args i) ->
  dict_lookup "intent_id" args = Some (PStr id) ->
  id <> EmptyString ->
  executions w !! id = Some existing ->
  er_status existing = EXECUTED ->
  intent_id i = Some id /\
  fst (handle_tool_call env "create_appointment" (PDict args) call org item w)
  = inr [("success", PBool true);
         ("is_duplicate", PBool true);
         ("message", PStr "This appointment was already created.");
         ("appointment_id", PStr id)] /\
  calls (snd (handle_tool_call env "create_appointment" (PDict args) call org item w))
  = calls w.
Proof.
  intros Hv Hown Hne Hlook Hst.
  destruct (valid_intent_identity args call org i Hv) as (id' & Hid & _ & _ & Hgiven & _).
  assert (truthy (dict_get args "intent_id" PNone) = true) as Htruthy.
  { unfold dict_get. rewrite Hown. cbn. destruct id; [congruence | reflexivity]. }
  specialize (Hgiven Htruthy). rewrite Hown in Hgiven. injection Hgiven as <-.
  split; [exact Hid |].
  destruct (handle_duplicate env args call org item w i id existing Hv Hid Hlook Hst)
    as (Hanswer & Hcalls & _).
  split; assumption.
Qed.

End Identities.


Lemma distinct_identities_all_sent_witness :
  let intents := [Sample.intent; with_identity "other" Sample.intent] in
  let run := @execute_all reference_runtime Sample.accepting intents empty_world in
  length (calls (snd run)) = (length (calls empty_world) + length intents)%nat /\
  Forall (fun r => er_is_duplicate r = false /\ er_status r <> DUPLICATE) (fst run) /\
  length (fst run) = length intents.
Proof.
  apply (@distinct_identities_all_sent reference_runtime Sample.accepting).
  - reflexivity.
  - constructor; [discriminate |]. constructor; [discriminate | constructor].
  - constructor; [| constructor; [| constructor]].
    + cbn. intros H. apply list_elem_of_In in H. destruct H as [H | []]. discriminate H.
    + intros H. apply list_elem_of_In in H. destruct H.
  - constructor; [vm_compute; reflexivity |].
    constructor; [vm_compute; reflexivity | constructor].
Defined.

Lemma supplied_identity_overrides_content_witness :
  let w := executed_once Sample.accepting in
  intent_id follow_up_intent = Some "ec55823e2cb65a1d" /\
  fst (@handle_tool_call reference_runtime Sample.accepting "create_appointment"
         (PDict follow_up) None None None w)
  = inr [("success", PBool true);
         ("is_duplicate", PBool true);
         ("message", PStr "This appointment was already created.");
         ("appointment_id", PStr "ec55823e2cb65a1d")] /\
  calls (snd (@handle_tool_call reference_runtime Sample.accepting "create_appointment"
                (PDict follow_up) None None None w))
  = calls w.
Proof.
  apply (@supplied_identity_overrides_content reference_runtime Sample.accepting
           follow_up None None None (executed_once Sample.accepting) follow_up_intent
           "ec55823e2cb65a1d"
           (mkExecutionResult true EXECUTED "ec55823e2cb65a1d" (PDict []) None false
              (Some (Sample.clock 1)))).
  - vm_compute. reflexivity.
  - reflexivity.
  - discriminate.
  - vm_compute. reflexivity.
  - reflexivity.
Defined.


(** ** The fields named in the answer to an invalid payload *)

Lemma split_head_no_colon s rest :
  no_colon s = true ->
  PyStr.split_head ":" (s +:+ rest) = s +:+ PyStr.split_head ":" rest.
Proof.
  unfold no_colon, PyStr.chars. induction s as [| a s IH]; [reflexivity |].
  cbn [list_ascii_of_string forallb]. intros H. apply andb_true_iff in H as [Ha Hs].
  change (String a s +:+ rest) with (String a (s +:+ rest)).
  change (String a s +:+ PyStr.split_head ":" rest)
    with (String a (s +:+ PyStr.split_head ":" rest)).
  cbn [PyStr.split_head]. apply negb_true_iff in Ha. rewrite Ha, (IH Hs). reflexivity.
Qed.

Lemma append_empty_r s : s +:+ EmptyString = s.
Proof.
  induction s as [| a s IH]; [reflexivity |].
  change (String a s +:+ EmptyString) with (String a (s +:+ EmptyString)).
  rewrite IH. reflexivity.
Qed.

Lemma no_colon_append s t :
  no_colon (s +:+ t) = (no_colon s && no_colon t)%bool.
Proof.
  unfold no_colon, PyStr.chars. induction s as [| a s IH]; [reflexivity |].
  change (String a s +:+ t) with (String a (s +:+ t)).
  cbn [list_ascii_of_string forallb]. rewrite IH, andb_assoc. reflexivity.
Qed.

Lemma no_colon_of_nat n : no_colon (PyStr.of_nat n) = true.
Proof.
  unfold PyStr.of_nat. generalize (Nat.to_uint n). intros u.
  assert (forall u', no_colon (NilEmpty.string_of_uint u') = true) as Hdigits.
  { induction u' as [| u' IH | u' IH | u' IH | u' IH | u' IH | u' IH | u' IH | u' IH
                     | u' IH | u' IH]; [reflexivity | exact IH ..]. }
  destruct u; [reflexivity | apply Hdigits ..].
Qed.

(** The entry of [errors] for an error whose location has no colon names
    that location before its first colon. *)
Lemma split_head_format_error e :
  no_colon (PyStr.join "." (err_loc e)) = true ->
  PyStr.split_head ":" (format_error e) = PyStr.join "." (err_loc e).
Proof.
  intros H. unfold format_error. rewrite (split_head_no_colon _ _ H).
  change (": " +:+ err_msg e) with (String ":" (" " +:+ err_msg e)).
  cbn [PyStr.split_head Ascii.eqb Bool.eqb]. apply append_empty_r.
Qed.

Section ErrorFields.

Context `{rt : PyRuntime}.
Variable env : Env.

Lemma located_field_error {A : Type} field msg :
  no_colon field = true -> located (errors_of (@field_error A [field] msg)).
Proof. intros H. constructor; [exact H | constructor]. Qed.

Lemma located_run_validator {A : Type} field (m : Result A) :
  no_colon field = true -> located (errors_of (run_validator [field] m)).
Proof.
  intros H. unfold run_validator. destruct m; [apply located_field_error, H | constructor].
Qed.

Lemma located_check_str field v :
  no_colon field = true -> located (errors_of (check_str [field] v)).
Proof.
  intros H. destruct v; cbn [check_str]; try apply located_field_error, H. constructor.
Qed.

Lemma located_check_opt_str field v :
  no_colon field = true -> located (errors_of (check_opt_str [field] v)).
Proof.
  intros H. destruct v; cbn [check_opt_str]; try apply located_field_error, H; constructor.
Qed.

Lemma located_check_bool field v :
  no_colon field = true -> located (errors_of (check_bool [field] v)).
Proof.
  intros H. destruct v as [| b | n | s | l | d]; cbn [check_bool];
    try apply located_field_error, H; try constructor.
  - destruct n as [| [p | p |] | p]; try apply located_field_error, H; constructor.
  - repeat match goal with
           | |- context [if ?c then _ else _] => destruct c
           end; try apply located_field_error, H; constructor.
Qed.

Lemma located_check_items : forall l i,
  located (fst (check_items "attendees" i l)).
Proof.
  induction l as [| v l IH]; intros i; [constructor |].
  cbn [check_items]. specialize (IH (S i)).
  destruct (check_items "attendees" (S i) l) as [errs items]. cbn [fst] in IH.
  destruct v; cbn [fst]; try exact IH;
    (constructor; [| exact IH]; cbn [err_loc PyStr.join];
     rewrite !no_colon_append, no_colon_of_nat; reflexivity).
Qed.

Lemma located_check_attendees v : located (errors_of (check_attendees v)).
Proof.
  unfold check_attendees.
  destruct v as [| b | n | s | l | d];
    try (apply (located_field_error "attendees"); reflexivity).
  pose proof (located_check_items l 0) as Hitems.
  destruct (check_items "attendees" 0 l) as [[| err errs] items]; cbn [fst] in Hitems.
  - destruct (Nat.ltb (length items) 1);
      [apply (located_field_error "attendees") | apply (located_run_validator "attendees")];
      reflexivity.
  - exact Hitems.
Qed.

Lemma located_new_intent d errs :
  new_CalendarEventIntent d = inl errs -> located errs.
Proof.
  intros Hnew. rewrite (new_intent_inl d errs Hnew). unfold located.
  repeat (apply Forall_app; split).
  - unfold check_action. destruct (check_str ["action"] (nd_action d)) eqn:Hs.
    + rewrite <- Hs. apply (located_check_str "action"). reflexivity.
    + apply (located_run_validator "action"). reflexivity.
  - unfold check_title. destruct (check_str ["title"] (nd_title d)) eqn:Hs.
    + rewrite <- Hs. apply (located_check_str "title"). reflexivity.
    + repeat match goal with
             | |- context [if ?c then _ else _] => destruct c
             end; try (apply (located_field_error "title"); reflexivity); constructor.
  - apply (located_check_opt_str "description"). reflexivity.
  - unfold check_time. destruct (check_str ["start_time"] (nd_start_time d)) eqn:Hs.
    + rewrite <- Hs. apply (located_check_str "start_time"). reflexivity.
    + apply (located_run_validator "start_time"). reflexivity.
  - unfold check_time. destruct (check_str ["end_time"] (nd_end_time d)) eqn:Hs.
    + rewrite <- Hs. apply (located_check_str "end_time"). reflexivity.
    + apply (located_run_validator "end_time"). reflexivity.
  - apply (located_check_str "timezone"). reflexivity.
  - apply located_check_attendees.
  - apply (located_check_bool "send_email"). reflexivity.
  - apply (located_check_opt_str "intent_id"). reflexivity.
Qed.

(** X30. When the required fields are there and the model refuses the
    payload, the orchestrator names the offending fields: its answer
    lists under "missing_fields" the location of every error of the
    model, in the order of the fields of the model (a field name, or
    attendees.N for the N-th attendee), and under "error" the messages
    joined by "; ". Nothing is executed. *)
Theorem model_errors_name_fields args call org item w errs :
  missing_fields args = [] ->
  (exists key,
      idempotency_key args = inr key /\
      new_CalendarEventIntent (normalized_data args (intent_id_of args key) call org)
      = inl errs) ->
  let answer := fst (handle_tool_call env "create_appointment" (PDict args) call org item w) in
  let w' := snd (handle_tool_call env "create_appointment" (PDict args) call org item w) in
  exists res,
    answer = inr res /\
    dict_lookup "success" res = Some (PBool false) /\
    dict_lookup "error" res = Some (PStr (PyStr.join "; " (map format_error errs))) /\
    dict_lookup "missing_fields" res
    = Some (PList (map (fun e => PStr (PyStr.join "." (err_loc e))) errs)) /\
    calls w' = calls w /\ executions w' = executions w.
Proof.
  intros Hmiss (key & Hkey & Hnew). cbv zeta.
  assert (validate_calendar_intent args call org
          = inr (mkValidationResult false None (map format_error errs) (Some args))) as Hv.
  { unfold validate_calendar_intent. rewrite Hmiss, Hkey. cbn [bind]. rewrite Hnew.
    reflexivity. }
  unfold handle_tool_call, route_tool_call, _handle_create_appointment.
  cbn [read_clock String.eqb Ascii.eqb Bool.eqb parse_tool_call_safely opt_truthy].
  rewrite Hv. cbn [is_valid negb errors try_except fst snd calls executions].
  eexists. split; [reflexivity |].
  cbn [dict_lookup String.eqb Ascii.eqb Bool.eqb].
  split; [reflexivity |]. split; [reflexivity |]. split; [| split; reflexivity].
  do 2 f_equal. rewrite map_map. apply map_ext_Forall.
  pose proof (located_new_intent _ _ Hnew) as Hloc.
  eapply Forall_impl; [exact Hloc |]. cbn beta. intros e He.
  rewrite (split_head_format_error e He). reflexivity.
Qed.

End ErrorFields.

Lemma model_errors_name_fields_witness :
  let errs :=
    [mkFieldError ["start_time"]
       "Value error, Invalid ISO-8601 datetime: tomorrow at two. Expected format: YYYY-MM-DDTHH:MM:SSZ"] in
  let answer := fst (@handle_tool_call reference_runtime Sample.accepting "create_appointment"
                       (PDict Sample.consult_tomorrow) None None None empty_world) in
  let w' := snd (@handle_tool_call reference_runtime Sample.accepting "create_appointment"
                   (PDict Sample.consult_tomorrow) None None None empty_world) in
  exists res,
    answer = inr res /\
    dict_lookup "success" res = Some (PBool false) /\
    dict_lookup "error" res = Some (PStr (PyStr.join "; " (map format_error errs))) /\
    dict_lookup "missing_fields" res
    = Some (PList (map (fun e => PStr (PyStr.join "." (err_loc e))) errs)) /\
    calls w' = calls empty_world /\ executions w' = executions empty_world.
Proof.
  apply (@model_errors_name_fields reference_runtime Sample.accepting
           Sample.consult_tomorrow None None None empty_world).
  - reflexivity.
  - eexists. split; vm_compute; reflexivity.
Defined.

(** ** Calls that overlap *)

Section Locks.

Context `{rt : PyRuntime}.
Variable env : Env.

(** Asking again for a lock that is there changes nothing. *)
Lemma get_lock_again intent_id w :
  intent_id ∈ locks w -> _get_lock intent_id w = w.
Proof.
  intros Hin. destruct w as [ex ls cs t]. unfold _get_lock, set_locks. cbn in *.
  f_equal. apply subseteq_union_1_L, singleton_subseteq_l. exact Hin.
Qed.

(** STEP 1, on a record that is EXECUTED or EXECUTING. *)
Lemma under_lock_duplicate intent w existing :
  executions w !! ledger_key intent = Some existing ->
  er_status existing = EXECUTED \/ er_status existing = EXECUTING ->
  exists r w',
    under_lock env intent w = (IsDuplicate r, w') /\ is_duplicate_result r /\
    executions w' = executions w /\ calls w' = calls w /\ locks w' = locks w.
Proof.
  intros Hlook Hst.
  assert (status_in (er_status existing) [EXECUTED; EXECUTING] = true) as Hin.
  { apply status_in_spec. simpl. destruct Hst; auto. }
  unfold under_lock. rewrite Hlook, Hin.
  simpl. do 2 eexists. split; [reflexivity |].
  unfold is_duplicate_result. simpl. auto.
Qed.

(** The body under the lock leaves the locks and the requests alone, and
    when it goes on to STEP 3 it has marked the record. *)
Lemma under_lock_frame intent w :
  locks (snd (under_lock env intent w)) = locks w /\
  calls (snd (under_lock env intent w)) = calls w /\
  (fst (under_lock env intent w) = Started ->
   executions (snd (under_lock env intent w)) !! ledger_key intent
   = Some (mkExecutionResult false EXECUTING (ledger_key intent) (PDict []) None false None)).
Proof.
  unfold under_lock.
  destruct (match executions w !! ledger_key intent with
            | Some existing => status_in (er_status existing) [EXECUTED; EXECUTING]
            | None => false
            end); cbn.
  - repeat split. discriminate.
  - repeat split. intros _. apply lookup_insert_eq.
Qed.

(** A call that has the lock and finds an EXECUTED or EXECUTING record. *)
Lemma take_duplicate p intent lock existing :
  executions (world p) !! ledger_key intent = Some existing ->
  er_status existing = EXECUTED \/ er_status existing = EXECUTING ->
  exists r w',
    take env intent lock p
    = (IsDuplicate r,
       mkProcess w' (lock_objects p) (locks_made p) (holders p) (waiting p)) /\
    is_duplicate_result r /\
    calls w' = calls (world p) /\
    executions w' = executions (world p) /\
    locks w' = locks (world p).
Proof.
  intros Hlook Hst.
  destruct (under_lock_duplicate intent (world p) existing Hlook Hst)
    as (r & w' & Hbody & Hdup & Hex & Hcalls & Hlocks).
  unfold take. rewrite Hbody. exists r, w'. auto.
Qed.

(** The lock [_get_lock] gives. *)
Lemma get_lock_lock intent_id p :
  fst (get_lock intent_id p) = lock_of p intent_id.
Proof.
  unfold get_lock, lock_of. destruct (lock_objects p !! intent_id); reflexivity.
Qed.

(** A call that arrives at a free lock and finds an EXECUTED or EXECUTING
    record. *)
Lemma arrive_duplicate p intent existing :
  lock_free p (ledger_key intent) = true ->
  executions (world p) !! ledger_key intent = Some existing ->
  er_status existing = EXECUTED \/ er_status existing = EXECUTING ->
  exists r p',
    arrive env intent p = (Entered (lock_of p (ledger_key intent)) (IsDuplicate r), p') /\
    is_duplicate_result r /\
    calls (world p') = calls (world p) /\
    executions (world p') = executions (world p) /\
    lock_free p' (ledger_key intent) = true.
Proof.
  intros Hfree Hlook Hst. unfold lock_free, lock_of in Hfree.
  unfold arrive, get_lock, lock_of.
  destruct (lock_objects p !! ledger_key intent) as [lock |] eqn:Hobj.
  - apply negb_true_iff in Hfree. rewrite Hfree.
    destruct (take_duplicate p intent lock existing Hlook Hst)
      as (r & w' & -> & Hdup & Hcalls & Hex & _).
    do 2 eexists. split; [reflexivity |]. cbn [world].
    split; [exact Hdup |]. split; [exact Hcalls |]. split; [exact Hex |].
    unfold lock_free, lock_of, lock_busy in *. cbn [lock_objects holders waiting].
    rewrite Hobj. rewrite Hfree. reflexivity.
  - apply negb_true_iff in Hfree.
    set (p1 := mkProcess _ _ _ _ _).
    assert (lock_busy p1 (locks_made p) = false) as Hfree1 by exact Hfree.
    rewrite Hfree1.
    destruct (take_duplicate p1 intent (locks_made p) existing Hlook Hst)
      as (r & w' & -> & Hdup & Hcalls & Hex & _).
    do 2 eexists. split; [reflexivity |]. cbn [world].
    split; [exact Hdup |]. split; [exact Hcalls |]. split; [exact Hex |].
    unfold lock_free, lock_of, lock_busy in *. cbn [lock_objects holders waiting p1].
    rewrite lookup_insert_eq. rewrite Hfree. reflexivity.
Qed.

(** A call that arrives at a lock that is taken waits, and touches
    neither the ledger nor the webhook. *)
Lemma arrive_waits p intent :
  lock_free p (ledger_key intent) = false ->
  exists p',
    arrive env intent p = (Waits (lock_of p (ledger_key intent)), p') /\
    waiting p' = waiting p ++ [(lock_of p (ledger_key intent), intent)] /\
    holders p' = holders p /\
    executions (world p') = executions (world p) /\
    calls (world p') = calls (world p).
Proof.
  intros Hbusy. unfold lock_free, lock_of in Hbusy. unfold arrive, get_lock, lock_of.
  apply negb_false_iff in Hbusy.
  destruct (lock_objects p !! ledger_key intent) as [lock |] eqn:Hobj.
  - rewrite Hbusy. eexists. split; [reflexivity |]. cbn. auto.
  - set (p1 := mkProcess _ _ _ _ _).
    assert (lock_busy p1 (locks_made p) = true) as -> by exact Hbusy.
    eexists. split; [reflexivity |]. cbn. auto.
Qed.

(** While a call holds the lock of an identity, the calls that arrive
    for the identity queue up. *)
Lemma arrive_each_wait intents : forall p id lock,
  lock_objects p !! id = Some lock ->
  is_Some (holders p !! lock) ->
  Forall (fun i => ledger_key i = id) intents ->
  arrive_each env intents p
  = (map (fun _ => Waits lock) intents,
     mkProcess (world p) (lock_objects p) (locks_made p) (holders p)
               (waiting p ++ map (fun i => (lock, i)) intents)).
Proof.
  induction intents as [| intent rest IH]; intros p id lock Hobj Hheld Hall.
  - cbn. rewrite app_nil_r. destruct p. reflexivity.
  - inversion Hall as [| ? ? Hkey Hrest]; subst.
    cbn [arrive_each map]. unfold arrive, get_lock. rewrite Hobj.
    unfold lock_busy. rewrite (bool_decide_eq_true_2 _ Hheld). cbn [orb].
    rewrite (IH _ (ledger_key intent) lock); cbn [world lock_objects locks_made holders waiting];
      [| assumption ..].
    rewrite <- app_assoc. reflexivity.
Qed.

(** The oldest call that waits for a lock comes after the calls that
    wait for other locks. *)
Lemma next_waiter_app lock pre intent rest :
  has_waiter lock pre = false ->
  next_waiter lock (pre ++ (lock, intent) :: rest) = Some (intent, pre ++ rest).
Proof.
  induction pre as [| [lock' i'] pre IH]; intros Hnone; cbn.
  - rewrite Nat.eqb_refl. reflexivity.
  - cbn in Hnone. apply orb_false_iff in Hnone as [Hne Hnone].
    rewrite Hne, (IH Hnone). reflexivity.
Qed.

(** The world after [_get_lock]. *)
Lemma get_lock_world intent_id p :
  executions (world (snd (get_lock intent_id p))) = executions (world p) /\
  calls (world (snd (get_lock intent_id p))) = calls (world p) /\
  (locks_agree p ->
   world (snd (get_lock intent_id p)) = _get_lock intent_id (world p) /\
   locks_agree (snd (get_lock intent_id p))).
Proof.
  unfold get_lock, locks_agree.
  destruct (lock_objects p !! intent_id) as [lock |] eqn:Hobj; cbn.
  - split; [reflexivity |]. split; [reflexivity |]. intros Hagree.
    split; [| assumption]. symmetry. apply get_lock_again.
    rewrite Hagree. apply elem_of_dom. eauto.
  - split; [reflexivity |]. split; [reflexivity |]. intros Hagree.
    split; [reflexivity |]. rewrite dom_insert_L, Hagree. reflexivity.
Qed.

(** What a call that has entered has found and left. *)
Lemma arrive_entered p intent lock b p1 :
  arrive env intent p = (Entered lock b, p1) ->
  under_lock env intent (world (snd (get_lock (ledger_key intent) p))) = (b, world p1) /\
  lock_objects p1 !! ledger_key intent = Some lock /\
  lock_objects p1 = lock_objects (snd (get_lock (ledger_key intent) p)) /\
  holders p !! lock = None /\
  has_waiter lock (waiting p) = false /\
  holders p1 = match b with
               | Started => <[lock := intent]> (holders p)
               | IsDuplicate _ => holders p
               end /\
  waiting p1 = waiting p.
Proof.
  unfold arrive, get_lock, take.
  destruct (lock_objects p !! ledger_key intent) as [l |] eqn:Hobj.
  - destruct (lock_busy p l) eqn:Hbusy; [discriminate |].
    unfold lock_busy in Hbusy. apply orb_false_iff in Hbusy as [Hheld Hwait].
    apply bool_decide_eq_false in Hheld.
    assert (holders p !! l = None) as Hnone
      by (destruct (holders p !! l) eqn:E; [destruct Hheld; eauto | reflexivity]).
    cbn [snd].
    destruct (under_lock env intent (world p)) as [b' w1]. intros [= <- <- <-].
    cbn. auto 10.
  - set (p1' := mkProcess _ _ _ _ _).
    destruct (lock_busy p1' (locks_made p)) eqn:Hbusy; [discriminate |].
    unfold lock_busy in Hbusy. apply orb_false_iff in Hbusy as [Hheld Hwait].
    apply bool_decide_eq_false in Hheld. cbn [p1' holders waiting] in Hheld, Hwait.
    assert (holders p !! locks_made p = None) as Hnone
      by (destruct (holders p !! locks_made p) eqn:E; [destruct Hheld; eauto | reflexivity]).
    cbn [snd p1' world lock_objects locks_made holders waiting].
    destruct (under_lock env intent (_get_lock (ledger_key intent) (world p))) as [b' w1].
    intros [= <- <- <-]. cbn.
    split; [reflexivity |]. split; [apply lookup_insert_eq |]. auto 10.
Qed.

(** Calls served one after the other are calls executed one after the
    other. *)
Lemma serve_execute_all intents : forall p lock pre more,
  holders p !! lock = None ->
  waiting p = pre ++ map (fun i => (lock, i)) intents ++ more ->
  has_waiter lock pre = false ->
  Forall (fun i => ledger_key i ∈ locks (world p)) intents ->
  serve env (length intents) lock p
  = (fst (execute_all env intents (world p)),
     mkProcess (snd (execute_all env intents (world p)))
               (lock_objects p) (locks_made p) (holders p) (pre ++ more)).
Proof.
  induction intents as [| intent rest IH]; intros p lock pre more Hfree Hwait Hpre Hall.
  - destruct p. cbn in *. subst. reflexivity.
  - inversion Hall as [| ? ? Hin Hrest]; subst.
    cbn [serve execute_all length]. unfold resume.
    rewrite bool_decide_eq_false_2 by (rewrite Hfree; intros [? ?]; discriminate).
    rewrite Hwait. cbn [map app]. rewrite (next_waiter_app lock pre intent _ Hpre).
    unfold take, execute_calendar_intent, execute_begin. cbn [world lock_objects locks_made holders waiting].
    rewrite (get_lock_again _ _ Hin).
    pose proof (under_lock_frame intent (world p)) as (Hlocks & _).
    destruct (under_lock env intent (world p)) as [[r |] w1]; cbn [snd] in Hlocks.
    + rewrite (IH _ lock pre more); cbn [world lock_objects locks_made holders waiting];
        [| assumption | reflexivity | assumption | rewrite Hlocks; assumption].
      destruct (execute_all env rest w1) as [rs w2]. reflexivity.
    + unfold complete. cbn [world lock_objects locks_made holders waiting].
      rewrite lookup_insert_eq.
      pose proof (execute_finish_frame env intent w1) as (Hlocks' & _).
      destruct (execute_finish env intent w1) as [r w2]. cbn [snd] in Hlocks'.
      rewrite (delete_insert_id (holders p) lock intent Hfree).
      rewrite (IH _ lock pre more); cbn [world lock_objects locks_made holders waiting];
        [| assumption | reflexivity | assumption | rewrite Hlocks', Hlocks; assumption].
      destruct (execute_all env rest w2) as [rs w3]. reflexivity.
Qed.

(** Calls that overlap on one identity: the first holds the lock, those
    that arrive meanwhile wait, and once the first has its answer they
    are served in turn. The results and the world are those of the same
    calls made one after the other. *)
Lemma overlapping_calls_serialized p first rest lock p1 :
  locks_agree p ->
  Forall (fun i => ledger_key i = ledger_key first) rest ->
  arrive env first p = (Entered lock Started, p1) ->
  exists p2 r p3 rs p4,
    arrive_each env rest p1 = (map (fun _ => Waits lock) rest, p2) /\
    executions (world p2) = executions (world p1) /\
    calls (world p2) = calls (world p) /\
    complete env lock p2 = Some (r, p3) /\
    serve env (length rest) lock p3 = (rs, p4) /\
    (r :: rs, world p4) = execute_all env (first :: rest) (world p) /\
    lock_free p4 (ledger_key first) = true.
Proof.
  intros Hagree Hall Harrive.
  destruct (arrive_entered p first lock Started p1 Harrive)
    as (Hbody & Hobj & Hobjs & Hfree & Hnone & Hheld & Hwait).
  destruct (get_lock_world (ledger_key first) p) as (_ & _ & Hget).
  destruct (Hget Hagree) as (Hworld & Hagree0). clear Hget.
  assert (execute_begin env first (world p) = (Started, world p1)) as Hbegin.
  { unfold execute_begin. rewrite <- Hworld. exact Hbody. }
  assert (locks_agree p1) as Hagree1.
  { unfold locks_agree in *. rewrite Hobjs, <- Hagree0.
    pose proof (under_lock_frame first (world (snd (get_lock (ledger_key first) p))))
      as (Hl & _).
    rewrite Hbody in Hl. exact Hl. }
  assert (is_Some (holders p1 !! lock)) as Hholds.
  { rewrite Hheld, lookup_insert_eq. eauto. }
  pose proof (execute_begin_locks env first (world p)) as (_ & Hcalls & _).
  rewrite Hbegin in Hcalls. cbn [snd] in Hcalls.
  pose proof (execute_finish_frame env first (world p1)) as (Hlocks & _).
  destruct (execute_finish env first (world p1)) as [r w2] eqn:Hfin. cbn [snd] in Hlocks.
  assert (ledger_key first ∈ locks w2) as Hin.
  { rewrite Hlocks, Hagree1. apply elem_of_dom. eauto. }
  set (p2 := mkProcess (world p1) (lock_objects p1) (locks_made p1) (holders p1)
                       (waiting p1 ++ map (fun i => (lock, i)) rest)).
  set (p3 := mkProcess w2 (lock_objects p1) (locks_made p1) (holders p)
                       (waiting p ++ map (fun i => (lock, i)) rest)).
  assert (complete env lock p2 = Some (r, p3)) as Hcomplete.
  { unfold complete, p2, p3. cbn [world lock_objects locks_made holders waiting].
    rewrite Hheld, lookup_insert_eq, Hfin, (delete_insert_id (holders p) lock first Hfree), Hwait.
    reflexivity. }
  assert (serve env (length rest) lock p3
          = (fst (execute_all env rest w2),
             mkProcess (snd (execute_all env rest w2))
                       (lock_objects p1) (locks_made p1) (holders p) (waiting p ++ [])))
    as Hserve.
  { apply (serve_execute_all rest p3 lock (waiting p) []); cbn [p3 world holders waiting].
    - assumption.
    - rewrite app_nil_r. reflexivity.
    - assumption.
    - eapply Forall_impl; [exact Hall |]. cbn. intros i ->. exact Hin. }
  exists p2, r, p3. do 2 eexists.
  split; [apply (arrive_each_wait rest p1 (ledger_key first) lock Hobj Hholds Hall) |].
  split; [reflexivity |]. split; [exact Hcalls |]. split; [exact Hcomplete |].
  split; [exact Hserve |].
  cbn [execute_all]. unfold execute_calendar_intent. rewrite Hbegin, Hfin.
  destruct (execute_all env rest w2) as [rs w3]. cbn [fst snd world].
  split; [reflexivity |].
  unfold lock_free, lock_of, lock_busy. cbn [lock_objects holders waiting].
  rewrite Hobj, app_nil_r, Hnone.
  rewrite bool_decide_eq_false_2 by (rewrite Hfree; intros [? ?]; discriminate).
  reflexivity.
Qed.

(** Any number of calls that arrive at the free lock of an identity whose
    record is EXECUTED or EXECUTING are duplicates, send nothing and
    write nothing. *)
Lemma arrive_each_duplicates intents : forall p id existing,
  lock_free p id = true ->
  executions (world p) !! id = Some existing ->
  er_status existing = EXECUTED \/ er_status existing = EXECUTING ->
  Forall (fun intent => ledger_key intent = id) intents ->
  Forall (fun a => exists lock r, a = Entered lock (IsDuplicate r) /\ is_duplicate_result r)
         (fst (arrive_each env intents p)) /\
  length (fst (arrive_each env intents p)) = length intents /\
  calls (world (snd (arrive_each env intents p))) = calls (world p) /\
  executions (world (snd (arrive_each env intents p))) = executions (world p) /\
  lock_free (snd (arrive_each env intents p)) id = true.
Proof.
  induction intents as [| intent rest IH]; intros p id existing Hfree Hlook Hst Hall.
  - cbn. auto.
  - inversion Hall as [| ? ? Hkey Hrest]; subst.
    destruct (arrive_duplicate p intent existing Hfree Hlook Hst)
      as (r & p' & Harrive & Hdup & Hcalls & Hex & Hfree').
    cbn [arrive_each]. rewrite Harrive.
    assert (executions (world p') !! ledger_key intent = Some existing) as Hlook'
      by (rewrite Hex; assumption).
    specialize (IH p' (ledger_key intent) existing Hfree' Hlook' Hst Hrest).
    destruct (arrive_each env rest p') as [arrivals p2]. cbn [fst snd] in *.
    destruct IH as (IH1 & IH2 & IH3 & IH4 & IH5).
    repeat split; [constructor; eauto | cbn; congruence | congruence ..].
Qed.

(** A call that had to wait and finds an EXECUTED or EXECUTING record
    when its turn comes. *)
Lemma resume_duplicate p lock intent b p' existing :
  resume env lock p = Some (intent, b, p') ->
  executions (world p) !! ledger_key intent = Some existing ->
  er_status existing = EXECUTED \/ er_status existing = EXECUTING ->
  (exists r, b = IsDuplicate r /\ is_duplicate_result r) /\
  calls (world p') = calls (world p) /\
  executions (world p') = executions (world p) /\
  holders p' = holders p.
Proof.
  unfold resume. intros Hresume Hlook Hst.
  destruct (bool_decide (is_Some (holders p !! lock))); [discriminate |].
  destruct (next_waiter lock (waiting p)) as [[i rest] |]; [| discriminate].
  set (q := mkProcess _ _ _ _ rest) in Hresume.
  destruct (take env i lock q) as [b' p1] eqn:Htake.
  injection Hresume as -> -> ->.
  destruct (take_duplicate q intent lock existing Hlook Hst)
    as (r & w' & Heq & Hdup & Hcalls & Hex & _).
  rewrite Heq in Htake. injection Htake as <- <-. cbn. eauto 10.
Qed.


(** C1, as the code has it. A call of the executor that arrives at the
    free lock of an identity whose record is EXECUTED or EXECUTING
    returns a DUPLICATE result with success set, sends nothing to the
    webhook and leaves the ledger as it was, and so does any number of
    such calls; so does a call that had to wait for the lock and finds
    such a record when its turn comes. A call that arrives while the
    lock is taken waits, and touches neither the ledger nor the webhook.
    When calls for an identity arrive while a first one awaits the
    webhook, they wait, and once the first has its answer they are
    served in turn: the results and the world are those of the same
    calls made one after the other, so that when the first is executed
    the run sends one request in all and every later call is a
    duplicate. The orchestrator, for a payload whose identity is
    EXECUTED, answers that the appointment was already created without
    executing anything. *)
Theorem duplicate_short_circuit :
  (forall intents p id existing,
      lock_free p id = true ->
      executions (world p) !! id = Some existing ->
      er_status existing = EXECUTED \/ er_status existing = EXECUTING ->
      Forall (fun intent => ledger_key intent = id) intents ->
      Forall (fun a => exists lock r,
                  a = Entered lock (IsDuplicate r) /\ is_duplicate_result r)
             (fst (arrive_each env intents p)) /\
      length (fst (arrive_each env intents p)) = length intents /\
      calls (world (snd (arrive_each env intents p))) = calls (world p) /\
      executions (world (snd (arrive_each env intents p))) = executions (world p) /\
      lock_free (snd (arrive_each env intents p)) id = true) /\
  (forall p lock intent b p' existing,
      resume env lock p = Some (intent, b, p') ->
      executions (world p) !! ledger_key intent = Some existing ->
      er_status existing = EXECUTED \/ er_status existing = EXECUTING ->
      (exists r, b = IsDuplicate r /\ is_duplicate_result r) /\
      calls (world p') = calls (world p) /\
      executions (world p') = executions (world p) /\
      holders p' = holders p) /\
  (forall p intent,
      lock_free p (ledger_key intent) = false ->
      exists p',
        arrive env intent p = (Waits (lock_of p (ledger_key intent)), p') /\
        waiting p' = waiting p ++ [(lock_of p (ledger_key intent), intent)] /\
        holders p' = holders p /\
        executions (world p') = executions (world p) /\
        calls (world p') = calls (world p)) /\
  (forall p first rest lock p1,
      locks_agree p ->
      Forall (fun i => ledger_key i = ledger_key first) rest ->
      arrive env first p = (Entered lock Started, p1) ->
      exists p2 r p3 rs p4,
        arrive_each env rest p1 = (map (fun _ => Waits lock) rest, p2) /\
        executions (world p2) = executions (world p1) /\
        calls (world p2) = calls (world p) /\
        complete env lock p2 = Some (r, p3) /\
        serve env (length rest) lock p3 = (rs, p4) /\
        (r :: rs, world p4) = execute_all env (first :: rest) (world p) /\
        lock_free p4 (ledger_key first) = true /\
        (er_status r = EXECUTED ->
         (exists payload, calls (world p4) = calls (world p) ++ [payload]) /\
         Forall is_duplicate_result rs /\
         length rs = length rest)) /\
  (forall args call org item w i id existing,
      validate_calendar_intent args call org
      = inr (mkValidationResult true (Some i) [] (Some args)) ->
      intent_id i = Some id ->
      executions w !! id = Some existing ->
      er_status existing = EXECUTED ->
      fst (handle_tool_call env "create_appointment" (PDict args) call org item w)
      = inr [("success", PBool true);
             ("is_duplicate", PBool true);
             ("message", PStr "This appointment was already created.");
             ("appointment_id", PStr id)] /\
      calls (snd (handle_tool_call env "create_appointment" (PDict args) call org item w))
      = calls w /\
      executions (snd (handle_tool_call env "create_appointment" (PDict args) call org item w))
      = executions w).
Proof.
  split; [| split; [| split; [| split]]].
  - intros intents p id existing. apply arrive_each_duplicates.
  - intros p lock intent b p' existing. apply resume_duplicate.
  - intros p intent. apply arrive_waits.
  - intros p first rest lock p1 Hagree Hall Harrive.
    destruct (overlapping_calls_serialized p first rest lock p1 Hagree Hall Harrive)
      as (p2 & r & p3 & rs & p4 & Heach & Hex & Hcalls & Hcomplete & Hserve & Hrun & Hfree).
    exists p2, r, p3, rs, p4. repeat (split; [assumption |]).
    intros Hst.
    assert (er_status (fst (execute_calendar_intent env first (world p))) = EXECUTED) as Hfirst.
    { cbn [execute_all] in Hrun.
      destruct (execute_calendar_intent env first (world p)) as [r' w1].
      destruct (execute_all env rest w1) as [rs' w2].
      injection Hrun as -> _ _. exact Hst. }
    destruct (execute_all_once env first rest (world p) Hall Hfirst) as (Hone & Hdups & Hlen).
    rewrite <- Hrun in Hone, Hdups, Hlen. cbn [fst snd tl] in Hone, Hdups, Hlen. auto.
  - intros args call org item w i id existing. apply handle_duplicate.
Qed.

(** Building the payload reads the clock and nothing else. *)
Lemma to_zapier_payload_frame intent w :
  executions (snd (to_zapier_payload env intent w)) = executions w /\
  calls (snd (to_zapier_payload env intent w)) = calls w.
Proof.
  unfold to_zapier_payload. destruct (attendees intent); cbn; auto.
Qed.

(** X14. A call that is cancelled while it awaits the webhook leaves its
    EXECUTING mark behind and the lock free. While the call was in
    flight, a call for the identity would have waited. Afterwards a
    create_appointment for the identity does not wait: STEP 3 does not
    count the EXECUTING record as executed, the executor answers with a
    duplicate, which is a success, and the caller is told that the
    appointment was created and the email sent, with no calendar link.
    Nothing is sent and the ledger is left as it is. *)
Theorem cancelled_call_reports_created args call org item p i lock p1 sent p2 :
  validate_calendar_intent args call org = inr (valid_result args i) ->
  arrive env i p = (Entered lock Started, p1) ->
  cancel env lock sent p1 = Some p2 ->
  lock_free p1 (ledger_key i) = false /\
  lock_free p2 (ledger_key i) = true /\
  executions (world p2) !! ledger_key i
  = Some (mkExecutionResult false EXECUTING (ledger_key i) (PDict []) None false None) /\
  let r := fst (handle_tool_call env "create_appointment" (PDict args) call org item
                  (world p2)) in
  let w' := snd (handle_tool_call env "create_appointment" (PDict args) call org item
                   (world p2)) in
  (exists primary,
      hd_error (attendees i) = Some primary /\
      r = inr (created_answer i primary (ledger_key i) PNone)) /\
  calls w' = calls (world p2) /\ executions w' = executions (world p2).
Proof.
  intros Hv Harrive Hcancel.
  destruct (arrive_entered p i lock Started p1 Harrive)
    as (Hbody & Hobj & _ & Hfree & Hnone & Hheld & Hwait).
  pose proof (under_lock_frame i (world (snd (get_lock (ledger_key i) p)))) as (_ & _ & Hmark).
  rewrite Hbody in Hmark. cbn [fst snd] in Hmark. specialize (Hmark eq_refl).
  unfold cancel in Hcancel. rewrite Hheld, lookup_insert_eq in Hcancel.
  destruct (PyStr.is_empty (ZAPIER_WEBHOOK_URL env)); [discriminate |].
  pose proof (to_zapier_payload_frame i (world p1)) as (Hex & _).
  destruct (to_zapier_payload env i (world p1)) as [[e | payload] w]; [discriminate |].
  cbn [snd] in Hex. injection Hcancel as <-.
  assert (executions (if sent then log_call payload w else w) = executions (world p1)) as Hex2.
  { destruct sent; exact Hex. }
  split.
  { unfold lock_free, lock_of, lock_busy. rewrite Hobj, Hheld, lookup_insert_eq.
    rewrite bool_decide_eq_true_2 by eauto. reflexivity. }
  split.
  { unfold lock_free, lock_of, lock_busy. cbn [lock_objects holders waiting].
    rewrite Hobj, Hwait, Hnone, lookup_delete_eq.
    rewrite bool_decide_eq_false_2 by (intros [? ?]; discriminate). reflexivity. }
  cbn [world]. split; [rewrite Hex2; exact Hmark |].
  apply (handle_executing_mark env args call org item _ i
           (mkExecutionResult false EXECUTING (ledger_key i) (PDict []) None false None));
    [exact Hv | rewrite Hex2; exact Hmark | reflexivity].
Qed.

End Locks.

(** Witness of C1. The sample call is cancelled while it awaits the
    webhook and leaves its EXECUTING mark: two more calls are duplicates
    and send nothing. While the sample call is in flight, a second call
    waits. With the webhook that refuses the first request and accepts
    the second, the call that waited for a failing call is executed: two
    requests are sent. With the accepting webhook the orchestrator
    answers the payload as a duplicate. *)
Lemma duplicate_short_circuit_witness :
  match abandoned Sample.accepting with
  | Some p =>
      Forall (fun a => exists lock r,
                  a = Entered lock (IsDuplicate r) /\ is_duplicate_result r)
             (fst (arrive_each Sample.accepting [Sample.intent; Sample.intent] p)) /\
      calls (world (snd (arrive_each Sample.accepting [Sample.intent; Sample.intent] p)))
      = calls (world p)
  | None => False
  end /\
  (exists p',
      arrive Sample.accepting Sample.intent (in_flight Sample.accepting)
      = (Waits 0%nat, p') /\
      calls (world p') = calls (world (in_flight Sample.accepting))) /\
  (exists p2 r p3 rs p4,
      @complete reference_runtime Sample.flaky 0%nat p2 = Some (r, p3) /\
      @serve reference_runtime Sample.flaky 1%nat 0%nat p3 = (rs, p4) /\
      map er_status (r :: rs) = [FAILED; EXECUTED] /\
      length (calls (world p4)) = 2%nat) /\
  fst (@handle_tool_call reference_runtime Sample.accepting "create_appointment"
         (PDict (Sample.consult "john@example.com")) None None None
         (executed_once Sample.accepting))
  = inr [("success", PBool true); ("is_duplicate", PBool true);
         ("message", PStr "This appointment was already created.");
         ("appointment_id", PStr "ec55823e2cb65a1d")].
Proof.
  destruct (@duplicate_short_circuit reference_runtime Sample.accepting)
    as (Hdup & _ & Hwait & _ & Hhandler).
  destruct (@duplicate_short_circuit reference_runtime Sample.flaky)
    as (_ & _ & _ & Hserial & _).
  split; [| split; [| split]].
  - destruct (abandoned Sample.accepting) as [p |] eqn:Hp; [| vm_compute in Hp; discriminate].
    vm_compute in Hp. injection Hp as Hp.
    destruct (Hdup [Sample.intent; Sample.intent] p "ec55823e2cb65a1d"
                (mkExecutionResult false EXECUTING "ec55823e2cb65a1d" (PDict []) None false None))
      as (Hall & _ & Hcalls & _).
    + rewrite <- Hp. vm_compute. reflexivity.
    + rewrite <- Hp. vm_compute. reflexivity.
    + right. reflexivity.
    + repeat constructor.
    + split; assumption.
  - destruct (Hwait (in_flight Sample.accepting) Sample.intent) as (p' & Harrive & _ & _ & _ & Hcalls).
    + vm_compute. reflexivity.
    + exists p'. split; [exact Harrive | exact Hcalls].
  - destruct (Hserial empty_process Sample.intent [Sample.intent] 0%nat
                (in_flight Sample.flaky))
      as (p2 & r & p3 & rs & p4 & _ & _ & _ & Hcomplete & Hserve & Hrun & _).
    + reflexivity.
    + repeat constructor.
    + vm_compute. reflexivity.
    + exists p2, r, p3, rs, p4. split; [exact Hcomplete |]. split; [exact Hserve |].
      assert (r :: rs = fst (@execute_all reference_runtime Sample.flaky
                               [Sample.intent; Sample.intent] empty_world)) as ->
        by (cbn [world empty_process] in Hrun; rewrite <- Hrun; reflexivity).
      assert (world p4 = snd (@execute_all reference_runtime Sample.flaky
                                [Sample.intent; Sample.intent] empty_world)) as ->
        by (cbn [world empty_process] in Hrun; rewrite <- Hrun; reflexivity).
      vm_compute. split; reflexivity.
  - edestruct (Hhandler (Sample.consult "john@example.com") None None None
                 (executed_once Sample.accepting) Sample.intent "ec55823e2cb65a1d")
      as (Hres & _).
    + vm_compute. reflexivity.
    + reflexivity.
    + vm_compute. reflexivity.
    + vm_compute. reflexivity.
    + exact Hres.
Defined.

(** X14 at the sample call: in flight it makes a second call wait;
    cancelled, it leaves the lock free and its mark, and the payload is
    answered as created. *)
Lemma cancelled_call_reports_created_witness :
  match abandoned Sample.accepting with
  | Some p2 =>
      lock_free (in_flight Sample.accepting) (ledger_key Sample.intent) = false /\
      lock_free p2 (ledger_key Sample.intent) = true /\
      executions (world p2) !! ledger_key Sample.intent
      = Some (mkExecutionResult false EXECUTING (ledger_key Sample.intent) (PDict [])
                None false None) /\
      let r := fst (@handle_tool_call reference_runtime Sample.accepting "create_appointment"
                      (PDict (Sample.consult "john@example.com")) None None None
                      (world p2)) in
      let w' := snd (@handle_tool_call reference_runtime Sample.accepting "create_appointment"
                       (PDict (Sample.consult "john@example.com")) None None None
                       (world p2)) in
      (exists primary,
          hd_error (attendees Sample.intent) = Some primary /\
          r = inr (created_answer Sample.intent primary (ledger_key Sample.intent) PNone)) /\
      calls w' = calls (world p2) /\ executions w' = executions (world p2)
  | None => False
  end.
Proof.
  destruct (abandoned Sample.accepting) as [p2 |] eqn:Hp; [| vm_compute in Hp; discriminate].
  apply (@cancelled_call_reports_created reference_runtime Sample.accepting
           (Sample.consult "john@example.com") None None None empty_process Sample.intent
           0%nat (in_flight Sample.accepting) false p2).
  - vm_compute. reflexivity.
  - vm_compute. reflexivity.
  - exact Hp.
Defined.
